(** * Frame buffers and pixel-format conversion of libuvc (src/src/frame.c)

    A shallow embedding of [frame.c]: frames live in a store indexed by
    frame pointers, pixel and metadata buffers live in a heap of blocks,
    and every C function is a computation in a small state-and-fault
    monad.  An access outside a live block, through a null pointer or
    through a dangling pointer is undefined behaviour in C and is the
    outcome [Fault] here.  The channel swap [bgr_to_rgb] of [example.c],
    which the example applies to the frames it converts, is embedded in the
    same way. *)

From stdpp Require Import base tactics option list gmap.
From Stdlib Require Import ZArith Lia.

Local Open Scope Z_scope.

(** ** Machine integers *)

Module CInt.

(** [unsigned int] / [uint32_t]: arithmetic modulo 2^32. *)
Definition wrap_u32 (x : Z) : Z := x mod 2 ^ 32.

(** [int]: two's complement on 32 bits. *)
Definition wrap_int (x : Z) : Z := (x + 2 ^ 31) mod 2 ^ 32 - 2 ^ 31.

(** Conversion to [unsigned char]. *)
Definition to_uchar (x : Z) : Z := x mod 256.

Definition u32_mul (a b : Z) : Z := wrap_u32 (a * b).
Definition int_add (a b : Z) : Z := wrap_int (a + b).
Definition int_sub (a b : Z) : Z := wrap_int (a - b).
Definition int_mul (a b : Z) : Z := wrap_int (a * b).

(** [>>] on [int]: the arithmetic shift every supported compiler emits. *)
Definition int_shr (a k : Z) : Z := Z.shiftr a k.

Definition is_byte (x : Z) : Prop := 0 <= x < 256.

End CInt.
Export CInt.

(** ** Data model *)

(** Addresses of heap blocks ([void *] values other than [NULL]) and of
    frame structures ([uvc_frame_t *]). *)
Abbreviation block := positive.
Abbreviation fptr := positive.

(** Modelled from the spec: [enum uvc_frame_format] is declared in
    libuvc/libuvc.h, which is not part of the sources; the tags are the ones
    [frame.c] and the specification name. *)
Inductive uvc_frame_format : Type :=
  | UVC_FRAME_FORMAT_UNKNOWN
  | UVC_FRAME_FORMAT_UNCOMPRESSED
  | UVC_FRAME_FORMAT_COMPRESSED
  | UVC_FRAME_FORMAT_YUYV
  | UVC_FRAME_FORMAT_UYVY
  | UVC_FRAME_FORMAT_RGB
  | UVC_FRAME_FORMAT_BGR
  | UVC_FRAME_FORMAT_MJPEG
  | UVC_FRAME_FORMAT_H264
  | UVC_FRAME_FORMAT_GRAY8
  | UVC_FRAME_FORMAT_GRAY16
  | UVC_FRAME_FORMAT_BY8
  | UVC_FRAME_FORMAT_BA81
  | UVC_FRAME_FORMAT_SGRBG8
  | UVC_FRAME_FORMAT_SGBRG8
  | UVC_FRAME_FORMAT_SRGGB8
  | UVC_FRAME_FORMAT_SBGGR8
  | UVC_FRAME_FORMAT_NV12
  | UVC_FRAME_FORMAT_P010.

#[global] Instance uvc_frame_format_eq_dec : EqDecision uvc_frame_format.
Proof. solve_decision. Defined.

(** Modelled from the spec: [uvc_error_t] is declared in libuvc/libuvc.h;
    only the codes [frame.c] returns are listed.  The specification calls
    them success, InvalidFormat, OutOfMemory and NotSupported. *)
Inductive uvc_error_t : Type :=
  | UVC_SUCCESS
  | UVC_ERROR_INVALID_PARAM
  | UVC_ERROR_NO_MEM
  | UVC_ERROR_NOT_SUPPORTED.

#[global] Instance uvc_error_t_eq_dec : EqDecision uvc_error_t.
Proof. solve_decision. Defined.

(** The integer value of an error code, used by the tests [... < 0]. *)
Definition error_code (e : uvc_error_t) : Z :=
  match e with
  | UVC_SUCCESS => 0
  | UVC_ERROR_INVALID_PARAM => -2
  | UVC_ERROR_NO_MEM => -11
  | UVC_ERROR_NOT_SUPPORTED => -12
  end.

(** Modelled from the spec: [uvc_frame_t] is declared in libuvc/libuvc.h;
    the fields are the ones [frame.c] reads and writes.  A pointer field is
    [None] when it is [NULL]; the time stamps and the device handle are
    opaque values that are only copied. *)
Record uvc_frame_t : Type := mk_frame {
  data : option block;
  data_bytes : Z;
  width : Z;
  height : Z;
  frame_format : uvc_frame_format;
  step : Z;
  sequence : Z;
  capture_time : Z * Z;
  capture_time_finished : Z * Z;
  source : Z;
  library_owns_data : bool;
  metadata : option block;
  metadata_bytes : Z
}.

Module Upd.
Definition set_data (v : option block) (f : uvc_frame_t) : uvc_frame_t :=
  mk_frame v (data_bytes f) (width f) (height f) (frame_format f) (step f)
    (sequence f) (capture_time f) (capture_time_finished f) (source f)
    (library_owns_data f) (metadata f) (metadata_bytes f).
Definition set_data_bytes (v : Z) (f : uvc_frame_t) : uvc_frame_t :=
  mk_frame (data f) v (width f) (height f) (frame_format f) (step f)
    (sequence f) (capture_time f) (capture_time_finished f) (source f)
    (library_owns_data f) (metadata f) (metadata_bytes f).
Definition set_width (v : Z) (f : uvc_frame_t) : uvc_frame_t :=
  mk_frame (data f) (data_bytes f) v (height f) (frame_format f) (step f)
    (sequence f) (capture_time f) (capture_time_finished f) (source f)
    (library_owns_data f) (metadata f) (metadata_bytes f).
Definition set_height (v : Z) (f : uvc_frame_t) : uvc_frame_t :=
  mk_frame (data f) (data_bytes f) (width f) v (frame_format f) (step f)
    (sequence f) (capture_time f) (capture_time_finished f) (source f)
    (library_owns_data f) (metadata f) (metadata_bytes f).
Definition set_frame_format (v : uvc_frame_format) (f : uvc_frame_t)
  : uvc_frame_t :=
  mk_frame (data f) (data_bytes f) (width f) (height f) v (step f)
    (sequence f) (capture_time f) (capture_time_finished f) (source f)
    (library_owns_data f) (metadata f) (metadata_bytes f).
Definition set_step (v : Z) (f : uvc_frame_t) : uvc_frame_t :=
  mk_frame (data f) (data_bytes f) (width f) (height f) (frame_format f) v
    (sequence f) (capture_time f) (capture_time_finished f) (source f)
    (library_owns_data f) (metadata f) (metadata_bytes f).
Definition set_sequence (v : Z) (f : uvc_frame_t) : uvc_frame_t :=
  mk_frame (data f) (data_bytes f) (width f) (height f) (frame_format f)
    (step f) v (capture_time f) (capture_time_finished f) (source f)
    (library_owns_data f) (metadata f) (metadata_bytes f).
Definition set_capture_time (v : Z * Z) (f : uvc_frame_t) : uvc_frame_t :=
  mk_frame (data f) (data_bytes f) (width f) (height f) (frame_format f)
    (step f) (sequence f) v (capture_time_finished f) (source f)
    (library_owns_data f) (metadata f) (metadata_bytes f).
Definition set_capture_time_finished (v : Z * Z) (f : uvc_frame_t)
  : uvc_frame_t :=
  mk_frame (data f) (data_bytes f) (width f) (height f) (frame_format f)
    (step f) (sequence f) (capture_time f) v (source f)
    (library_owns_data f) (metadata f) (metadata_bytes f).
Definition set_source (v : Z) (f : uvc_frame_t) : uvc_frame_t :=
  mk_frame (data f) (data_bytes f) (width f) (height f) (frame_format f)
    (step f) (sequence f) (capture_time f) (capture_time_finished f) v
    (library_owns_data f) (metadata f) (metadata_bytes f).
Definition set_metadata (v : option block) (f : uvc_frame_t) : uvc_frame_t :=
  mk_frame (data f) (data_bytes f) (width f) (height f) (frame_format f)
    (step f) (sequence f) (capture_time f) (capture_time_finished f)
    (source f) (library_owns_data f) v (metadata_bytes f).
Definition set_metadata_bytes (v : Z) (f : uvc_frame_t) : uvc_frame_t :=
  mk_frame (data f) (data_bytes f) (width f) (height f) (frame_format f)
    (step f) (sequence f) (capture_time f) (capture_time_finished f)
    (source f) (library_owns_data f) (metadata f) v.
End Upd.
Export Upd.

(** ** Program state *)

(** What the allocator does with the next request: the C library decides,
    so the decisions are an input of the model.  [AllocFreeZero] is the
    behaviour of [realloc (p, 0)] that frees [p] and returns [NULL]. *)
Inductive alloc_choice : Type :=
  | AllocFail
  | AllocInPlace
  | AllocMove
  | AllocFreeZero.

Record state : Type := mk_state {
  frames : gmap fptr uvc_frame_t;
  mem : gmap block (list Z);
  allocator : list alloc_choice
}.

Definition with_frames (fs : gmap fptr uvc_frame_t) (s : state) : state :=
  mk_state fs (mem s) (allocator s).
Definition with_mem (m : gmap block (list Z)) (s : state) : state :=
  mk_state (frames s) m (allocator s).
Definition with_allocator (a : list alloc_choice) (s : state) : state :=
  mk_state (frames s) (mem s) a.

(** ** The monad of C computations *)

Inductive outcome (A : Type) : Type :=
  | Done (a : A) (s : state)
  | Fault
  | OutOfFuel.
Arguments Done {A} a s.
Arguments Fault {A}.
Arguments OutOfFuel {A}.

Definition M (A : Type) : Type := state -> outcome A.

Definition ret {A} (a : A) : M A := fun s => Done a s.

Definition bind {A B} (c : M A) (k : A -> M B) : M B :=
  fun s =>
    match c s with
    | Done a s' => k a s'
    | Fault => Fault
    | OutOfFuel => OutOfFuel
    end.

Definition fault {A} : M A := fun _ => Fault.
Definition out_of_fuel {A} : M A := fun _ => OutOfFuel.

Declare Scope cmd_scope.
Delimit Scope cmd_scope with cmd.
Notation "x <- c ;; k" := (bind c (fun x => k))
  (at level 100, c at next level, right associativity) : cmd_scope.
Notation "c ;; k" := (bind c (fun _ => k))
  (at level 100, right associativity) : cmd_scope.
Local Open Scope cmd_scope.

(** *** Frame structures *)

(** Reading through a frame pointer ([frame->field]). *)
Definition get_frame (p : fptr) : M uvc_frame_t :=
  fun s => match frames s !! p with
           | Some f => Done f s
           | None => Fault
           end.

(** Assigning one field through a frame pointer ([frame->field = v]). *)
Definition set_frame (p : fptr) (upd : uvc_frame_t -> uvc_frame_t) : M unit :=
  fun s => match frames s !! p with
           | Some f => Done tt (with_frames (<[p := upd f]> (frames s)) s)
           | None => Fault
           end.

(** *** Bytes *)

Definition in_range (l : list Z) (off : Z) : bool :=
  (0 <=? off) && (off <? Z.of_nat (length l)).

(** [p[off]] as an rvalue, [p] a [uint8_t *]. *)
Definition load (p : option block) (off : Z) : M Z :=
  fun s =>
    match p with
    | None => Fault
    | Some b =>
        match mem s !! b with
        | None => Fault
        | Some l =>
            match l !! Z.to_nat off with
            | Some v => if 0 <=? off then Done v s else Fault
            | None => Fault
            end
        end
    end.

(** [p[off] = v]. *)
Definition store (p : option block) (off : Z) (v : Z) : M unit :=
  fun s =>
    match p with
    | None => Fault
    | Some b =>
        match mem s !! b with
        | None => Fault
        | Some l =>
            if in_range l off
            then Done tt (with_mem (<[b := <[Z.to_nat off := v]> l]> (mem s)) s)
            else Fault
        end
    end.

(** *** The C library *)

(** The contents of a block after it was resized to [n] bytes: the common
    prefix is kept; the new bytes are indeterminate in C and are 0 here. *)
Definition resize (n : Z) (l : list Z) : list Z :=
  take (Z.to_nat n) l ++ replicate (Z.to_nat n - length l)%nat 0.

Definition next_choice (s : state) : alloc_choice * state :=
  match allocator s with
  | [] => (AllocMove, s)
  | c :: cs => (c, with_allocator cs s)
  end.

Definition fresh_block (s : state) : block := fresh (dom (mem s)).

(** [realloc (p, n)].  A failed request returns [NULL] and leaves the old
    block alone; a request on [NULL] allocates; otherwise the block is resized
    where it is or moved to a new address, the old one being freed. *)
Definition realloc (p : option block) (n : Z) : M (option block) :=
  fun s0 =>
    let '(c, s) := next_choice s0 in
    match p with
    | None =>
        match c with
        | AllocFail | AllocFreeZero => Done None s
        | AllocInPlace | AllocMove =>
            let b := fresh_block s in
            Done (Some b) (with_mem (<[b := resize n []]> (mem s)) s)
        end
    | Some b =>
        match mem s !! b with
        | None => Fault
        | Some l =>
            match c with
            | AllocFail => Done None s
            | AllocFreeZero =>
                if n =? 0 then Done None (with_mem (delete b (mem s)) s)
                else Done None s
            | AllocInPlace =>
                Done (Some b) (with_mem (<[b := resize n l]> (mem s)) s)
            | AllocMove =>
                let b' := fresh_block s in
                Done (Some b')
                  (with_mem (<[b' := resize n l]> (delete b (mem s))) s)
            end
        end
    end.

(** [memcpy (dst, src, n)]: nothing is accessed when [n] is 0; otherwise
    both regions must lie in live blocks.  The bytes are read before they
    are written, so that a copy of a block onto itself changes nothing. *)
Definition memcpy (dst src : option block) (n : Z) : M unit :=
  fun s =>
    if n <=? 0 then Done tt s
    else
      match src, dst with
      | Some bs, Some bd =>
          match mem s !! bs, mem s !! bd with
          | Some ls, Some ld =>
              if (n <=? Z.of_nat (length ls)) && (n <=? Z.of_nat (length ld))
              then
                Done tt
                  (with_mem
                     (<[bd := take (Z.to_nat n) ls ++ drop (Z.to_nat n) ld]>
                        (mem s)) s)
              else Fault
          | _, _ => Fault
          end
      | _, _ => Fault
      end.

(** ** frame.c *)

Definition is_null (p : option block) : bool :=
  match p with None => true | Some _ => false end.

(** [uvc_ensure_frame_size], frame.c lines 10-24. *)
Definition uvc_ensure_frame_size (frame : fptr) (need_bytes : Z)
  : M uvc_error_t :=
  f <- get_frame frame ;;
  if library_owns_data f then
    (if is_null (data f) || negb (data_bytes f =? need_bytes) then
       set_frame frame (set_data_bytes need_bytes) ;;
       f1 <- get_frame frame ;;
       p <- realloc (data f1) (data_bytes f1) ;;
       set_frame frame (set_data p)
     else ret tt) ;;
    f2 <- get_frame frame ;;
    if is_null (data f2) then ret UVC_ERROR_NO_MEM
    else ret UVC_SUCCESS
  else
    if is_null (data f) || (data_bytes f <? need_bytes)
    then ret UVC_ERROR_NO_MEM
    else ret UVC_SUCCESS.

(** [frame->field] as an rvalue and [frame->field = rhs] as a statement. *)
Definition field {A} (p : fptr) (proj : uvc_frame_t -> A) : M A :=
  f <- get_frame p ;; ret (proj f).

Definition assign {A} (p : fptr) (setter : A -> uvc_frame_t -> uvc_frame_t)
    (rhs : M A) : M unit :=
  v <- rhs ;; set_frame p (setter v).

(** [sat], frame.c lines 72-74. *)
Definition sat (i : Z) : Z :=
  to_uchar (if 255 <=? i then 255 else if i <? 0 then 0 else i).

(** [uvc_duplicate_frame], frame.c lines 82-108. *)
Definition uvc_duplicate_frame (in_ out : fptr) : M uvc_error_t :=
  n <- field in_ data_bytes ;;
  e <- uvc_ensure_frame_size out n ;;
  if error_code e <? 0 then ret UVC_ERROR_NO_MEM
  else
    assign out set_width (field in_ width) ;;
    assign out set_height (field in_ height) ;;
    assign out set_frame_format (field in_ frame_format) ;;
    assign out set_step (field in_ step) ;;
    assign out set_sequence (field in_ sequence) ;;
    assign out set_capture_time (field in_ capture_time) ;;
    assign out set_capture_time_finished (field in_ capture_time_finished) ;;
    assign out set_source (field in_ source) ;;
    dst <- field out data ;;
    src <- field in_ data ;;
    n <- field in_ data_bytes ;;
    memcpy dst src n ;;
    fi <- get_frame in_ ;;
    (if negb (is_null (metadata fi)) && (0 <? metadata_bytes fi) then
       fo <- get_frame out ;;
       fi <- get_frame in_ ;;
       (if metadata_bytes fo <? metadata_bytes fi then
          p <- realloc (metadata fo) (metadata_bytes fi) ;;
          set_frame out (set_metadata p)
        else ret tt) ;;
       assign out set_metadata_bytes (field in_ metadata_bytes) ;;
       mdst <- field out metadata ;;
       msrc <- field in_ metadata ;;
       mn <- field in_ metadata_bytes ;;
       memcpy mdst msrc mn
     else ret tt) ;;
    ret UVC_SUCCESS.

(** A [uint8_t *] into a buffer: the buffer it was derived from and the
    distance from its start. *)
Record ptr : Type := mk_ptr { base : option block; offset : Z }.

Definition ptr_add (p : ptr) (k : Z) : ptr := mk_ptr (base p) (offset p + k).
Definition ptr_lt (p q : ptr) : bool := offset p <? offset q.
Definition rd (p : ptr) (i : Z) : M Z := load (base p) (offset p + i).
Definition wr (p : ptr) (i : Z) (v : Z) : M unit :=
  store (base p) (offset p + i) v.

(** [IYUYV2RGB_2], frame.c lines 121-131. *)
Definition IYUYV2RGB_2 (pyuv prgb : ptr) : M unit :=
  v <- rd pyuv 3 ;;
  let r := int_shr (int_mul 22987 (int_sub v 128)) 14 in
  u <- rd pyuv 1 ;;
  v <- rd pyuv 3 ;;
  let g := int_shr (int_sub (int_mul (-5636) (int_sub u 128))
                            (int_mul 11698 (int_sub v 128))) 14 in
  u <- rd pyuv 1 ;;
  let b := int_shr (int_mul 29049 (int_sub u 128)) 14 in
  y <- rd pyuv 0 ;; wr prgb 0 (sat (int_add y r)) ;;
  y <- rd pyuv 0 ;; wr prgb 1 (sat (int_add y g)) ;;
  y <- rd pyuv 0 ;; wr prgb 2 (sat (int_add y b)) ;;
  y <- rd pyuv 2 ;; wr prgb 3 (sat (int_add y r)) ;;
  y <- rd pyuv 2 ;; wr prgb 4 (sat (int_add y g)) ;;
  y <- rd pyuv 2 ;; wr prgb 5 (sat (int_add y b)).

(** [IYUYV2RGB_4] and [IYUYV2RGB_8], frame.c lines 133-134. *)
Definition IYUYV2RGB_4 (pyuv prgb : ptr) : M unit :=
  IYUYV2RGB_2 pyuv prgb ;; IYUYV2RGB_2 (ptr_add pyuv 4) (ptr_add prgb 6).
Definition IYUYV2RGB_8 (pyuv prgb : ptr) : M unit :=
  IYUYV2RGB_4 pyuv prgb ;; IYUYV2RGB_4 (ptr_add pyuv 8) (ptr_add prgb 12).

(** The fields every kernel sets after the destination was sized. *)
Definition copy_timing (in_ out : fptr) : M unit :=
  assign out set_sequence (field in_ sequence) ;;
  assign out set_capture_time (field in_ capture_time) ;;
  assign out set_capture_time_finished (field in_ capture_time_finished) ;;
  assign out set_source (field in_ source).

(** [in->width * in->height * k], computed on [uint32_t] and converted to
    [size_t]. *)
Definition pixel_bytes (in_ : fptr) (k : Z) : M Z :=
  w <- field in_ width ;;
  h <- field in_ height ;;
  ret (u32_mul (u32_mul w h) k).

(** The loop of [uvc_yuyv2rgb], frame.c lines 162-167. *)
Fixpoint yuyv2rgb_loop (fuel : nat) (pyuv prgb prgb_end : ptr) : M unit :=
  match fuel with
  | O => out_of_fuel
  | S fuel' =>
      if ptr_lt prgb prgb_end then
        IYUYV2RGB_8 pyuv prgb ;;
        yuyv2rgb_loop fuel' (ptr_add pyuv (2 * 8)) (ptr_add prgb (3 * 8))
          prgb_end
      else ret tt
  end.

(** Enough fuel for a loop that advances its write pointer by at least one
    byte per turn until it reaches [data_bytes]. *)
Definition loop_fuel (data_bytes : Z) : nat := S (Z.to_nat data_bytes).

(** [uvc_yuyv2rgb], frame.c lines 142-170. *)
Definition uvc_yuyv2rgb (in_ out : fptr) : M uvc_error_t :=
  fmt <- field in_ frame_format ;;
  if negb (bool_decide (fmt = UVC_FRAME_FORMAT_YUYV))
  then ret UVC_ERROR_INVALID_PARAM
  else
    need <- pixel_bytes in_ 3 ;;
    e <- uvc_ensure_frame_size out need ;;
    if error_code e <? 0 then ret UVC_ERROR_NO_MEM
    else
      assign out set_width (field in_ width) ;;
      assign out set_height (field in_ height) ;;
      assign out set_frame_format (ret UVC_FRAME_FORMAT_RGB) ;;
      assign out set_step (w <- field in_ width ;; ret (u32_mul w 3)) ;;
      copy_timing in_ out ;;
      src <- field in_ data ;;
      dst <- field out data ;;
      n <- field out data_bytes ;;
      let pyuv := mk_ptr src 0 in
      let prgb := mk_ptr dst 0 in
      let prgb_end := ptr_add prgb n in
      yuyv2rgb_loop (loop_fuel n) pyuv prgb prgb_end ;;
      ret UVC_SUCCESS.

(** [uvc_yuyv2bgr], frame.c lines 240-303.  The pixel loop of this function
    is commented out in the source: the pointers and the pixel counts are
    computed and never used, and the macros [IYUYV2BGR_2/4/8/16] are
    expanded nowhere. *)
Definition uvc_yuyv2bgr (in_ out : fptr) : M uvc_error_t :=
  fmt <- field in_ frame_format ;;
  if negb (bool_decide (fmt = UVC_FRAME_FORMAT_YUYV))
  then ret UVC_ERROR_INVALID_PARAM
  else
    expected_out_size <- pixel_bytes in_ 3 ;;
    e <- uvc_ensure_frame_size out expected_out_size ;;
    if error_code e <? 0 then ret UVC_ERROR_NO_MEM
    else
      assign out set_width (field in_ width) ;;
      assign out set_height (field in_ height) ;;
      assign out set_frame_format (ret UVC_FRAME_FORMAT_BGR) ;;
      assign out set_step (w <- field in_ width ;; ret (u32_mul w 3)) ;;
      copy_timing in_ out ;;
      src <- field in_ data ;;
      dst <- field out data ;;
      n <- field out data_bytes ;;
      let pyuv := mk_ptr src 0 in
      let pbgr := mk_ptr dst 0 in
      let pbgr_end := ptr_add pbgr n in
      total_pixels <- pixel_bytes in_ 1 ;;
      let num_blocks := total_pixels / 8 in
      let remaining_pixels := total_pixels mod 8 in
      ret UVC_SUCCESS.

(** [IYUYV2Y], frame.c lines 306-308. *)
Definition IYUYV2Y (pyuv py : ptr) : M unit :=
  y <- rd pyuv 0 ;; wr py 0 y.

(** The loop of [uvc_yuyv2y], frame.c lines 336-341. *)
Fixpoint yuyv2y_loop (fuel : nat) (pyuv py py_end : ptr) : M unit :=
  match fuel with
  | O => out_of_fuel
  | S fuel' =>
      if ptr_lt py py_end then
        IYUYV2Y pyuv py ;;
        yuyv2y_loop fuel' (ptr_add pyuv 2) (ptr_add py 1) py_end
      else ret tt
  end.

(** [uvc_yuyv2y], frame.c lines 316-344. *)
Definition uvc_yuyv2y (in_ out : fptr) : M uvc_error_t :=
  fmt <- field in_ frame_format ;;
  if negb (bool_decide (fmt = UVC_FRAME_FORMAT_YUYV))
  then ret UVC_ERROR_INVALID_PARAM
  else
    need <- pixel_bytes in_ 1 ;;
    e <- uvc_ensure_frame_size out need ;;
    if error_code e <? 0 then ret UVC_ERROR_NO_MEM
    else
      assign out set_width (field in_ width) ;;
      assign out set_height (field in_ height) ;;
      assign out set_frame_format (ret UVC_FRAME_FORMAT_GRAY8) ;;
      assign out set_step (field in_ width) ;;
      copy_timing in_ out ;;
      src <- field in_ data ;;
      dst <- field out data ;;
      n <- field out data_bytes ;;
      let pyuv := mk_ptr src 0 in
      let py := mk_ptr dst 0 in
      let py_end := ptr_add py n in
      yuyv2y_loop (loop_fuel n) pyuv py py_end ;;
      ret UVC_SUCCESS.

(** [IYUYV2UV], frame.c lines 346-348. *)
Definition IYUYV2UV (pyuv puv : ptr) : M unit :=
  c <- rd pyuv 1 ;; wr puv 0 c.

(** The loop of [uvc_yuyv2uv], frame.c lines 376-381. *)
Fixpoint yuyv2uv_loop (fuel : nat) (pyuv puv puv_end : ptr) : M unit :=
  match fuel with
  | O => out_of_fuel
  | S fuel' =>
      if ptr_lt puv puv_end then
        IYUYV2UV pyuv puv ;;
        yuyv2uv_loop fuel' (ptr_add pyuv 2) (ptr_add puv 1) puv_end
      else ret tt
  end.

(** [uvc_yuyv2uv], frame.c lines 356-384. *)
Definition uvc_yuyv2uv (in_ out : fptr) : M uvc_error_t :=
  fmt <- field in_ frame_format ;;
  if negb (bool_decide (fmt = UVC_FRAME_FORMAT_YUYV))
  then ret UVC_ERROR_INVALID_PARAM
  else
    need <- pixel_bytes in_ 1 ;;
    e <- uvc_ensure_frame_size out need ;;
    if error_code e <? 0 then ret UVC_ERROR_NO_MEM
    else
      assign out set_width (field in_ width) ;;
      assign out set_height (field in_ height) ;;
      assign out set_frame_format (ret UVC_FRAME_FORMAT_GRAY8) ;;
      assign out set_step (field in_ width) ;;
      copy_timing in_ out ;;
      src <- field in_ data ;;
      dst <- field out data ;;
      n <- field out data_bytes ;;
      let pyuv := mk_ptr src 0 in
      let puv := mk_ptr dst 0 in
      let puv_end := ptr_add puv n in
      yuyv2uv_loop (loop_fuel n) pyuv puv puv_end ;;
      ret UVC_SUCCESS.

(** [IUYVY2RGB_2], frame.c lines 386-396. *)
Definition IUYVY2RGB_2 (pyuv prgb : ptr) : M unit :=
  v <- rd pyuv 2 ;;
  let r := int_shr (int_mul 22987 (int_sub v 128)) 14 in
  u <- rd pyuv 0 ;;
  v <- rd pyuv 2 ;;
  let g := int_shr (int_sub (int_mul (-5636) (int_sub u 128))
                            (int_mul 11698 (int_sub v 128))) 14 in
  u <- rd pyuv 0 ;;
  let b := int_shr (int_mul 29049 (int_sub u 128)) 14 in
  y <- rd pyuv 1 ;; wr prgb 0 (sat (int_add y r)) ;;
  y <- rd pyuv 1 ;; wr prgb 1 (sat (int_add y g)) ;;
  y <- rd pyuv 1 ;; wr prgb 2 (sat (int_add y b)) ;;
  y <- rd pyuv 3 ;; wr prgb 3 (sat (int_add y r)) ;;
  y <- rd pyuv 3 ;; wr prgb 4 (sat (int_add y g)) ;;
  y <- rd pyuv 3 ;; wr prgb 5 (sat (int_add y b)).

(** [IUYVY2RGB_4] and [IUYVY2RGB_8], frame.c lines 398-399. *)
Definition IUYVY2RGB_4 (pyuv prgb : ptr) : M unit :=
  IUYVY2RGB_2 pyuv prgb ;; IUYVY2RGB_2 (ptr_add pyuv 4) (ptr_add prgb 6).
Definition IUYVY2RGB_8 (pyuv prgb : ptr) : M unit :=
  IUYVY2RGB_4 pyuv prgb ;; IUYVY2RGB_4 (ptr_add pyuv 8) (ptr_add prgb 12).

(** The loop of [uvc_uyvy2rgb], frame.c lines 426-431. *)
Fixpoint uyvy2rgb_loop (fuel : nat) (pyuv prgb prgb_end : ptr) : M unit :=
  match fuel with
  | O => out_of_fuel
  | S fuel' =>
      if ptr_lt prgb prgb_end then
        IUYVY2RGB_8 pyuv prgb ;;
        uyvy2rgb_loop fuel' (ptr_add pyuv (2 * 8)) (ptr_add prgb (3 * 8))
          prgb_end
      else ret tt
  end.

(** [uvc_uyvy2rgb], frame.c lines 406-434. *)
Definition uvc_uyvy2rgb (in_ out : fptr) : M uvc_error_t :=
  fmt <- field in_ frame_format ;;
  if negb (bool_decide (fmt = UVC_FRAME_FORMAT_UYVY))
  then ret UVC_ERROR_INVALID_PARAM
  else
    need <- pixel_bytes in_ 3 ;;
    e <- uvc_ensure_frame_size out need ;;
    if error_code e <? 0 then ret UVC_ERROR_NO_MEM
    else
      assign out set_width (field in_ width) ;;
      assign out set_height (field in_ height) ;;
      assign out set_frame_format (ret UVC_FRAME_FORMAT_RGB) ;;
      assign out set_step (w <- field in_ width ;; ret (u32_mul w 3)) ;;
      copy_timing in_ out ;;
      src <- field in_ data ;;
      dst <- field out data ;;
      n <- field out data_bytes ;;
      let pyuv := mk_ptr src 0 in
      let prgb := mk_ptr dst 0 in
      let prgb_end := ptr_add prgb n in
      uyvy2rgb_loop (loop_fuel n) pyuv prgb prgb_end ;;
      ret UVC_SUCCESS.

(** [IUYVY2BGR_2], frame.c lines 436-446. *)
Definition IUYVY2BGR_2 (pyuv pbgr : ptr) : M unit :=
  v <- rd pyuv 2 ;;
  let r := int_shr (int_mul 22987 (int_sub v 128)) 14 in
  u <- rd pyuv 0 ;;
  v <- rd pyuv 2 ;;
  let g := int_shr (int_sub (int_mul (-5636) (int_sub u 128))
                            (int_mul 11698 (int_sub v 128))) 14 in
  u <- rd pyuv 0 ;;
  let b := int_shr (int_mul 29049 (int_sub u 128)) 14 in
  y <- rd pyuv 1 ;; wr pbgr 0 (sat (int_add y b)) ;;
  y <- rd pyuv 1 ;; wr pbgr 1 (sat (int_add y g)) ;;
  y <- rd pyuv 1 ;; wr pbgr 2 (sat (int_add y r)) ;;
  y <- rd pyuv 3 ;; wr pbgr 3 (sat (int_add y b)) ;;
  y <- rd pyuv 3 ;; wr pbgr 4 (sat (int_add y g)) ;;
  y <- rd pyuv 3 ;; wr pbgr 5 (sat (int_add y r)).

(** [IUYVY2BGR_4] and [IUYVY2BGR_8], frame.c lines 448-449. *)
Definition IUYVY2BGR_4 (pyuv pbgr : ptr) : M unit :=
  IUYVY2BGR_2 pyuv pbgr ;; IUYVY2BGR_2 (ptr_add pyuv 4) (ptr_add pbgr 6).
Definition IUYVY2BGR_8 (pyuv pbgr : ptr) : M unit :=
  IUYVY2BGR_4 pyuv pbgr ;; IUYVY2BGR_4 (ptr_add pyuv 8) (ptr_add pbgr 12).

(** The loop of [uvc_uyvy2bgr], frame.c lines 476-481. *)
Fixpoint uyvy2bgr_loop (fuel : nat) (pyuv pbgr pbgr_end : ptr) : M unit :=
  match fuel with
  | O => out_of_fuel
  | S fuel' =>
      if ptr_lt pbgr pbgr_end then
        IUYVY2BGR_8 pyuv pbgr ;;
        uyvy2bgr_loop fuel' (ptr_add pyuv (2 * 8)) (ptr_add pbgr (3 * 8))
          pbgr_end
      else ret tt
  end.

(** [uvc_uyvy2bgr], frame.c lines 456-484. *)
Definition uvc_uyvy2bgr (in_ out : fptr) : M uvc_error_t :=
  fmt <- field in_ frame_format ;;
  if negb (bool_decide (fmt = UVC_FRAME_FORMAT_UYVY))
  then ret UVC_ERROR_INVALID_PARAM
  else
    need <- pixel_bytes in_ 3 ;;
    e <- uvc_ensure_frame_size out need ;;
    if error_code e <? 0 then ret UVC_ERROR_NO_MEM
    else
      assign out set_width (field in_ width) ;;
      assign out set_height (field in_ height) ;;
      assign out set_frame_format (ret UVC_FRAME_FORMAT_BGR) ;;
      assign out set_step (w <- field in_ width ;; ret (u32_mul w 3)) ;;
      copy_timing in_ out ;;
      src <- field in_ data ;;
      dst <- field out data ;;
      n <- field out data_bytes ;;
      let pyuv := mk_ptr src 0 in
      let pbgr := mk_ptr dst 0 in
      let pbgr_end := ptr_add pbgr n in
      uyvy2bgr_loop (loop_fuel n) pyuv pbgr pbgr_end ;;
      ret UVC_SUCCESS.

(** The routers.  [LIBUVC_HAS_JPEG] is a build-time macro and
    [uvc_mjpeg2rgb] lives in another translation unit: both are parameters
    here. *)
Section Routers.

Variable LIBUVC_HAS_JPEG : bool.
Variable uvc_mjpeg2rgb : fptr -> fptr -> M uvc_error_t.

(** [uvc_any2rgb], frame.c lines 492-507. *)
Definition uvc_any2rgb (in_ out : fptr) : M uvc_error_t :=
  fmt <- field in_ frame_format ;;
  match fmt with
  | UVC_FRAME_FORMAT_MJPEG =>
      if LIBUVC_HAS_JPEG then uvc_mjpeg2rgb in_ out
      else ret UVC_ERROR_NOT_SUPPORTED
  | UVC_FRAME_FORMAT_YUYV => uvc_yuyv2rgb in_ out
  | UVC_FRAME_FORMAT_UYVY => uvc_uyvy2rgb in_ out
  | UVC_FRAME_FORMAT_RGB => uvc_duplicate_frame in_ out
  | _ => ret UVC_ERROR_NOT_SUPPORTED
  end.

(** [uvc_any2bgr], frame.c lines 515-526. *)
Definition uvc_any2bgr (in_ out : fptr) : M uvc_error_t :=
  fmt <- field in_ frame_format ;;
  match fmt with
  | UVC_FRAME_FORMAT_YUYV => uvc_yuyv2bgr in_ out
  | UVC_FRAME_FORMAT_UYVY => uvc_uyvy2bgr in_ out
  | UVC_FRAME_FORMAT_BGR => uvc_duplicate_frame in_ out
  | _ => ret UVC_ERROR_NOT_SUPPORTED
  end.

End Routers.

(** ** Frame lifecycle: the rest of frame.c *)

(** [malloc (n)], that is [realloc (NULL, n)]. *)
Definition malloc (n : Z) : M (option block) := realloc None n.

(** [free (p)]: nothing happens for [NULL]; releasing an address that is not
    a live block is undefined. *)
Definition free (p : option block) : M unit :=
  fun s =>
    match p with
    | None => Done tt s
    | Some b =>
        match mem s !! b with
        | Some _ => Done tt (with_mem (delete b (mem s)) s)
        | None => Fault
        end
    end.

(** A frame structure whose bytes are all zero. *)
Definition zero_frame : uvc_frame_t :=
  mk_frame None 0 0 0 UVC_FRAME_FORMAT_UNKNOWN 0 0 (0, 0) (0, 0) 0 false
    None 0.

Definition set_library_owns_data (v : bool) (f : uvc_frame_t) : uvc_frame_t :=
  mk_frame (data f) (data_bytes f) (width f) (height f) (frame_format f)
    (step f) (sequence f) (capture_time f) (capture_time_finished f)
    (source f) v (metadata f) (metadata_bytes f).

(** [malloc (sizeof (uvc_frame_t))]: a failed request returns [NULL];
    otherwise a structure appears at an address that designated no frame.
    Its content is indeterminate in C and is [zero_frame] here. *)
Definition malloc_frame : M (option fptr) :=
  fun s0 =>
    let '(c, s) := next_choice s0 in
    match c with
    | AllocFail | AllocFreeZero => Done None s
    | AllocInPlace | AllocMove =>
        let p := fresh (dom (frames s)) in
        Done (Some p) (with_frames (<[p := zero_frame]> (frames s)) s)
    end.

(** [free (frame)] for a frame structure. *)
Definition free_frame (p : fptr) : M unit :=
  fun s =>
    match frames s !! p with
    | Some _ => Done tt (with_frames (delete p (frames s)) s)
    | None => Fault
    end.

(** [uvc_allocate_frame], frame.c lines 32-52. *)
Definition uvc_allocate_frame (data_bytes_ : Z) : M (option fptr) :=
  frame <- malloc_frame ;;
  match frame with
  | None => ret None
  | Some p =>
      set_frame p (fun _ => zero_frame) ;;
      set_frame p (set_library_owns_data true) ;;
      if 0 <? data_bytes_ then
        set_frame p (set_data_bytes data_bytes_) ;;
        d <- malloc data_bytes_ ;;
        set_frame p (set_data d) ;;
        f <- get_frame p ;;
        if is_null (data f) then free_frame p ;; ret None
        else ret (Some p)
      else ret (Some p)
  end.

(** Modelled from the spec: the field [time_stamp] of [uvc_frame_t] is
    declared in libuvc/libuvc.h, which is not part of the sources.  No
    function of frame.c assigns it (only the [memset] of
    [uvc_allocate_frame] clears it), so its value is a parameter: the
    pointer stored in that field of each frame structure. *)
Section Release.

Variable time_stamp : fptr -> option block.

(** [uvc_free_frame], frame.c lines 59-70. *)
Definition uvc_free_frame (frame : fptr) : M unit :=
  f <- get_frame frame ;;
  (if library_owns_data f then
     (f1 <- get_frame frame ;;
      if 0 <? data_bytes f1 then free (data f1) else ret tt) ;;
     (f2 <- get_frame frame ;;
      if 0 <? metadata_bytes f2 then free (metadata f2) else ret tt) ;;
     (if negb (is_null (time_stamp frame)) then free (time_stamp frame)
      else ret tt)
   else ret tt) ;;
  free_frame frame.

End Release.

(** ** example.c *)

(** The loop of [bgr_to_rgb], example.c lines 10-14; [i] is an [int]. *)
Fixpoint bgr_to_rgb_loop (fuel : nat) (data_ : option block)
    (width_ height_ : Z) (i : Z) : M unit :=
  match fuel with
  | O => out_of_fuel
  | S fuel' =>
      if i <? int_mul (int_mul width_ height_) 3 then
        temp <- load data_ i ;;
        red <- load data_ (int_add i 2) ;;
        store data_ i red ;;
        store data_ (int_add i 2) temp ;;
        bgr_to_rgb_loop fuel' data_ width_ height_ (int_add i 3)
      else ret tt
  end.

(** [bgr_to_rgb], example.c lines 9-15. *)
Definition bgr_to_rgb (data_ : option block) (width_ height_ : Z) : M unit :=
  bgr_to_rgb_loop (loop_fuel (int_mul (int_mul width_ height_) 3)) data_
    width_ height_ 0.


(** ** Vocabulary of the statements *)

(** The first [n] bytes behind a buffer pointer, when they all exist; no
    byte is looked at when [n] is not positive. *)
Definition buffer (s : state) (p : option block) (n : Z) : option (list Z) :=
  if n <=? 0 then Some []
  else
    match p with
    | None => None
    | Some b =>
        match mem s !! b with
        | None => None
        | Some l =>
            if n <=? Z.of_nat (length l) then Some (take (Z.to_nat n) l)
            else None
        end
    end.

(** The frame [fo] after the eight assignments that copy geometry, format,
    timing and origin from [fi]. *)
Definition copy_geometry (fi fo : uvc_frame_t) : uvc_frame_t :=
  mk_frame (data fo) (data_bytes fo) (width fi) (height fi) (frame_format fi)
    (step fi) (sequence fi) (capture_time fi) (capture_time_finished fi)
    (source fi) (library_owns_data fo) (metadata fo) (metadata_bytes fo).

(** The frame [fo] after a kernel set its geometry for format [fmt] with
    row length [stp], and copied timing and origin from [fi]. *)
Definition converted_geometry (fmt : uvc_frame_format) (stp : Z)
    (fi fo : uvc_frame_t) : uvc_frame_t :=
  mk_frame (data fo) (data_bytes fo) (width fi) (height fi) fmt stp
    (sequence fi) (capture_time fi) (capture_time_finished fi) (source fi)
    (library_owns_data fo) (metadata fo) (metadata_bytes fo).

(** The test that guards the metadata part of [uvc_duplicate_frame]:
    [in->metadata && in->metadata_bytes > 0]. *)
Definition has_metadata (f : uvc_frame_t) : bool :=
  negb (is_null (metadata f)) && (0 <? metadata_bytes f).

(** The metadata buffer of the destination [G] is a live block of its own:
    it is neither the pixel buffer of [G] nor the one of the source [F]. *)
Definition own_metadata (s : state) (F G : uvc_frame_t) : Prop :=
  forall m, metadata G = Some m ->
    is_Some (mem s !! m) /\ data G <> Some m /\ data F <> Some m.

(** The pixel buffer of the source [F] is none of the buffers of the
    destination [G]. *)
Definition apart (F G : uvc_frame_t) : Prop :=
  forall b, data F = Some b -> data G <> Some b /\ metadata G <> Some b.

(** *** Pixel arithmetic *)

(** The saturating clamp as the specification words it: values below 0
    become 0, values at or above 255 become 255. *)
Definition clamp (x : Z) : Z :=
  if x <? 0 then 0 else if 255 <=? x then 255 else x.

(** The chroma terms in exact integer arithmetic, with an arithmetic
    shift. *)
Definition chroma_r (v : Z) : Z := Z.shiftr (22987 * (v - 128)) 14.
Definition chroma_g (u v : Z) : Z :=
  Z.shiftr (-5636 * (u - 128) - 11698 * (v - 128)) 14.
Definition chroma_b (u : Z) : Z := Z.shiftr (29049 * (u - 128)) 14.

(** The six bytes of the claim for one YUYV group [(y0, u, y1, v)]. *)
Definition yuyv_rgb_exact (y0 u y1 v : Z) : list Z :=
  [ clamp (y0 + chroma_r v); clamp (y0 + chroma_g u v);
    clamp (y0 + chroma_b u);
    clamp (y1 + chroma_r v); clamp (y1 + chroma_g u v);
    clamp (y1 + chroma_b u) ].

(** The values the macros compute, on the machine's [int]. *)
Definition int_r (v : Z) : Z := int_shr (int_mul 22987 (int_sub v 128)) 14.
Definition int_g (u v : Z) : Z :=
  int_shr (int_sub (int_mul (-5636) (int_sub u 128))
                   (int_mul 11698 (int_sub v 128))) 14.
Definition int_b (u : Z) : Z := int_shr (int_mul 29049 (int_sub u 128)) 14.

(** The six bytes a macro stores for the four source bytes [a0 a1 a2 a3],
    in the order it stores them. *)
Definition pix_yuyv2rgb (a0 a1 a2 a3 : Z) : list Z :=
  [ sat (int_add a0 (int_r a3)); sat (int_add a0 (int_g a1 a3));
    sat (int_add a0 (int_b a1));
    sat (int_add a2 (int_r a3)); sat (int_add a2 (int_g a1 a3));
    sat (int_add a2 (int_b a1)) ].
Definition pix_uyvy2rgb (a0 a1 a2 a3 : Z) : list Z :=
  [ sat (int_add a1 (int_r a2)); sat (int_add a1 (int_g a0 a2));
    sat (int_add a1 (int_b a0));
    sat (int_add a3 (int_r a2)); sat (int_add a3 (int_g a0 a2));
    sat (int_add a3 (int_b a0)) ].
Definition pix_uyvy2bgr (a0 a1 a2 a3 : Z) : list Z :=
  [ sat (int_add a1 (int_b a0)); sat (int_add a1 (int_g a0 a2));
    sat (int_add a1 (int_r a2));
    sat (int_add a3 (int_b a0)); sat (int_add a3 (int_g a0 a2));
    sat (int_add a3 (int_r a2)) ].

(** *** Buffers as lists *)

(** Storing the bytes [new] one after the other from index [j] on. *)
Fixpoint write_bytes (j : nat) (new : list Z) (l : list Z) : list Z :=
  match new with
  | [] => l
  | v :: vs => write_bytes (S j) vs (<[j := v]> l)
  end.

(** The byte at offset [i] of a buffer that is long enough. *)
Definition byte_at (l : list Z) (i : Z) : Z := default 0 (l !! Z.to_nat i).

(** The output of [m] consecutive 4-byte groups of [src], from offset [i]
    on, each converted by [pix]. *)
Fixpoint convert_groups (pix : Z -> Z -> Z -> Z -> list Z) (m : nat) (i : Z)
    (src : list Z) : list Z :=
  match m with
  | O => []
  | S m' =>
      pix (byte_at src i) (byte_at src (i + 1)) (byte_at src (i + 2))
          (byte_at src (i + 3))
      ++ convert_groups pix m' (i + 4) src
  end.

(** Every second byte of [src], [m] of them, from offset [i] on. *)
Fixpoint every_second (m : nat) (i : Z) (src : list Z) : list Z :=
  match m with
  | O => []
  | S m' => byte_at src i :: every_second m' (i + 2) src
  end.

(** The number of turns of a loop that advances its write pointer by
    [stride] bytes while it is below [n]. *)
Definition turns (stride n : Z) : Z := (n + stride - 1) / stride.

(** The common shape of the RGB and BGR loops: [body] converts eight pixels
    per turn. *)
Fixpoint block_loop (body : ptr -> ptr -> M unit) (fuel : nat)
    (pyuv prgb prgb_end : ptr) : M unit :=
  match fuel with
  | O => out_of_fuel
  | S fuel' =>
      if ptr_lt prgb prgb_end then
        body pyuv prgb ;;
        block_loop body fuel' (ptr_add pyuv (2 * 8)) (ptr_add prgb (3 * 8))
          prgb_end
      else ret tt
  end.

(** The common shape of the two GRAY8 loops. *)
Fixpoint byte_loop (body : ptr -> ptr -> M unit) (fuel : nat)
    (pyuv py py_end : ptr) : M unit :=
  match fuel with
  | O => out_of_fuel
  | S fuel' =>
      if ptr_lt py py_end then
        body pyuv py ;;
        byte_loop body fuel' (ptr_add pyuv 2) (ptr_add py 1) py_end
      else ret tt
  end.

(** *** Conversion properties *)

(** Every group yields six bytes. *)
Definition six_bytes (pix : Z -> Z -> Z -> Z -> list Z) : Prop :=
  forall a0 a1 a2 a3, length (pix a0 a1 a2 a3) = 6%nat.

(** What it means for [c] to convert [m] groups: it completes exactly when
    the [4 m] source bytes and the [6 m] destination bytes exist, and then
    stores the converted bytes and nothing else. *)
Definition converts (c : ptr -> ptr -> M unit)
    (pix : Z -> Z -> Z -> Z -> list Z) (m : nat) : Prop :=
  forall (Mm : gmap block (list Z)) s bs bd src dst i j,
    bs <> bd -> Mm !! bs = Some src -> Mm !! bd = Some dst ->
    0 <= i -> 0 <= j ->
    c (mk_ptr (Some bs) i) (mk_ptr (Some bd) j) (with_mem Mm s) =
      if (i + 4 * Z.of_nat m <=? Z.of_nat (length src))
         && (j + 6 * Z.of_nat m <=? Z.of_nat (length dst))
      then Done tt
             (with_mem
                (<[bd := write_bytes (Z.to_nat j) (convert_groups pix m i src)
                           dst]> Mm) s)
      else Fault.

(** What it means for [c] to copy the source byte at distance [off] to the
    destination. *)
Definition copies (c : ptr -> ptr -> M unit) (off : Z) : Prop :=
  forall (Mm : gmap block (list Z)) s bs bd src dst i j,
    bs <> bd -> Mm !! bs = Some src -> Mm !! bd = Some dst ->
    0 <= i -> 0 <= j ->
    c (mk_ptr (Some bs) i) (mk_ptr (Some bd) j) (with_mem Mm s) =
      if (i + off + 1 <=? Z.of_nat (length src))
         && (j + 1 <=? Z.of_nat (length dst))
      then Done tt
             (with_mem
                (<[bd := <[Z.to_nat j := byte_at src (i + off)]> dst]> Mm) s)
      else Fault.

(** A kernel called on the source [F] with another frame as destination:
    [uvc_ensure_frame_size] succeeded for [need] bytes and left the state
    [s1], in which the destination is [G1]; the pixel buffers are the two
    distinct live blocks [bs] and [bd], holding [src] and [dst]. *)
Definition sized (s s1 : state) (in_ out : fptr) (F G1 : uvc_frame_t)
    (need : Z) (bs bd : block) (src dst : list Z) : Prop :=
  frames s !! in_ = Some F /\ in_ <> out /\
  uvc_ensure_frame_size out need s = Done UVC_SUCCESS s1 /\
  frames s1 !! out = Some G1 /\
  data F = Some bs /\ data G1 = Some bd /\ bs <> bd /\
  mem s1 !! bs = Some src /\ mem s1 !! bd = Some dst.

(** The outcome of a kernel that ran to its end: success, the destination
    frame is [G'] and its buffer holds [dst']. *)
Definition completed (s1 : state) (out : fptr) (G' : uvc_frame_t)
    (bd : block) (dst' : list Z) : outcome uvc_error_t :=
  Done UVC_SUCCESS
    (mk_state (<[out := G']> (frames s1)) (<[bd := dst']> (mem s1))
       (allocator s1)).

(** The number of positions at which two buffers differ. *)
Definition bytes_changed (old new : list Z) : nat :=
  length (filter (fun p => fst p <> snd p) (zip old new)).

(** *** Lifecycle and capacity *)

(** The frame that [uvc_allocate_frame] builds around the buffer [d] for a
    request of [n] bytes. *)
Definition new_frame (n : Z) (d : option block) : uvc_frame_t :=
  if 0 <? n
  then set_data d (set_data_bytes n (set_library_owns_data true zero_frame))
  else set_library_owns_data true zero_frame.

(** Whether [uvc_free_frame] hands the block [b] to [free] when it releases
    the frame [f] at address [p]. *)
Definition released (ts : fptr -> option block) (p : fptr) (f : uvc_frame_t)
    (b : block) : bool :=
  library_owns_data f &&
  (((0 <? data_bytes f) && bool_decide (data f = Some b))
   || ((0 <? metadata_bytes f) && bool_decide (metadata f = Some b))
   || bool_decide (ts p = Some b)).

(** The frame [f] is honest about its buffer: [data], if not [NULL], is a
    live block of exactly [data_bytes] bytes. *)
Definition capacity_ok (s : state) (f : uvc_frame_t) : Prop :=
  forall b, data f = Some b ->
    exists l, mem s !! b = Some l /\ Z.of_nat (length l) = data_bytes f.

(** *** Kernels as a family *)

(** The six conversion kernels of frame.c with the format they accept, the
    format they produce and the number of bytes per pixel they produce. *)
Definition kernels
  : list ((fptr -> fptr -> M uvc_error_t) * uvc_frame_format
          * uvc_frame_format * Z) :=
  [ (uvc_yuyv2rgb, UVC_FRAME_FORMAT_YUYV, UVC_FRAME_FORMAT_RGB, 3);
    (uvc_yuyv2bgr, UVC_FRAME_FORMAT_YUYV, UVC_FRAME_FORMAT_BGR, 3);
    (uvc_yuyv2y, UVC_FRAME_FORMAT_YUYV, UVC_FRAME_FORMAT_GRAY8, 1);
    (uvc_yuyv2uv, UVC_FRAME_FORMAT_YUYV, UVC_FRAME_FORMAT_GRAY8, 1);
    (uvc_uyvy2rgb, UVC_FRAME_FORMAT_UYVY, UVC_FRAME_FORMAT_RGB, 3);
    (uvc_uyvy2bgr, UVC_FRAME_FORMAT_UYVY, UVC_FRAME_FORMAT_BGR, 3) ].

(** The [step] a kernel announces for [k] bytes per pixel and width [w]. *)
Definition row_bytes (k w : Z) : Z := if k =? 1 then w else u32_mul w 3.

(** A computation that touches neither the frame structures nor the
    allocator. *)
Definition quiet {A} (c : M A) : Prop :=
  forall s a s', c s = Done a s' ->
    frames s' = frames s /\ allocator s' = allocator s.

(** A computation whose loops come to an end in every state. *)
Definition terminates {A} (c : M A) : Prop := forall s, c s <> OutOfFuel.

(** *** Pixels in memory *)

(** The first [m] pixels of a buffer of 3-byte pixels with their first and
    third byte exchanged. *)
Fixpoint swap_rb (m : nat) (l : list Z) : list Z :=
  match m, l with
  | S m', b :: g :: r :: rest => r :: g :: b :: swap_rb m' rest
  | _, _ => l
  end.

(** The six bytes for one UYVY group [(u, y0, v, y1)], in RGB and in BGR
    order. *)
Definition uyvy_rgb_exact (u y0 v y1 : Z) : list Z :=
  [ clamp (y0 + chroma_r v); clamp (y0 + chroma_g u v);
    clamp (y0 + chroma_b u);
    clamp (y1 + chroma_r v); clamp (y1 + chroma_g u v);
    clamp (y1 + chroma_b u) ].
Definition uyvy_bgr_exact (u y0 v y1 : Z) : list Z :=
  [ clamp (y0 + chroma_b u); clamp (y0 + chroma_g u v);
    clamp (y0 + chroma_r v);
    clamp (y1 + chroma_b u); clamp (y1 + chroma_g u v);
    clamp (y1 + chroma_r v) ].

(** ** Sample frames and states *)

Module Samples.

(** What [uvc_allocate_frame (0)] builds: an owning frame without buffer. *)
Definition empty_owner : uvc_frame_t :=
  mk_frame None 0 0 0 UVC_FRAME_FORMAT_UNKNOWN 0 0 (0, 0) (0, 0) 0 true None 0.

(** A caller-provided buffer of 100 bytes wrapped in a borrowed frame. *)
Definition borrowed100 : uvc_frame_t :=
  mk_frame (Some 5%positive) 100 0 0 UVC_FRAME_FORMAT_UNKNOWN 0 0 (0, 0)
    (0, 0) 0 false None 0.

(** A 2x1 BGR frame. *)
Definition bgr21 : uvc_frame_t :=
  mk_frame (Some 1%positive) 6 2 1 UVC_FRAME_FORMAT_BGR 6 3 (10, 20) (30, 40)
    77 false None 0.

(** A frame announcing MJPEG content. *)
Definition mjpeg_frame : uvc_frame_t :=
  mk_frame (Some 1%positive) 6 2 1 UVC_FRAME_FORMAT_MJPEG 0 3 (10, 20)
    (30, 40) 77 false None 0.

(** A 2x1 RGB frame over block 1 with two bytes of metadata in block 3. *)
Definition rgb21 : uvc_frame_t :=
  mk_frame (Some 1%positive) 6 2 1 UVC_FRAME_FORMAT_RGB 6 3 (10, 20) (30, 40)
    77 false (Some 3%positive) 2.

(** Frame 1 is [rgb21], frame 2 an empty owning frame. *)
Definition st_dup : state :=
  mk_state (<[ 1%positive := rgb21 ]> {[ 2%positive := empty_owner ]})
    (<[ 1%positive := [10; 20; 30; 40; 50; 60] ]> {[ 3%positive := [9; 8] ]})
    [].

(** Frame 1 is [empty_owner]; the next allocation request fails. *)
Definition st_alloc_fails : state :=
  mk_state {[ 1%positive := empty_owner ]} ∅ [AllocFail].

(** An owning frame with a buffer of 50 bytes in block 4. *)
Definition owner50 : uvc_frame_t :=
  mk_frame (Some 4%positive) 50 0 0 UVC_FRAME_FORMAT_UNKNOWN 0 0 (0, 0)
    (0, 0) 0 true None 0.

(** Frame 1 is [owner50]; the next allocation request fails. *)
Definition st_grow_fails : state :=
  mk_state {[ 1%positive := owner50 ]} {[ 4%positive := replicate 50 1 ]}
    [AllocFail].

(** Frame 1 is [empty_owner]; the allocator is healthy. *)
Definition st_alloc_ok : state :=
  mk_state {[ 1%positive := empty_owner ]} ∅ [].

(** Frame 2 is [borrowed100] over a block of 100 bytes. *)
Definition st_borrowed : state :=
  mk_state {[ 2%positive := borrowed100 ]}
    {[ 5%positive := replicate 100 7 ]} [].

(** Frame 1 is [bgr21]; there is no frame 2. *)
Definition st_bgr : state :=
  mk_state {[ 1%positive := bgr21 ]} {[ 1%positive := [1; 2; 3; 4; 5; 6] ]} [].

(** Frame 1 is [mjpeg_frame], frame 2 an empty owning frame. *)
Definition st_mjpeg : state :=
  mk_state (<[ 1%positive := mjpeg_frame ]> {[ 2%positive := empty_owner ]})
    {[ 1%positive := [1; 2; 3; 4; 5; 6] ]} [].

(** Four achromatic pixels (Y = 235, U = V = 128) as a 4x1 YUYV frame of
    8 bytes. *)
Definition gray41 : uvc_frame_t :=
  mk_frame (Some 1%positive) 8 4 1 UVC_FRAME_FORMAT_YUYV 8 0 (0, 0) (0, 0) 0
    false None 0.

(** Frame 1 is [gray41] over its 8 bytes, frame 2 an empty owning frame; the
    allocator is healthy. *)
Definition st_gray41 : state :=
  mk_state (<[ 1%positive := gray41 ]> {[ 2%positive := empty_owner ]})
    {[ 1%positive := [235; 128; 235; 128; 235; 128; 235; 128] ]} [].

(** Eight achromatic pixels as an 8x1 YUYV frame of 16 bytes. *)
Definition gray81 : uvc_frame_t :=
  mk_frame (Some 1%positive) 16 8 1 UVC_FRAME_FORMAT_YUYV 16 0 (0, 0) (0, 0)
    0 false None 0.

Definition gray16 : list Z :=
  [235; 128; 235; 128; 235; 128; 235; 128;
   235; 128; 235; 128; 235; 128; 235; 128].

(** Frame 1 is [gray81], frame 2 an empty owning frame. *)
Definition st_gray81 : state :=
  mk_state (<[ 1%positive := gray81 ]> {[ 2%positive := empty_owner ]})
    {[ 1%positive := gray16 ]} [].

(** A 4x1 YUYV frame whose transport buffer holds 16 bytes. *)
Definition gray41_wide : uvc_frame_t :=
  mk_frame (Some 1%positive) 16 4 1 UVC_FRAME_FORMAT_YUYV 8 0 (0, 0) (0, 0) 0
    false None 0.

(** A borrowed destination that announces 12 bytes of a caller's buffer. *)
Definition borrowed12 : uvc_frame_t :=
  mk_frame (Some 2%positive) 12 0 0 UVC_FRAME_FORMAT_UNKNOWN 0 0 (0, 0)
    (0, 0) 0 false None 0.

(** Frame 1 is [gray41_wide]; frame 2 is [borrowed12], whose 12 bytes are
    the beginning of a zeroed buffer of 24 bytes. *)
Definition st_over : state :=
  mk_state (<[ 1%positive := gray41_wide ]> {[ 2%positive := borrowed12 ]})
    (<[ 1%positive := gray16 ]> {[ 2%positive := replicate 24 0 ]}) [].

(** Eight pixels at the extremes Y = 255, U = 255, V = 0 as an 8x1 YUYV
    frame. *)
Definition extreme16 : list Z :=
  [255; 255; 255; 0; 255; 255; 255; 0; 255; 255; 255; 0; 255; 255; 255; 0].

(** Frame 1 is [gray81] over [extreme16], frame 2 an empty owning frame. *)
Definition st_extreme81 : state :=
  mk_state (<[ 1%positive := gray81 ]> {[ 2%positive := empty_owner ]})
    {[ 1%positive := extreme16 ]} [].

(** A stand-in for the JPEG decoder: it reports success and does nothing. *)
Definition mjpeg_stub (in_ out : fptr) : M uvc_error_t := ret UVC_SUCCESS.

End Samples.
Export Samples.

(** Further scenes for the frame lifecycle and the UYVY kernels. *)
Module Scenes.

(** No frame has a timestamp allocation attached. *)
Definition no_time_stamp (p : fptr) : option block := None.

(** Frame 1 is [owner50] over its 50 bytes; the allocator is healthy. *)
Definition st_owner50 : state :=
  mk_state {[ 1%positive := owner50 ]} {[ 4%positive := replicate 50 1 ]} [].

(** Eight pixels at the extremes U = 255, Y = 255, V = 0 as an 8x1 UYVY
    frame of 16 bytes. *)
Definition uyvy81 : uvc_frame_t :=
  mk_frame (Some 1%positive) 16 8 1 UVC_FRAME_FORMAT_UYVY 16 0 (0, 0) (0, 0)
    0 false None 0.

Definition uyvy16 : list Z :=
  [255; 255; 0; 255; 255; 255; 0; 255; 255; 255; 0; 255; 255; 255; 0; 255].

(** Frame 1 is [uyvy81] over [uyvy16], frame 2 an empty owning frame. *)
Definition st_uyvy81 : state :=
  mk_state (<[ 1%positive := uyvy81 ]> {[ 2%positive := empty_owner ]})
    {[ 1%positive := uyvy16 ]} [].


(** Frame 1 is [gray81] over [gray16]; there is no other frame. *)
Definition st_source81 : state :=
  mk_state {[ 1%positive := gray81 ]} {[ 1%positive := gray16 ]} [].

End Scenes.
Export Scenes.

(** * Verification *)

(** ** Running the primitives *)

Lemma bind_Done {A B} (c : M A) (k : A -> M B) s a s' :
  c s = Done a s' -> bind c k s = k a s'.
Proof. unfold bind. intros ->. reflexivity. Qed.

Lemma bind_Fault {A B} (c : M A) (k : A -> M B) s :
  c s = Fault -> bind c k s = Fault.
Proof. unfold bind. intros ->. reflexivity. Qed.

Lemma bind_inv {A B} (c : M A) (k : A -> M B) s b s' :
  bind c k s = Done b s' ->
  exists a s1, c s = Done a s1 /\ k a s1 = Done b s'.
Proof.
  unfold bind. destruct (c s) as [a s1| |]; [eauto | discriminate..].
Qed.

Lemma get_frame_Done p s f :
  frames s !! p = Some f -> get_frame p s = Done f s.
Proof. unfold get_frame. intros ->. reflexivity. Qed.

Lemma get_frame_inv p s f s' :
  get_frame p s = Done f s' -> s' = s /\ frames s !! p = Some f.
Proof.
  unfold get_frame. destruct (frames s !! p); [|discriminate].
  intros [= -> ->]. auto.
Qed.

Lemma field_Done {A} (proj : uvc_frame_t -> A) p s f :
  frames s !! p = Some f -> field p proj s = Done (proj f) s.
Proof. intros H. unfold field. rewrite (bind_Done _ _ _ _ _ (get_frame_Done _ _ _ H)). reflexivity. Qed.

Lemma set_frame_Done p upd s f :
  frames s !! p = Some f ->
  set_frame p upd s = Done tt (with_frames (<[p := upd f]> (frames s)) s).
Proof. unfold set_frame. intros ->. reflexivity. Qed.

Lemma pixel_bytes_Done p k s f :
  frames s !! p = Some f ->
  pixel_bytes p k s = Done (u32_mul (u32_mul (width f) (height f)) k) s.
Proof.
  intros H. unfold pixel_bytes.
  rewrite (bind_Done _ _ _ _ _ (field_Done width _ _ _ H)).
  rewrite (bind_Done _ _ _ _ _ (field_Done height _ _ _ H)).
  reflexivity.
Qed.

(** ** The buffer allocator *)

Lemma ensure_borrowed_too_small s frame g need :
  frames s !! frame = Some g ->
  library_owns_data g = false ->
  data_bytes g < need ->
  uvc_ensure_frame_size frame need s = Done UVC_ERROR_NO_MEM s.
Proof.
  intros Hg Hb Hlt. unfold uvc_ensure_frame_size.
  rewrite (bind_Done _ _ _ _ _ (get_frame_Done _ _ _ Hg)), Hb.
  assert ((data_bytes g <? need) = true) as -> by lia.
  rewrite orb_true_r. reflexivity.
Qed.

(** [realloc] never touches a frame structure. *)
Lemma realloc_frames p n s q s' :
  realloc p n s = Done q s' -> frames s' = frames s.
Proof.
  unfold realloc, next_choice.
  destruct (allocator s) as [|c cs]; simpl; destruct p as [b|]; simpl;
    repeat (match goal with
            | |- context [match ?x with _ => _ end] => destruct x
            end; simpl);
    intros [= <- <-]; reflexivity || discriminate.
Qed.

(** The owning branch when nothing has to change. *)
Lemma ensure_owning_fits s frame g b need :
  frames s !! frame = Some g ->
  library_owns_data g = true ->
  data g = Some b ->
  data_bytes g = need ->
  uvc_ensure_frame_size frame need s = Done UVC_SUCCESS s.
Proof.
  intros Hg Hown Hd Hn. unfold uvc_ensure_frame_size.
  rewrite (bind_Done _ _ _ _ _ (get_frame_Done _ _ _ Hg)), Hown, Hd.
  assert ((data_bytes g =? need) = true) as -> by lia. simpl.
  unfold bind at 1. unfold ret at 1.
  rewrite (bind_Done _ _ _ _ _ (get_frame_Done _ _ _ Hg)), Hd.
  reflexivity.
Qed.

(** The owning branch when the buffer is absent or has another size: the
    size is recorded first, then the buffer is reallocated and whatever
    [realloc] returned is stored. *)
Lemma ensure_owning_resizes s frame g need :
  frames s !! frame = Some g ->
  library_owns_data g = true ->
  data g = None \/ data_bytes g <> need ->
  uvc_ensure_frame_size frame need s =
    match realloc (data g) need
            (with_frames (<[frame := set_data_bytes need g]> (frames s)) s)
    with
    | Done p s1 =>
        Done (if is_null p then UVC_ERROR_NO_MEM else UVC_SUCCESS)
          (with_frames
             (<[frame := set_data p (set_data_bytes need g)]> (frames s1)) s1)
    | Fault => Fault
    | OutOfFuel => OutOfFuel
    end.
Proof.
  intros Hg Hown Hc. unfold uvc_ensure_frame_size.
  rewrite (bind_Done _ _ _ _ _ (get_frame_Done _ _ _ Hg)), Hown.
  assert (is_null (data g) || negb (data_bytes g =? need) = true) as ->.
  { destruct Hc as [-> | Hne]; [reflexivity|].
    apply orb_true_iff. right. apply negb_true_iff. lia. }
  set (s0 := with_frames (<[frame := set_data_bytes need g]> (frames s)) s).
  assert (frames s0 !! frame = Some (set_data_bytes need g)) as Hg0
    by (subst s0; simpl; apply lookup_insert_eq).
  unfold bind at 1.
  rewrite (bind_Done _ _ _ _ _ (set_frame_Done _ _ _ _ Hg)). fold s0.
  rewrite (bind_Done _ _ _ _ _ (get_frame_Done _ _ _ Hg0)). simpl.
  unfold bind at 1.
  destruct (realloc (data g) need s0) as [p s1| |] eqn:Hre; [|done..].
  pose proof (realloc_frames _ _ _ _ _ Hre) as Hfr.
  assert (frames s1 !! frame = Some (set_data_bytes need g)) as Hg1
    by (rewrite Hfr; exact Hg0).
  rewrite (set_frame_Done _ _ _ _ Hg1).
  unfold bind, get_frame. simpl. rewrite lookup_insert_eq. simpl.
  destruct p; reflexivity.
Qed.

(** After a successful call the frame has a buffer, an owning frame records
    exactly the requested size and a borrowed one is as it was. *)
Lemma ensure_success_inv s frame need s' :
  uvc_ensure_frame_size frame need s = Done UVC_SUCCESS s' ->
  exists g g', frames s !! frame = Some g /\ frames s' !! frame = Some g' /\
    library_owns_data g' = library_owns_data g /\ data g' <> None /\
    (library_owns_data g = true -> data_bytes g' = need) /\
    (library_owns_data g = false -> need <= data_bytes g' /\ s' = s).
Proof.
  intros H.
  destruct (frames s !! frame) as [g|] eqn:Hg; cycle 1.
  { unfold uvc_ensure_frame_size, bind, get_frame in H.
    rewrite Hg in H. discriminate. }
  exists g. destruct (library_owns_data g) eqn:Hown.
  - destruct (data g) as [b|] eqn:Hd.
    + destruct (decide (data_bytes g = need)) as [Hn|Hn].
      * rewrite (ensure_owning_fits _ _ _ _ _ Hg Hown Hd Hn) in H.
        injection H as <-. exists g. rewrite Hd. repeat split; try done.
      * rewrite (ensure_owning_resizes _ _ _ _ Hg Hown (or_intror Hn)) in H.
        destruct (realloc _ _ _) as [p s1| |]; [|discriminate..].
        destruct p as [b'|]; simpl in H; [|discriminate].
        injection H as <-. eexists. simpl. rewrite lookup_insert_eq.
        repeat split; try done.
    + rewrite (ensure_owning_resizes _ _ _ _ Hg Hown (or_introl Hd)) in H.
      destruct (realloc _ _ _) as [p s1| |]; [|discriminate..].
      destruct p as [b'|]; simpl in H; [|discriminate].
      injection H as <-. eexists. simpl. rewrite lookup_insert_eq.
      repeat split; try done.
  - unfold uvc_ensure_frame_size in H.
    rewrite (bind_Done _ _ _ _ _ (get_frame_Done _ _ _ Hg)), Hown in H.
    destruct (is_null (data g) || (data_bytes g <? need)) eqn:Hc;
      unfold ret in H; [discriminate|]. injection H as <-.
    apply orb_false_elim in Hc as [Hnull Hlt].
    exists g. repeat split; try done.
    + destruct (data g); [done|discriminate].
    + lia.
Qed.

(** C2.  An owning frame without buffer (as [uvc_allocate_frame (0)] makes
    it) is asked for 100 bytes while the allocator is exhausted:
    [uvc_ensure_frame_size] reports [UVC_ERROR_NO_MEM], and the frame is
    left with [data_bytes = 100] although its [data] is still [NULL]; the
    size was updated, the pointer was not.  An owning frame with 50 bytes
    in the same situation is left with [data = NULL] and
    [data_bytes = 100], while its 50 bytes stay allocated. *)
Theorem ensure_frame_size_failure_desynchronises :
  uvc_ensure_frame_size 1 100 st_alloc_fails =
    Done UVC_ERROR_NO_MEM
      (mk_state {[ 1%positive := set_data_bytes 100 empty_owner ]} ∅ [])
  /\ data (set_data_bytes 100 empty_owner) = data empty_owner
  /\ data (set_data_bytes 100 empty_owner) = None
  /\ data_bytes (set_data_bytes 100 empty_owner) = 100
  /\ data_bytes empty_owner = 0
  /\ uvc_ensure_frame_size 1 100 st_grow_fails =
       Done UVC_ERROR_NO_MEM
         (mk_state
            {[ 1%positive := set_data None (set_data_bytes 100 owner50) ]}
            {[ 4%positive := replicate 50 1 ]} []).
Proof. vm_compute. repeat split; reflexivity. Qed.

(** C3.  A borrowed frame whose [data_bytes] is below the request is never
    grown: [uvc_ensure_frame_size] answers [UVC_ERROR_NO_MEM] and the whole
    state (every frame, every buffer, the allocator) is as before; so does
    every conversion and the duplication that request that capacity for
    it. *)
Theorem borrowed_frame_never_grown s out g :
  frames s !! out = Some g ->
  library_owns_data g = false ->
  (forall need, data_bytes g < need ->
     uvc_ensure_frame_size out need s = Done UVC_ERROR_NO_MEM s)
  /\ (forall in_ f, frames s !! in_ = Some f ->
       (frame_format f = UVC_FRAME_FORMAT_YUYV ->
        data_bytes g < u32_mul (u32_mul (width f) (height f)) 3 ->
        uvc_yuyv2rgb in_ out s = Done UVC_ERROR_NO_MEM s /\
        uvc_yuyv2bgr in_ out s = Done UVC_ERROR_NO_MEM s)
       /\ (frame_format f = UVC_FRAME_FORMAT_YUYV ->
           data_bytes g < u32_mul (u32_mul (width f) (height f)) 1 ->
           uvc_yuyv2y in_ out s = Done UVC_ERROR_NO_MEM s /\
           uvc_yuyv2uv in_ out s = Done UVC_ERROR_NO_MEM s)
       /\ (frame_format f = UVC_FRAME_FORMAT_UYVY ->
           data_bytes g < u32_mul (u32_mul (width f) (height f)) 3 ->
           uvc_uyvy2rgb in_ out s = Done UVC_ERROR_NO_MEM s /\
           uvc_uyvy2bgr in_ out s = Done UVC_ERROR_NO_MEM s)
       /\ (data_bytes g < data_bytes f ->
           uvc_duplicate_frame in_ out s = Done UVC_ERROR_NO_MEM s)).
Proof.
  intros Hg Hb.
  assert (forall need, data_bytes g < need ->
            uvc_ensure_frame_size out need s = Done UVC_ERROR_NO_MEM s) as He
    by (intros; eapply ensure_borrowed_too_small; eauto).
  split; [exact He|]. intros in_ f Hf.
  repeat split; intros; 
    try match goal with H : frame_format f = _ |- _ => rename H into Hfmt end.
  all: match goal with
       | |- ?k _ _ _ = _ => unfold k
       end.
  all: try (rewrite (bind_Done _ _ _ _ _ (field_Done frame_format _ _ _ Hf)),
              Hfmt; simpl;
            rewrite (bind_Done _ _ _ _ _ (pixel_bytes_Done _ _ _ _ Hf))).
  all: try rewrite (bind_Done _ _ _ _ _ (field_Done data_bytes _ _ _ Hf)).
  all: rewrite (bind_Done _ _ _ _ _ (He _ ltac:(eassumption))); reflexivity.
Qed.

Lemma borrowed_frame_never_grown_witness :
  frames st_borrowed !! 2%positive = Some borrowed100 /\
  library_owns_data borrowed100 = false /\
  data_bytes borrowed100 < 101 /\
  uvc_ensure_frame_size 2 101 st_borrowed = Done UVC_ERROR_NO_MEM st_borrowed.
Proof.
  split; [reflexivity|]. split; [reflexivity|]. split; [reflexivity|].
  apply (borrowed_frame_never_grown st_borrowed 2 borrowed100);
    reflexivity.
Defined.

(** C7.  A kernel called on a source of another format answers
    [UVC_ERROR_INVALID_PARAM] (the specification's InvalidFormat) and leaves
    the whole state as it was: no field is written and the allocator is not
    consulted.  The destination pointer is not even dereferenced: the result
    holds for any [out], also one that designates no frame. *)
Theorem kernels_reject_wrong_format s in_ out f :
  frames s !! in_ = Some f ->
  (frame_format f <> UVC_FRAME_FORMAT_YUYV ->
     uvc_yuyv2rgb in_ out s = Done UVC_ERROR_INVALID_PARAM s /\
     uvc_yuyv2bgr in_ out s = Done UVC_ERROR_INVALID_PARAM s /\
     uvc_yuyv2y in_ out s = Done UVC_ERROR_INVALID_PARAM s /\
     uvc_yuyv2uv in_ out s = Done UVC_ERROR_INVALID_PARAM s)
  /\ (frame_format f <> UVC_FRAME_FORMAT_UYVY ->
       uvc_uyvy2rgb in_ out s = Done UVC_ERROR_INVALID_PARAM s /\
       uvc_uyvy2bgr in_ out s = Done UVC_ERROR_INVALID_PARAM s).
Proof.
  intros Hf. split; intros Hne; repeat split.
  all: match goal with |- ?k _ _ _ = _ => unfold k end.
  all: rewrite (bind_Done _ _ _ _ _ (field_Done frame_format _ _ _ Hf)).
  all: rewrite bool_decide_eq_false_2 by exact Hne; reflexivity.
Qed.

Lemma kernels_reject_wrong_format_witness :
  frames st_bgr !! 1%positive = Some bgr21 /\
  frame_format bgr21 <> UVC_FRAME_FORMAT_YUYV /\
  uvc_yuyv2rgb 1 2 st_bgr = Done UVC_ERROR_INVALID_PARAM st_bgr.
Proof.
  split; [reflexivity|]. split; [discriminate|].
  assert (frames st_bgr !! 1%positive = Some bgr21) as Hf by reflexivity.
  destruct (kernels_reject_wrong_format st_bgr 1 2 bgr21 Hf) as [H _].
  apply H. discriminate.
Defined.

(** C8.  On an owning frame a second [uvc_ensure_frame_size] with the same
    size succeeds and changes nothing: the frame keeps the [data] pointer
    and the [data_bytes] of the first call, no block is touched and the
    allocator is not asked again. *)
Theorem ensure_frame_size_idempotent s frame g need s1 :
  frames s !! frame = Some g ->
  library_owns_data g = true ->
  uvc_ensure_frame_size frame need s = Done UVC_SUCCESS s1 ->
  uvc_ensure_frame_size frame need s1 = Done UVC_SUCCESS s1.
Proof.
  intros Hg Hown H.
  apply ensure_success_inv in H as (g0 & g' & Hg0 & Hg' & Ho & Hd & Hn & _).
  rewrite Hg in Hg0. injection Hg0 as <-.
  destruct (data g') as [b|] eqn:Hb; [|done].
  eapply ensure_owning_fits; eauto; congruence.
Qed.

Lemma ensure_frame_size_idempotent_witness :
  exists s1,
    frames st_alloc_ok !! 1%positive = Some empty_owner /\
    library_owns_data empty_owner = true /\
    uvc_ensure_frame_size 1 12 st_alloc_ok = Done UVC_SUCCESS s1 /\
    uvc_ensure_frame_size 1 12 s1 = Done UVC_SUCCESS s1.
Proof.
  eexists. split; [reflexivity|]. split; [reflexivity|].
  assert (forall s1, uvc_ensure_frame_size 1 12 st_alloc_ok = Done UVC_SUCCESS s1 ->
            uvc_ensure_frame_size 1 12 st_alloc_ok = Done UVC_SUCCESS s1 /\
            uvc_ensure_frame_size 1 12 s1 = Done UVC_SUCCESS s1) as K.
  { intros s1 H. split; [exact H|].
    apply (ensure_frame_size_idempotent st_alloc_ok 1 empty_owner 12 s1);
      [reflexivity | reflexivity | exact H]. }
  apply K. vm_compute. reflexivity.
Defined.

(** ** The routers *)

(** C5, as stated, fails: with the JPEG decoder linked in, [uvc_any2rgb]
    hands an MJPEG frame to it, but [uvc_any2bgr] has no MJPEG case at all
    and still answers [UVC_ERROR_NOT_SUPPORTED]. *)
Lemma any2bgr_mjpeg_still_unsupported :
  uvc_any2rgb true mjpeg_stub 1 2 st_mjpeg = Done UVC_SUCCESS st_mjpeg /\
  uvc_any2bgr 1 2 st_mjpeg = Done UVC_ERROR_NOT_SUPPORTED st_mjpeg.
Proof. split; vm_compute; reflexivity. Qed.

(** C5, amended.  Both routers look at [frame_format] only.  YUYV and UYVY
    go to the kernel of the router's target, the target format itself goes
    to [uvc_duplicate_frame], MJPEG goes to [uvc_mjpeg2rgb] in [uvc_any2rgb]
    when [LIBUVC_HAS_JPEG] is defined and is [UVC_ERROR_NOT_SUPPORTED]
    otherwise and always in [uvc_any2bgr]; every other format is
    [UVC_ERROR_NOT_SUPPORTED] with the state untouched. *)
Theorem routers_dispatch_on_format
    (has_jpeg : bool) (mjpeg2rgb : fptr -> fptr -> M uvc_error_t)
    s in_ out f :
  frames s !! in_ = Some f ->
  (frame_format f = UVC_FRAME_FORMAT_YUYV ->
     uvc_any2rgb has_jpeg mjpeg2rgb in_ out s = uvc_yuyv2rgb in_ out s /\
     uvc_any2bgr in_ out s = uvc_yuyv2bgr in_ out s)
  /\ (frame_format f = UVC_FRAME_FORMAT_UYVY ->
       uvc_any2rgb has_jpeg mjpeg2rgb in_ out s = uvc_uyvy2rgb in_ out s /\
       uvc_any2bgr in_ out s = uvc_uyvy2bgr in_ out s)
  /\ (frame_format f = UVC_FRAME_FORMAT_RGB ->
       uvc_any2rgb has_jpeg mjpeg2rgb in_ out s =
         uvc_duplicate_frame in_ out s)
  /\ (frame_format f = UVC_FRAME_FORMAT_BGR ->
       uvc_any2bgr in_ out s = uvc_duplicate_frame in_ out s)
  /\ (frame_format f = UVC_FRAME_FORMAT_MJPEG ->
       uvc_any2rgb true mjpeg2rgb in_ out s = mjpeg2rgb in_ out s /\
       uvc_any2rgb false mjpeg2rgb in_ out s =
         Done UVC_ERROR_NOT_SUPPORTED s /\
       uvc_any2bgr in_ out s = Done UVC_ERROR_NOT_SUPPORTED s)
  /\ (frame_format f <> UVC_FRAME_FORMAT_YUYV ->
      frame_format f <> UVC_FRAME_FORMAT_UYVY ->
      frame_format f <> UVC_FRAME_FORMAT_RGB ->
      frame_format f <> UVC_FRAME_FORMAT_MJPEG ->
      uvc_any2rgb has_jpeg mjpeg2rgb in_ out s =
        Done UVC_ERROR_NOT_SUPPORTED s)
  /\ (frame_format f <> UVC_FRAME_FORMAT_YUYV ->
      frame_format f <> UVC_FRAME_FORMAT_UYVY ->
      frame_format f <> UVC_FRAME_FORMAT_BGR ->
      uvc_any2bgr in_ out s = Done UVC_ERROR_NOT_SUPPORTED s).
Proof.
  intros Hf. unfold uvc_any2rgb, uvc_any2bgr.
  rewrite !(bind_Done _ _ _ _ _ (field_Done frame_format _ _ _ Hf)).
  repeat split; intros;
    try match goal with H : frame_format f = _ |- _ => rewrite H end;
    try reflexivity.
  all: destruct (frame_format f); try reflexivity; congruence.
Qed.

Lemma routers_dispatch_on_format_witness :
  frames st_mjpeg !! 1%positive = Some mjpeg_frame /\
  uvc_any2rgb false mjpeg_stub 1 2 st_mjpeg =
    Done UVC_ERROR_NOT_SUPPORTED st_mjpeg.
Proof.
  assert (frames st_mjpeg !! 1%positive = Some mjpeg_frame) as Hf
    by reflexivity.
  split; [exact Hf|].
  destruct (routers_dispatch_on_format false mjpeg_stub st_mjpeg 1 2
              mjpeg_frame Hf) as (_ & _ & _ & _ & H & _).
  apply H. reflexivity.
Defined.

(** ** Field assignments *)

Lemma with_frames_id s : with_frames (frames s) s = s.
Proof. destruct s; reflexivity. Qed.

Lemma assign_field_run {A} in_ out (setter : A -> uvc_frame_t -> uvc_frame_t)
    (proj : uvc_frame_t -> A) (Fm : gmap fptr uvc_frame_t) s fi fo :
  Fm !! in_ = Some fi -> Fm !! out = Some fo ->
  assign out setter (field in_ proj) (with_frames Fm s) =
    Done tt (with_frames (<[out := setter (proj fi) fo]> Fm) s).
Proof.
  intros Hi Ho. unfold assign.
  rewrite (bind_Done _ _ (with_frames Fm s) (proj fi) (with_frames Fm s))
    by (apply field_Done; exact Hi).
  unfold set_frame. simpl. rewrite Ho. reflexivity.
Qed.

Lemma assign_ret_run {A} out (setter : A -> uvc_frame_t -> uvc_frame_t)
    (v : A) (Fm : gmap fptr uvc_frame_t) s fo :
  Fm !! out = Some fo ->
  assign out setter (ret v) (with_frames Fm s) =
    Done tt (with_frames (<[out := setter v fo]> Fm) s).
Proof.
  intros Ho. unfold assign, bind, ret, set_frame. simpl. rewrite Ho.
  reflexivity.
Qed.

(** The lookups that arise while a destination is filled in. *)
Ltac frame_lookup :=
  first [ eassumption
        | apply lookup_insert_eq
        | rewrite lookup_insert_ne by congruence; frame_lookup ].

(** Run the assignment at the head of the computation. *)
Ltac run_assign :=
  first
    [ erewrite (bind_Done (assign _ _ (field _ _)));
      [| apply assign_field_run; frame_lookup ]
    | erewrite (bind_Done (assign _ _ (ret _)));
      [| apply assign_ret_run; frame_lookup ] ];
  rewrite ?insert_insert_eq.

(** The eight assignments of [uvc_duplicate_frame] followed by [k]. *)
Lemma duplicate_assignments_run {B} in_ out s fi fo (k : M B) :
  frames s !! in_ = Some fi -> frames s !! out = Some fo ->
  (assign out set_width (field in_ width) ;;
   assign out set_height (field in_ height) ;;
   assign out set_frame_format (field in_ frame_format) ;;
   assign out set_step (field in_ step) ;;
   assign out set_sequence (field in_ sequence) ;;
   assign out set_capture_time (field in_ capture_time) ;;
   assign out set_capture_time_finished (field in_ capture_time_finished) ;;
   assign out set_source (field in_ source) ;;
   k) s
  = k (with_frames (<[out := copy_geometry fi fo]> (frames s)) s).
Proof.
  intros Hi Ho. rewrite <- (with_frames_id s) at 1.
  destruct (decide (in_ = out)) as [->|Hne].
  - rewrite Hi in Ho. injection Ho as ->.
    do 8 run_assign. destruct fo; reflexivity.
  - do 8 run_assign. reflexivity.
Qed.

(** ** Blocks under [realloc] and [memcpy] *)

Lemma fresh_block_dead s : mem s !! fresh_block s = None.
Proof. apply not_elem_of_dom. unfold fresh_block. apply is_fresh. Qed.

Lemma realloc_inv p n s q s' :
  realloc p n s = Done q s' ->
  frames s' = frames s /\
  (forall b, is_Some (mem s !! b) -> p <> Some b ->
     mem s' !! b = mem s !! b) /\
  (forall b, q = Some b ->
     (p = Some b \/ mem s !! b = None) /\
     exists l, mem s' !! b = Some l /\ length l = Z.to_nat n).
Proof.
  intros H. split; [eapply realloc_frames; eauto|].
  revert H. unfold realloc, next_choice.
  assert (forall l : list Z, length (resize n l) = Z.to_nat n) as Hlen.
  { intros l. unfold resize. rewrite length_app, length_take, length_replicate.
    lia. }
  pose proof (fresh_block_dead s) as Hfr. unfold fresh_block in *.
  destruct (allocator s) as [|c cs]; simpl; destruct p as [b0|]; simpl.
  all: try (destruct (mem s !! b0) as [l0|] eqn:Hb0; [|discriminate]).
  all: try destruct c; try destruct (n =? 0); simpl.
  all: intros [= <- <-]; simpl.
  all: split; [intros b [l Hl] Hne | intros b [= <-]].
  all: rewrite ?lookup_insert_eq; try done.
  all: try (rewrite lookup_insert_ne by congruence).
  all: try (rewrite lookup_delete_ne by congruence).
  all: try done.
  all: try (split; [auto | eexists; split; [reflexivity | apply Hlen]]).
Qed.

Lemma memcpy_inv dst src n s s' :
  memcpy dst src n s = Done tt s' ->
  (n <= 0 /\ s' = s) \/
  (0 < n /\ exists bs bd ls ld,
     src = Some bs /\ dst = Some bd /\
     mem s !! bs = Some ls /\ mem s !! bd = Some ld /\
     n <= Z.of_nat (length ls) /\ n <= Z.of_nat (length ld) /\
     s' = with_mem
            (<[bd := take (Z.to_nat n) ls ++ drop (Z.to_nat n) ld]> (mem s))
            s).
Proof.
  unfold memcpy. destruct (n <=? 0) eqn:Hn.
  - intros [= <-]. left. split; [lia | reflexivity].
  - destruct src as [bs|], dst as [bd|]; try discriminate.
    destruct (mem s !! bs) as [ls|] eqn:Hs; [|discriminate].
    destruct (mem s !! bd) as [ld|] eqn:Hd; [|discriminate].
    destruct ((n <=? Z.of_nat (length ls)) && (n <=? Z.of_nat (length ld)))
      eqn:Hb; [|discriminate].
    apply andb_true_iff in Hb as [H1 H2].
    intros [= <-]. right. split; [lia|].
    exists bs, bd, ls, ld. repeat split; try done; lia.
Qed.

Lemma memcpy_frames dst src n s s' :
  memcpy dst src n s = Done tt s' -> frames s' = frames s.
Proof.
  intros H. apply memcpy_inv in H as [[_ ->] | (_ & bs & bd & ls & ld & H)];
    [reflexivity|].
  destruct H as (_ & _ & _ & _ & _ & _ & ->). reflexivity.
Qed.

Lemma memcpy_other dst src n s s' b :
  memcpy dst src n s = Done tt s' -> dst <> Some b ->
  mem s' !! b = mem s !! b.
Proof.
  intros H Hne.
  apply memcpy_inv in H as [[_ ->] | (_ & bs & bd & ls & ld & H)];
    [reflexivity|].
  destruct H as (_ & -> & _ & _ & _ & _ & ->). simpl.
  apply lookup_insert_ne. congruence.
Qed.

Lemma buffer_block s s' p b n :
  p = Some b -> mem s' !! b = mem s !! b -> buffer s' p n = buffer s p n.
Proof. intros -> H. unfold buffer. rewrite H. reflexivity. Qed.

(** After a copy both regions hold the bytes the source held before. *)
Lemma memcpy_copied dst src n s s' :
  memcpy dst src n s = Done tt s' ->
  exists bytes, buffer s src n = Some bytes /\
                buffer s' src n = Some bytes /\
                buffer s' dst n = Some bytes.
Proof.
  intros H.
  apply memcpy_inv in H as [[Hn ->] | (Hn & bs & bd & ls & ld & H)].
  - exists []. unfold buffer.
    assert ((n <=? 0) = true) as -> by lia. done.
  - destruct H as (-> & -> & Hs & Hd & Hls & Hld & ->).
    exists (take (Z.to_nat n) ls). unfold buffer. simpl.
    assert ((n <=? 0) = false) as -> by lia.
    rewrite Hs. assert ((n <=? Z.of_nat (length ls)) = true) as -> by lia.
    split; [reflexivity|].
    assert (length (take (Z.to_nat n) ls ++ drop (Z.to_nat n) ld)
            = length ld) as Hlen.
    { rewrite length_app, length_take, length_drop. lia. }
    rewrite lookup_insert_eq, Hlen.
    assert ((n <=? Z.of_nat (length ld)) = true) as -> by lia.
    assert (take (Z.to_nat n) (take (Z.to_nat n) ls ++ drop (Z.to_nat n) ld)
            = take (Z.to_nat n) ls) as Htk.
    { rewrite take_app_le by (rewrite length_take; lia).
      rewrite take_take. f_equal. lia. }
    rewrite Htk. split; [|reflexivity].
    destruct (decide (bd = bs)) as [->|Hne].
    + rewrite lookup_insert_eq, Hlen, Htk.
      assert ((n <=? Z.of_nat (length ld)) = true) as -> by lia. reflexivity.
    + rewrite lookup_insert_ne by done. rewrite Hs.
      assert ((n <=? Z.of_nat (length ls)) = true) as -> by lia. reflexivity.
Qed.

(** What [uvc_ensure_frame_size] can do to a state, whatever it returns:
    only [data] and [data_bytes] of the frame change, and only the block
    behind its old [data] pointer can be resized or released. *)
Lemma ensure_inv frame need s e s1 g :
  uvc_ensure_frame_size frame need s = Done e s1 ->
  frames s !! frame = Some g ->
  exists g1,
    frames s1 = <[frame := g1]> (frames s) /\
    g1 = set_data (data g1) (set_data_bytes (data_bytes g1) g) /\
    (forall b, is_Some (mem s !! b) -> data g <> Some b ->
       mem s1 !! b = mem s !! b) /\
    (forall b, data g1 = Some b -> data g = Some b \/ mem s !! b = None) /\
    (e = UVC_SUCCESS \/ e = UVC_ERROR_NO_MEM) /\
    (e = UVC_SUCCESS ->
       data g1 <> None /\
       (library_owns_data g = true -> data_bytes g1 = need) /\
       (library_owns_data g = false -> s1 = s)).
Proof.
  intros H Hg.
  assert (g = set_data (data g) (set_data_bytes (data_bytes g) g)) as Heta
    by (destruct g; reflexivity).
  assert (forall p s2,
            library_owns_data g = true ->
            realloc (data g) need
              (with_frames (<[frame := set_data_bytes need g]> (frames s)) s)
              = Done p s2 ->
            e = (if is_null p then UVC_ERROR_NO_MEM else UVC_SUCCESS) ->
            s1 = with_frames
                   (<[frame := set_data p (set_data_bytes need g)]>
                      (frames s2)) s2 ->
            exists g1,
              frames s1 = <[frame := g1]> (frames s) /\
              g1 = set_data (data g1) (set_data_bytes (data_bytes g1) g) /\
              (forall b, is_Some (mem s !! b) -> data g <> Some b ->
                 mem s1 !! b = mem s !! b) /\
              (forall b, data g1 = Some b ->
                 data g = Some b \/ mem s !! b = None) /\
              (e = UVC_SUCCESS \/ e = UVC_ERROR_NO_MEM) /\
              (e = UVC_SUCCESS ->
                 data g1 <> None /\
                 (library_owns_data g = true -> data_bytes g1 = need) /\
                 (library_owns_data g = false -> s1 = s))) as Hresized.
  { intros p s2 Hown Hre -> ->.
    apply realloc_inv in Hre as (Hfr & Hoth & Hres). simpl in *.
    exists (set_data p (set_data_bytes need g)). simpl.
    rewrite Hfr, insert_insert_eq.
    split; [done|]. split; [destruct g; reflexivity|].
    split; [exact Hoth|].
    split; [intros b ->; apply (Hres b eq_refl)|].
    split; [destruct p; auto|].
    destruct p; [|discriminate]. intros _. split; [done|]. split; [done|].
    congruence. }
  destruct (library_owns_data g) eqn:Hown.
  - assert (data g = None \/ data_bytes g <> need \/
            (exists b0, data g = Some b0) /\ data_bytes g = need) as Hc.
    { destruct (data g); [|auto].
      destruct (decide (data_bytes g = need)); eauto. }
    destruct Hc as [Hc | [Hc | [[b0 Hd] Hn]]].
    + rewrite (ensure_owning_resizes _ _ _ _ Hg Hown (or_introl Hc)) in H.
      destruct (realloc _ _ _) as [p s2| |] eqn:Hre; [|discriminate..].
      injection H as <- <-. eapply Hresized; eauto.
    + rewrite (ensure_owning_resizes _ _ _ _ Hg Hown (or_intror Hc)) in H.
      destruct (realloc _ _ _) as [p s2| |] eqn:Hre; [|discriminate..].
      injection H as <- <-. eapply Hresized; eauto.
    + rewrite (ensure_owning_fits _ _ _ _ _ Hg Hown Hd Hn) in H.
      injection H as <- <-. exists g. rewrite insert_id by done.
      repeat split; auto; congruence.
  - unfold uvc_ensure_frame_size in H.
    rewrite (bind_Done _ _ _ _ _ (get_frame_Done _ _ _ Hg)), Hown in H.
    destruct (is_null (data g) || (data_bytes g <? need)) eqn:Hc;
      unfold ret in H; injection H as <- <-.
    + exists g. rewrite insert_id by done. repeat split; auto; discriminate.
    + apply orb_false_elim in Hc as [Hnull _].
      exists g. rewrite insert_id by done. repeat split; auto; try discriminate.
      destruct (data g); [done|discriminate].
Qed.

(** ** Duplication *)

Lemma bind_assoc {A B C} (c : M A) (k1 : A -> M B) (k2 : B -> M C) s :
  bind (bind c k1) k2 s = bind c (fun a => bind (k1 a) k2) s.
Proof. unfold bind. destruct (c s); reflexivity. Qed.

Lemma bind_ret {A B} (a : A) (k : A -> M B) s : bind (ret a) k s = k a s.
Proof. reflexivity. Qed.

Lemma field_run {A} (proj : uvc_frame_t -> A) p
    (Fm : gmap fptr uvc_frame_t) s f :
  Fm !! p = Some f ->
  field p proj (with_frames Fm s) = Done (proj f) (with_frames Fm s).
Proof. intros H. apply field_Done. exact H. Qed.

(** [uvc_duplicate_frame] once the destination was sized: two copies and at
    most one reallocation remain. *)
Lemma duplicate_run in_ out s F s1 Fc G1 :
  frames s !! in_ = Some F ->
  uvc_ensure_frame_size out (data_bytes F) s = Done UVC_SUCCESS s1 ->
  frames s1 !! in_ = Some Fc -> frames s1 !! out = Some G1 ->
  let GG := copy_geometry Fc G1 in
  uvc_duplicate_frame in_ out s =
    match memcpy (data G1) (data Fc) (data_bytes Fc)
            (with_frames (<[out := GG]> (frames s1)) s1) with
    | Done _ s2 =>
        if has_metadata Fc then
          match (if metadata_bytes G1 <? metadata_bytes Fc
                 then realloc (metadata G1) (metadata_bytes Fc) s2
                 else Done (metadata G1) s2) with
          | Done pm s3 =>
              match memcpy pm (metadata Fc) (metadata_bytes Fc)
                      (with_frames
                         (<[out := set_metadata_bytes (metadata_bytes Fc)
                                     (set_metadata pm GG)]> (frames s3)) s3)
              with
              | Done _ s4 => Done UVC_SUCCESS s4
              | Fault => Fault
              | OutOfFuel => OutOfFuel
              end
          | Fault => Fault
          | OutOfFuel => OutOfFuel
          end
        else Done UVC_SUCCESS s2
    | Fault => Fault
    | OutOfFuel => OutOfFuel
    end.
Proof.
  intros HF He HFc HG1 GG. unfold uvc_duplicate_frame.
  rewrite (bind_Done _ _ _ _ _ (field_Done data_bytes _ _ _ HF)).
  rewrite (bind_Done _ _ _ _ _ He). simpl.
  rewrite (duplicate_assignments_run _ _ _ _ _ _ HFc HG1). fold GG.
  set (s1' := with_frames (<[out := GG]> (frames s1)) s1).
  assert (frames s1' !! out = Some GG) as HoGG by apply lookup_insert_eq.
  assert (exists Fc', frames s1' !! in_ = Some Fc' /\ data Fc' = data Fc /\
            data_bytes Fc' = data_bytes Fc /\ metadata Fc' = metadata Fc /\
            metadata_bytes Fc' = metadata_bytes Fc /\
            (in_ = out -> Fc' = GG /\ Fc = G1) /\ (in_ <> out -> Fc' = Fc))
    as (Fc' & HiFc' & Hd & Hdb & Hm & Hmb & Heq & Hne).
  { destruct (decide (in_ = out)) as [->|Hne].
    - exists GG. rewrite HFc in HG1. injection HG1 as ->.
      repeat split; try done.
    - exists Fc. subst s1'. simpl. rewrite lookup_insert_ne by done.
      repeat split; try done. }
  rewrite (bind_Done _ _ _ _ _ (field_Done data _ _ _ HoGG)).
  rewrite (bind_Done _ _ _ _ _ (field_Done data _ _ _ HiFc')).
  rewrite (bind_Done _ _ _ _ _ (field_Done data_bytes _ _ _ HiFc')).
  rewrite Hd, Hdb. change (data GG) with (data G1).
  unfold bind at 1.
  destruct (memcpy (data G1) (data Fc) (data_bytes Fc) s1') as [[] s2| |] eqn:Hcp;
    [|reflexivity..].
  pose proof (memcpy_frames _ _ _ _ _ Hcp) as Hfr2.
  assert (frames s2 !! in_ = Some Fc') as Hi2 by (rewrite Hfr2; done).
  assert (frames s2 !! out = Some GG) as Ho2 by (rewrite Hfr2; done).
  rewrite (bind_Done _ _ _ _ _ (get_frame_Done _ _ _ Hi2)).
  rewrite Hm, Hmb. fold (has_metadata Fc).
  destruct (has_metadata Fc) eqn:Hhas; [|reflexivity].
  unfold bind at 1.
  rewrite (bind_Done _ _ _ _ _ (get_frame_Done _ _ _ Ho2)).
  rewrite (bind_Done _ _ _ _ _ (get_frame_Done _ _ _ Hi2)).
  rewrite Hmb. change (metadata_bytes GG) with (metadata_bytes G1).
  change (metadata GG) with (metadata G1).
  destruct (metadata_bytes G1 <? metadata_bytes Fc) eqn:Hlt.
  - assert (in_ <> out) as Hio.
    { intros E. destruct (Heq E) as [_ ->]. lia. }
    rewrite (Hne Hio) in *.
    rewrite bind_assoc. unfold bind at 1.
    destruct (realloc (metadata G1) (metadata_bytes Fc) s2) as [pm s3| |]
      eqn:Hre; [|reflexivity..].
    pose proof (realloc_frames _ _ _ _ _ Hre) as Hfr3.
    assert (frames s3 !! out = Some GG) as Ho3 by (rewrite Hfr3; done).
    assert (frames s3 !! in_ = Some Fc) as Hi3 by (rewrite Hfr3; done).
    rewrite (bind_Done _ _ _ _ _ (set_frame_Done _ _ _ _ Ho3)).
    erewrite (bind_Done (assign _ _ _));
      [| apply assign_field_run; [rewrite lookup_insert_ne by done; exact Hi3
                                 | apply lookup_insert_eq ] ].
    rewrite insert_insert_eq.
    match goal with |- context [with_frames ?Fm s3] =>
      assert (Fm !! out = Some (set_metadata_bytes (metadata_bytes Fc)
                                  (set_metadata pm GG))) as Ho4
        by apply lookup_insert_eq;
      assert (Fm !! in_ = Some Fc) as Hi4
        by (rewrite lookup_insert_ne by done; exact Hi3)
    end.
    rewrite (bind_Done _ _ _ _ _ (field_run metadata _ _ _ _ Ho4)).
    rewrite (bind_Done _ _ _ _ _ (field_run metadata _ _ _ _ Hi4)).
    rewrite (bind_Done _ _ _ _ _ (field_run metadata_bytes _ _ _ _ Hi4)).
    reflexivity.
  - rewrite bind_ret.
    rewrite <- (with_frames_id s2) at 1.
    erewrite (bind_Done (assign _ _ _));
      [| apply assign_field_run; [exact Hi2 | exact Ho2] ].
    rewrite Hmb.
    match goal with |- context [with_frames ?Fm s2] =>
      assert (Fm !! out = Some (set_metadata_bytes (metadata_bytes Fc) GG))
        as Ho4 by apply lookup_insert_eq;
      assert (exists Fi, Fm !! in_ = Some Fi /\ metadata Fi = metadata Fc /\
                metadata_bytes Fi = metadata_bytes Fc) as (Fi & Hi4 & E1 & E2)
    end.
    { destruct (decide (in_ = out)) as [E|E].
      - destruct (Heq E) as [_ ->]. subst in_.
        eexists. split; [apply lookup_insert_eq|]. done.
      - exists Fc. rewrite lookup_insert_ne by done.
        rewrite <- (Hne E). done. }
    rewrite (bind_Done _ _ _ _ _ (field_run metadata _ _ _ _ Ho4)).
    rewrite (bind_Done _ _ _ _ _ (field_run metadata _ _ _ _ Hi4)).
    rewrite (bind_Done _ _ _ _ _ (field_run metadata_bytes _ _ _ _ Hi4)).
    rewrite E1, E2. reflexivity.
Qed.

Lemma duplicate_no_mem in_ out s F s1 :
  frames s !! in_ = Some F ->
  uvc_ensure_frame_size out (data_bytes F) s = Done UVC_ERROR_NO_MEM s1 ->
  uvc_duplicate_frame in_ out s = Done UVC_ERROR_NO_MEM s1.
Proof.
  intros HF He. unfold uvc_duplicate_frame.
  rewrite (bind_Done _ _ _ _ _ (field_Done data_bytes _ _ _ HF)).
  rewrite (bind_Done _ _ _ _ _ He). reflexivity.
Qed.

(** The frames after the destination was sized. *)
Lemma sized_frames in_ out s F G need e s1 :
  frames s !! in_ = Some F -> frames s !! out = Some G ->
  uvc_ensure_frame_size out need s = Done e s1 ->
  exists Fc G1,
    frames s1 !! in_ = Some Fc /\ frames s1 !! out = Some G1 /\
    frames s1 = <[out := G1]> (frames s) /\
    G1 = set_data (data G1) (set_data_bytes (data_bytes G1) G) /\
    (in_ <> out -> Fc = F) /\ (in_ = out -> Fc = G1 /\ F = G).
Proof.
  intros HF HG He.
  destruct (ensure_inv _ _ _ _ _ _ He HG) as (G1 & Hfr & Heta & _).
  destruct (decide (in_ = out)) as [->|Hne].
  - exists G1, G1. rewrite Hfr, lookup_insert_eq.
    repeat split; try done. congruence.
  - exists F, G1. rewrite Hfr, lookup_insert_eq, lookup_insert_ne by done.
    repeat split; try done.
Qed.

Lemma duplicate_inv in_ out s F G e s' :
  frames s !! in_ = Some F -> frames s !! out = Some G ->
  uvc_duplicate_frame in_ out s = Done e s' ->
  exists e1 s1 Fc G1,
    uvc_ensure_frame_size out (data_bytes F) s = Done e1 s1 /\
    frames s1 !! in_ = Some Fc /\ frames s1 !! out = Some G1 /\
    frames s1 = <[out := G1]> (frames s) /\
    G1 = set_data (data G1) (set_data_bytes (data_bytes G1) G) /\
    (in_ <> out -> Fc = F) /\ (in_ = out -> Fc = G1 /\ F = G) /\
    ((e1 = UVC_ERROR_NO_MEM /\ e = UVC_ERROR_NO_MEM /\ s' = s1) \/
     (e1 = UVC_SUCCESS /\ e = UVC_SUCCESS /\
      exists s2,
        memcpy (data G1) (data Fc) (data_bytes Fc)
          (with_frames (<[out := copy_geometry Fc G1]> (frames s1)) s1)
          = Done tt s2 /\
        ((has_metadata Fc = false /\ s' = s2) \/
         (has_metadata Fc = true /\
          exists pm s3,
            ((metadata_bytes G1 < metadata_bytes Fc /\
              realloc (metadata G1) (metadata_bytes Fc) s2 = Done pm s3) \/
             (metadata_bytes Fc <= metadata_bytes G1 /\
              pm = metadata G1 /\ s3 = s2)) /\
            memcpy pm (metadata Fc) (metadata_bytes Fc)
              (with_frames
                 (<[out := set_metadata_bytes (metadata_bytes Fc)
                             (set_metadata pm (copy_geometry Fc G1))]>
                    (frames s3)) s3) = Done tt s')))).
Proof.
  intros HF HG H.
  destruct (uvc_ensure_frame_size out (data_bytes F) s) as [e1 s1| |] eqn:He;
    cycle 1.
  { unfold uvc_duplicate_frame in H.
    rewrite (bind_Done _ _ _ _ _ (field_Done data_bytes _ _ _ HF)) in H.
    rewrite (bind_Fault _ _ _ He) in H. discriminate. }
  { unfold uvc_duplicate_frame in H.
    rewrite (bind_Done _ _ _ _ _ (field_Done data_bytes _ _ _ HF)) in H.
    unfold bind in H. rewrite He in H. discriminate. }
  destruct (sized_frames _ _ _ _ _ _ _ _ HF HG He)
    as (Fc & G1 & HFc & HG1 & Hfr & Heta & Hne & Heq).
  exists e1, s1, Fc, G1. do 7 (split; [done|]).
  destruct (ensure_inv _ _ _ _ _ _ He HG) as (_ & _ & _ & _ & _ & [-> | ->] & _).
  - right. split; [done|].
    rewrite (duplicate_run _ _ _ _ _ _ _ HF He HFc HG1) in H.
    destruct (memcpy _ _ _ _) as [[] s2| |] eqn:Hcp; [|discriminate..].
    destruct (has_metadata Fc) eqn:Hhas.
    + destruct (metadata_bytes G1 <? metadata_bytes Fc) eqn:Hlt.
      * destruct (realloc _ _ _) as [pm s3| |] eqn:Hre; [|discriminate..].
        destruct (memcpy pm _ _ _) as [[] s4| |] eqn:Hcp2; [|discriminate..].
        injection H as <- <-. split; [done|]. exists s2. split; [done|].
        right. split; [done|]. exists pm, s3. split; [|done].
        left. split; [lia|done].
      * destruct (memcpy (metadata G1) _ _ _) as [[] s4| |] eqn:Hcp2;
          [|discriminate..].
        injection H as <- <-. split; [done|]. exists s2. split; [done|].
        right. split; [done|]. exists (metadata G1), s2. split; [|done].
        right. split; [lia|done].
    + injection H as <- <-. split; [done|]. exists s2. split; [done|].
      left. done.
  - left. rewrite (duplicate_no_mem _ _ _ _ _ HF He) in H.
    injection H as <- <-. done.
Qed.



(** The metadata part of a duplication leaves every live block alone that
    is not the destination's metadata buffer. *)
Lemma metadata_part_other s2 s' out Fc G1 (X : option block -> uvc_frame_t) b :
  ((has_metadata Fc = false /\ s' = s2) \/
   (has_metadata Fc = true /\
    exists pm s3,
      ((metadata_bytes G1 < metadata_bytes Fc /\
        realloc (metadata G1) (metadata_bytes Fc) s2 = Done pm s3) \/
       (metadata_bytes Fc <= metadata_bytes G1 /\
        pm = metadata G1 /\ s3 = s2)) /\
      memcpy pm (metadata Fc) (metadata_bytes Fc)
        (with_frames (<[out := X pm]> (frames s3)) s3) = Done tt s')) ->
  is_Some (mem s2 !! b) -> metadata G1 <> Some b ->
  mem s' !! b = mem s2 !! b.
Proof.
  intros [[_ ->] | (_ & pm & s3 & Hre & Hcp2)] Hlive Hne; [done|].
  destruct Hre as [[_ Hre] | (_ & -> & ->)].
  - apply realloc_inv in Hre as (_ & Hoth & Hres).
    rewrite (memcpy_other _ _ _ _ _ b Hcp2); simpl.
    + apply Hoth; done.
    + intros ->. destruct (Hres b eq_refl) as [[E|E] _]; [done|].
      rewrite E in Hlive. destruct Hlive; done.
  - rewrite (memcpy_other _ _ _ _ _ b Hcp2); done.
Qed.

(** C4.  A successful [uvc_duplicate_frame (F, G)] on an owning [G]:
    [data_bytes], [frame_format], [width], [height], [step], [sequence],
    both capture times and [source] of [G] are those of [F]; the frame [F]
    is unchanged when it is another frame than [G]; the first [data_bytes]
    bytes behind the two [data] pointers are equal at the end (the metadata
    buffer of [G] being a block of its own); and when the pixel buffer of [F]
    is none of the buffers of [G], these are the bytes [F] held before the
    call, still in place. *)
Theorem duplicate_frame_copies s in_ out F G s' :
  frames s !! in_ = Some F -> frames s !! out = Some G ->
  library_owns_data G = true ->
  uvc_duplicate_frame in_ out s = Done UVC_SUCCESS s' ->
  exists G', frames s' !! out = Some G' /\
    (data_bytes G' = data_bytes F /\ frame_format G' = frame_format F /\
     width G' = width F /\ height G' = height F /\ step G' = step F /\
     sequence G' = sequence F /\ capture_time G' = capture_time F /\
     capture_time_finished G' = capture_time_finished F /\
     source G' = source F) /\
    (in_ <> out -> frames s' !! in_ = Some F) /\
    (own_metadata s F G ->
       exists F' bytes,
         frames s' !! in_ = Some F' /\ data_bytes F' = data_bytes F /\
         buffer s' (data G') (data_bytes G') = Some bytes /\
         buffer s' (data F') (data_bytes F') = Some bytes) /\
    (apart F G -> own_metadata s F G ->
       forall bytes, buffer s (data F) (data_bytes F) = Some bytes ->
         buffer s' (data F) (data_bytes F) = Some bytes /\
         buffer s' (data G') (data_bytes G') = Some bytes).
Proof.
  intros HF HG Hown H.
  destruct (duplicate_inv _ _ _ _ _ _ _ HF HG H)
    as (e1 & s1 & Fc & G1 & He & HFc & HG1 & Hfr & Heta & Hne & Heq & Hcases).
  destruct Hcases as [(_ & [=] & _) | (-> & _ & s2 & Hcp & Hmeta)].
  destruct (ensure_inv _ _ _ _ _ _ He HG)
    as (G1' & Hfr' & _ & Hoth1 & Hnew1 & _ & Hsucc).
  assert (G1' = G1) as ->.
  { rewrite Hfr', lookup_insert_eq in HG1. congruence. }
  destruct (Hsucc eq_refl) as (HdG1 & Hsize & _). specialize (Hsize Hown).
  (* the fields of the source as they are read *)
  assert (Fc = set_data (data Fc) (set_data_bytes (data_bytes Fc) F) /\
          data_bytes Fc = data_bytes F) as [HFeta HFn].
  { destruct (decide (in_ = out)) as [E|E].
    - destruct (Heq E) as [-> ->]. done.
    - rewrite (Hne E). split; [destruct F; reflexivity | done]. }
  set (GG := copy_geometry Fc G1) in *.
  pose proof (memcpy_frames _ _ _ _ _ Hcp) as Hfr2. simpl in Hfr2.
  (* the frames of the final state *)
  assert (exists G', frames s' = <[out := G']> (frames s1) /\
            data G' = data G1 /\ data_bytes G' = data_bytes G1 /\
            width G' = width Fc /\ height G' = height Fc /\
            frame_format G' = frame_format Fc /\ step G' = step Fc /\
            sequence G' = sequence Fc /\
            capture_time G' = capture_time Fc /\
            capture_time_finished G' = capture_time_finished Fc /\
            source G' = source Fc)
    as (G' & HfrG & Gd & Gn & Gw & Gh & Gf & Gs & Gq & Gc & Gcf & Gsrc).
  { destruct Hmeta as [[_ ->] | (_ & pm & s3 & Hre & Hcp2)].
    - exists GG. rewrite Hfr2. repeat split; done.
    - pose proof (memcpy_frames _ _ _ _ _ Hcp2) as Hfr4. simpl in Hfr4.
      eexists. rewrite Hfr4.
      assert (frames s3 = frames s2) as ->.
      { destruct Hre as [[_ Hre] | (_ & _ & ->)]; [|done].
        eapply realloc_frames; eauto. }
      rewrite Hfr2, insert_insert_eq. repeat split; done. }
  exists G'. split; [rewrite HfrG; apply lookup_insert_eq|].
  assert (forall {A} (proj : uvc_frame_t -> A),
            (forall d n f, proj (set_data d (set_data_bytes n f)) = proj f) ->
            proj Fc = proj F) as HFfield.
  { intros A proj Hp. rewrite HFeta. apply Hp. }
  split.
  { rewrite Gn, Hsize, Gf, Gw, Gh, Gs, Gq, Gc, Gcf, Gsrc.
    repeat split; try reflexivity; apply HFfield; reflexivity. }
  split.
  { intros E. rewrite HfrG, lookup_insert_ne by done. rewrite <- (Hne E).
    done. }
  (* the final source frame *)
  assert (exists F', frames s' !! in_ = Some F' /\ data F' = data Fc /\
            data_bytes F' = data_bytes F) as (F' & HF' & Fd & Fn).
  { destruct (decide (in_ = out)) as [E|E].
    - exists G'. subst in_. rewrite HfrG, lookup_insert_eq.
      destruct (Heq eq_refl) as [-> _]. split; [done|]. split; [done|].
      rewrite Gn. done.
    - exists Fc. rewrite HfrG, lookup_insert_ne by done. done. }
  destruct (memcpy_copied _ _ _ _ _ Hcp) as (bytes0 & Hb0 & Hb1 & Hb2).
  rewrite HFn in *.
  (* the pixel buffers survive the metadata part *)
  assert (own_metadata s F G ->
          buffer s' (data G1) (data_bytes F) = Some bytes0 /\
          buffer s' (data Fc) (data_bytes F) = Some bytes0) as Hkeep.
  { intros Hom.
    destruct (Z.le_gt_cases (data_bytes F) 0) as [Hn|Hn].
    { revert Hb1 Hb2. unfold buffer.
      assert ((data_bytes F <=? 0) = true) as -> by lia. done. }
    apply memcpy_inv in Hcp
      as [[Hn' _] | (_ & bs & bd & ls & ld & Hsrc & Hdst & Hs & Hd & _ & _ & Hs2)];
      [lia|]. simpl in Hs, Hd.
    assert (metadata G1 = metadata G) as HmG
      by (apply (f_equal metadata) in Heta; exact Heta).
    assert (metadata G1 <> Some bd) as Hmd.
    { rewrite HmG. intros Hm. destruct (Hom _ Hm) as ([l Hl] & Hgd & _).
      destruct (Hnew1 bd Hdst) as [E|E]; congruence. }
    assert (metadata G1 <> Some bs) as Hms.
    { destruct (decide (in_ = out)) as [E|E].
      - destruct (Heq E) as [-> _]. congruence.
      - rewrite HmG. intros Hm. destruct (Hom _ Hm) as (_ & _ & Hfd).
        rewrite (Hne E) in Hsrc. congruence. }
    assert (is_Some (mem s2 !! bd) /\ is_Some (mem s2 !! bs)) as [Ld Ls].
    { rewrite Hs2. simpl. rewrite lookup_insert_eq.
      split; [done|]. destruct (decide (bd = bs)) as [->|E].
      - rewrite lookup_insert_eq. done.
      - rewrite lookup_insert_ne by done. done. }
    rewrite Hdst, Hsrc in *. split.
    - rewrite <- Hb2. eapply buffer_block; [reflexivity|].
      eapply metadata_part_other with (X := fun pm => _); eauto.
    - rewrite <- Hb1. eapply buffer_block; [reflexivity|].
      eapply metadata_part_other with (X := fun pm => _); eauto. }
  split.
  { intros Hom. destruct (Hkeep Hom) as [K1 K2].
    exists F', bytes0. rewrite Gd, Gn, Hsize, Fd, Fn. done. }
  intros Hap Hom bytes Hb. destruct (Hkeep Hom) as [K1 K2].
  rewrite Gd, Gn, Hsize.
  destruct (Z.le_gt_cases (data_bytes F) 0) as [Hn|Hn].
  { revert Hb K1. unfold buffer.
    assert ((data_bytes F <=? 0) = true) as -> by lia. done. }
  destruct (data F) as [b|] eqn:HdF; cycle 1.
  { revert Hb. unfold buffer. assert ((data_bytes F <=? 0) = false) as -> by lia.
    done. }
  assert (in_ <> out) as Hio.
  { intros E. destruct (Heq E) as [_ ->]. destruct (Hap b HdF); done. }
  rewrite (Hne Hio), HdF in *.
  assert (bytes0 = bytes) as ->; [|done].
  (* the copy read the bytes the source held from the start *)
  assert (is_Some (mem s !! b)) as Lb.
  { revert Hb. unfold buffer. assert ((data_bytes F <=? 0) = false) as -> by lia.
    destruct (mem s !! b); done. }
  destruct (Hap b HdF) as [Hgd Hgm].
  assert (buffer s1 (Some b) (data_bytes F) = buffer s (Some b) (data_bytes F))
    as E1 by (eapply buffer_block; [reflexivity | apply Hoth1; done]).
  assert (buffer s1 (Some b) (data_bytes F) = Some bytes0) as Hb0'
    by exact Hb0.
  congruence.
Qed.

Lemma duplicate_frame_copies_witness :
  exists s' G',
    frames st_dup !! 1%positive = Some rgb21 /\
    frames st_dup !! 2%positive = Some empty_owner /\
    library_owns_data empty_owner = true /\
    uvc_duplicate_frame 1 2 st_dup = Done UVC_SUCCESS s' /\
    frames s' !! 2%positive = Some G' /\
    data_bytes G' = 6 /\ frame_format G' = UVC_FRAME_FORMAT_RGB /\
    buffer s' (data G') 6 = Some [10; 20; 30; 40; 50; 60].
Proof.
  assert (frames st_dup !! 1%positive = Some rgb21) as HF by reflexivity.
  assert (frames st_dup !! 2%positive = Some empty_owner) as HG
    by reflexivity.
  assert (exists s', uvc_duplicate_frame 1 2 st_dup = Done UVC_SUCCESS s')
    as [s' H] by (eexists; vm_compute; reflexivity).
  destruct (duplicate_frame_copies st_dup 1 2 rgb21 empty_owner s' HF HG
              eq_refl H) as (G' & HG' & (Hn & Hf & _) & _ & _ & Hbytes).
  exists s', G'. do 6 (split; [done|]). split; [done|].
  assert (apart rgb21 empty_owner) as Hap by (intros b _; done).
  assert (own_metadata st_dup rgb21 empty_owner) as Hom by (intros m [=]).
  destruct (Hbytes Hap Hom [10; 20; 30; 40; 50; 60] eq_refl) as [_ K].
  rewrite Hn in K. exact K.
Defined.


(** ** Pixel arithmetic *)

Lemma wrap_int_small x : - 2 ^ 31 <= x < 2 ^ 31 -> wrap_int x = x.
Proof.
  intros H. unfold wrap_int. rewrite Z.mod_small by lia. lia.
Qed.

Lemma sat_clamp x : sat x = clamp x.
Proof.
  unfold sat, clamp, to_uchar.
  destruct (255 <=? x) eqn:E1, (x <? 0) eqn:E2; try lia; try reflexivity.
  apply Z.mod_small. lia.
Qed.

Lemma clamp_byte x : is_byte (clamp x).
Proof.
  unfold clamp, is_byte.
  destruct (x <? 0) eqn:E1; [lia|]. destruct (255 <=? x) eqn:E2; lia.
Qed.

Lemma shiftr14_bounds a lo hi :
  lo * 16384 <= a -> a < (hi + 1) * 16384 -> lo <= Z.shiftr a 14 <= hi.
Proof.
  intros H1 H2. rewrite Z.shiftr_div_pow2 by lia.
  change (2 ^ 14) with 16384.
  pose proof (Z.div_mod a 16384 ltac:(lia)).
  pose proof (Z.mod_pos_bound a 16384 ltac:(lia)). lia.
Qed.

Lemma int_r_exact v :
  is_byte v -> int_r v = chroma_r v /\ -180 <= chroma_r v <= 178.
Proof.
  unfold is_byte, int_r, chroma_r, int_shr, int_mul, int_sub. intros H.
  rewrite !wrap_int_small by (rewrite ?wrap_int_small; lia).
  split; [reflexivity|]. apply shiftr14_bounds; lia.
Qed.

Lemma int_g_exact u v :
  is_byte u -> is_byte v ->
  int_g u v = chroma_g u v /\ -135 <= chroma_g u v <= 135.
Proof.
  unfold is_byte, int_g, chroma_g, int_shr, int_mul, int_sub. intros Hu Hv.
  rewrite (wrap_int_small (u - 128)), (wrap_int_small (v - 128)) by lia.
  rewrite (wrap_int_small (-5636 * _)), (wrap_int_small (11698 * _)) by lia.
  rewrite wrap_int_small by lia.
  split; [reflexivity|]. apply shiftr14_bounds; lia.
Qed.

Lemma int_b_exact u :
  is_byte u -> int_b u = chroma_b u /\ -227 <= chroma_b u <= 225.
Proof.
  unfold is_byte, int_b, chroma_b, int_shr, int_mul, int_sub. intros H.
  rewrite !wrap_int_small by (rewrite ?wrap_int_small; lia).
  split; [reflexivity|]. apply shiftr14_bounds; lia.
Qed.

Lemma sat_int_add y c :
  is_byte y -> -1000 <= c <= 1000 -> sat (int_add y c) = clamp (y + c).
Proof.
  unfold is_byte, int_add. intros Hy Hc.
  rewrite wrap_int_small by lia. apply sat_clamp.
Qed.

(** On bytes the machine computation of a YUYV group is the exact formula. *)
Lemma pix_yuyv2rgb_exact y0 u y1 v :
  is_byte y0 -> is_byte u -> is_byte y1 -> is_byte v ->
  pix_yuyv2rgb y0 u y1 v =
    [ clamp (y0 + chroma_r v); clamp (y0 + chroma_g u v);
      clamp (y0 + chroma_b u);
      clamp (y1 + chroma_r v); clamp (y1 + chroma_g u v);
      clamp (y1 + chroma_b u) ].
Proof.
  intros H0 Hu H1 Hv. unfold pix_yuyv2rgb.
  destruct (int_r_exact v Hv) as [-> Br].
  destruct (int_g_exact u v Hu Hv) as [-> Bg].
  destruct (int_b_exact u Hu) as [-> Bb].
  rewrite !sat_int_add by (done || lia). reflexivity.
Qed.

(** ** Loads and stores *)

Lemma bind_rd {B} (K : Z -> M B) (Mm : gmap block (list Z)) s b l i k :
  Mm !! b = Some l -> 0 <= i + k ->
  bind (rd (mk_ptr (Some b) i) k) K (with_mem Mm s) =
    match l !! Z.to_nat (i + k) with
    | Some v => K v (with_mem Mm s)
    | None => Fault
    end.
Proof.
  intros Hb Hi. unfold bind, rd, load. simpl. rewrite Hb.
  destruct (l !! Z.to_nat (i + k)); [|reflexivity].
  assert ((0 <=? i + k) = true) as -> by lia. reflexivity.
Qed.

Lemma wr_exact (Mm : gmap block (list Z)) s b l j k v :
  Mm !! b = Some l -> 0 <= j + k ->
  wr (mk_ptr (Some b) j) k v (with_mem Mm s) =
    if j + k <? Z.of_nat (length l)
    then Done tt (with_mem (<[b := <[Z.to_nat (j + k) := v]> l]> Mm) s)
    else Fault.
Proof.
  intros Hb Hj. unfold wr, store, in_range. simpl. rewrite Hb.
  assert ((0 <=? j + k) = true) as -> by lia. reflexivity.
Qed.

Lemma bind_wr {B} (K : unit -> M B) (Mm : gmap block (list Z)) s b l j k v :
  Mm !! b = Some l -> 0 <= j + k ->
  bind (wr (mk_ptr (Some b) j) k v) K (with_mem Mm s) =
    if j + k <? Z.of_nat (length l)
    then K tt (with_mem (<[b := <[Z.to_nat (j + k) := v]> l]> Mm) s)
    else Fault.
Proof.
  intros Hb Hj. unfold bind. rewrite (wr_exact _ _ _ _ _ _ _ Hb Hj).
  destruct (j + k <? Z.of_nat (length l)); reflexivity.
Qed.

(** Symbolic execution of a pixel macro on the state
    [with_mem (<[bd := l]> Mm) s]: a load either yields a byte or shows that
    the source is too short, a store either succeeds or shows that the
    destination is too short. *)
Ltac fault_src E :=
  apply lookup_ge_None in E;
  lazymatch goal with
  | |- _ = if ?c1 && ?c2 then _ else _ =>
      assert (c1 = false) as -> by (apply Z.leb_gt; lia); reflexivity
  end.

Ltac fault_dst E :=
  rewrite ?length_insert in E;
  lazymatch goal with
  | |- _ = if ?c1 && ?c2 then _ else _ =>
      assert (c2 = false) as -> by (apply Z.leb_gt; lia);
      rewrite andb_false_r; reflexivity
  end.

Ltac macro_rd Hs :=
  rewrite (bind_rd _ _ _ _ _ _ _ (Hs _)) by lia; rewrite ?Z.add_0_r;
  lazymatch goal with
  | |- match ?l !! ?n with _ => _ end = _ =>
      first
        [ match goal with H : l !! n = Some _ |- _ => rewrite H end
        | let E := fresh "Erd" in
          destruct (l !! n) eqn:E;
          [ pose proof (lookup_lt_Some _ _ _ E) | fault_src E ] ]
  end.

Ltac macro_wr Hd :=
  rewrite (bind_wr _ _ _ _ _ _ _ _ (Hd _)) by lia; rewrite ?Z.add_0_r;
  lazymatch goal with
  | |- (if ?c then _ else _) = _ =>
      let E := fresh "Ewr" in
      destruct c eqn:E; [ rewrite insert_insert_eq | fault_dst E ]
  end.

Ltac macro_last_wr Hd :=
  rewrite (wr_exact _ _ _ _ _ _ _ (Hd _)) by lia; rewrite ?Z.add_0_r;
  lazymatch goal with
  | |- (if ?c then _ else _) = _ =>
      let E := fresh "Ewr" in
      destruct c eqn:E; [ rewrite insert_insert_eq | fault_dst E ]
  end.

Ltac macro_done :=
  rewrite ?length_insert in *;
  lazymatch goal with
  | |- _ = if ?c1 && ?c2 then _ else _ =>
      assert (c1 = true) as -> by (apply Z.leb_le; lia);
      assert (c2 = true) as -> by (apply Z.leb_le; lia)
  end;
  simpl; unfold byte_at;
  repeat match goal with
         | H : ?l !! ?n = Some _ |- context [?l !! ?n] => rewrite H
         end;
  simpl; repeat (f_equal; try lia).

Ltac macro_start :=
  intros Mm s bs bd src dst i j Hne Hsrc Hdst Hi Hj;
  assert (forall l, <[bd := l]> Mm !! bs = Some src) as Hs
    by (intros; rewrite lookup_insert_ne by congruence; exact Hsrc);
  assert (forall l, <[bd := l]> Mm !! bd = Some l) as Hd
    by (intros; apply lookup_insert_eq);
  replace (with_mem Mm s) with (with_mem (<[bd := dst]> Mm) s) at 1
    by (rewrite insert_id by exact Hdst; reflexivity);
  change (Z.of_nat 1) with 1; rewrite !Z.mul_1_r.

Lemma IYUYV2RGB_2_converts : converts IYUYV2RGB_2 pix_yuyv2rgb 1.
Proof.
  macro_start. unfold IYUYV2RGB_2.
  do 4 macro_rd Hs.
  do 5 (macro_rd Hs; macro_wr Hd).
  macro_rd Hs; macro_last_wr Hd.
  macro_done.
Qed.

Lemma IUYVY2RGB_2_converts : converts IUYVY2RGB_2 pix_uyvy2rgb 1.
Proof.
  macro_start. unfold IUYVY2RGB_2.
  do 4 macro_rd Hs.
  do 5 (macro_rd Hs; macro_wr Hd).
  macro_rd Hs; macro_last_wr Hd.
  macro_done.
Qed.

Lemma IUYVY2BGR_2_converts : converts IUYVY2BGR_2 pix_uyvy2bgr 1.
Proof.
  macro_start. unfold IUYVY2BGR_2.
  do 4 macro_rd Hs.
  do 5 (macro_rd Hs; macro_wr Hd).
  macro_rd Hs; macro_last_wr Hd.
  macro_done.
Qed.

(** ** Sequences of macros and loops *)

Lemma write_bytes_length new : forall j l,
  length (write_bytes j new l) = length l.
Proof.
  induction new as [|v vs IH]; intros j l; simpl; [reflexivity|].
  rewrite IH. apply length_insert.
Qed.

Lemma write_bytes_app A B : forall j l,
  write_bytes j (A ++ B) l = write_bytes (j + length A) B (write_bytes j A l).
Proof.
  induction A as [|v vs IH]; intros j l; simpl.
  - rewrite Nat.add_0_r. reflexivity.
  - rewrite IH. f_equal. lia.
Qed.

Lemma convert_groups_length pix m : six_bytes pix -> forall i src,
  length (convert_groups pix m i src) = (6 * m)%nat.
Proof.
  intros H6. induction m as [|m IH]; intros i src; simpl; [reflexivity|].
  rewrite length_app, H6, IH. lia.
Qed.

Lemma convert_groups_app pix m1 m2 : forall i src,
  convert_groups pix (m1 + m2) i src =
    convert_groups pix m1 i src
    ++ convert_groups pix m2 (i + 4 * Z.of_nat m1) src.
Proof.
  induction m1 as [|m1 IH]; intros i src.
  - simpl. rewrite Z.add_0_r. reflexivity.
  - simpl convert_groups. rewrite IH, <- app_assoc.
    do 3 f_equal. lia.
Qed.

(** [m1] groups followed by whatever [K] does with the next [m2] groups. *)
Lemma converts_then (c : ptr -> ptr -> M unit) (K : M unit) pix m1 m2
    (Mm : gmap block (list Z)) s bs bd src dst i j :
  six_bytes pix -> converts c pix m1 ->
  bs <> bd -> Mm !! bs = Some src -> Mm !! bd = Some dst ->
  0 <= i -> 0 <= j ->
  (forall dst1, length dst1 = length dst ->
     i + 4 * Z.of_nat m1 <= Z.of_nat (length src) ->
     j + 6 * Z.of_nat m1 <= Z.of_nat (length dst) ->
     K (with_mem (<[bd := dst1]> Mm) s) =
       if (i + 4 * Z.of_nat m1 + 4 * Z.of_nat m2 <=? Z.of_nat (length src))
          && (j + 6 * Z.of_nat m1 + 6 * Z.of_nat m2 <=? Z.of_nat (length dst))
       then Done tt
              (with_mem
                 (<[bd := write_bytes (Z.to_nat (j + 6 * Z.of_nat m1))
                            (convert_groups pix m2 (i + 4 * Z.of_nat m1) src)
                            dst1]> Mm) s)
       else Fault) ->
  (c (mk_ptr (Some bs) i) (mk_ptr (Some bd) j) ;; K) (with_mem Mm s) =
    if (i + 4 * Z.of_nat (m1 + m2) <=? Z.of_nat (length src))
       && (j + 6 * Z.of_nat (m1 + m2) <=? Z.of_nat (length dst))
    then Done tt
           (with_mem
              (<[bd := write_bytes (Z.to_nat j)
                         (convert_groups pix (m1 + m2) i src) dst]> Mm) s)
    else Fault.
Proof.
  intros H6 Hc Hne Hsrc Hdst Hi Hj HK. unfold bind.
  rewrite (Hc Mm s bs bd src dst i j Hne Hsrc Hdst Hi Hj).
  destruct ((i + 4 * Z.of_nat m1 <=? Z.of_nat (length src))
            && (j + 6 * Z.of_nat m1 <=? Z.of_nat (length dst))) eqn:C1.
  - apply andb_true_iff in C1 as [C1 C1'].
    rewrite HK by (apply write_bytes_length || lia).
    replace (i + 4 * Z.of_nat (m1 + m2))
      with (i + 4 * Z.of_nat m1 + 4 * Z.of_nat m2) by lia.
    replace (j + 6 * Z.of_nat (m1 + m2))
      with (j + 6 * Z.of_nat m1 + 6 * Z.of_nat m2) by lia.
    destruct (_ && _); [|reflexivity].
    rewrite convert_groups_app, write_bytes_app.
    rewrite (convert_groups_length _ _ H6).
    replace (Z.to_nat (j + 6 * Z.of_nat m1)) with (Z.to_nat j + 6 * m1)%nat by lia. reflexivity.
  - apply andb_false_iff in C1.
    assert ((i + 4 * Z.of_nat (m1 + m2) <=? Z.of_nat (length src))
            && (j + 6 * Z.of_nat (m1 + m2) <=? Z.of_nat (length dst)) = false)
      as ->; [|reflexivity].
    apply andb_false_iff. destruct C1 as [C1|C1]; apply Z.leb_gt in C1; [left|right]; apply Z.leb_gt; lia.
Qed.

Lemma converts_seq (c1 c2 : ptr -> ptr -> M unit) pix m1 m2 :
  six_bytes pix -> converts c1 pix m1 -> converts c2 pix m2 ->
  converts
    (fun p q => c1 p q ;;
                c2 (ptr_add p (4 * Z.of_nat m1)) (ptr_add q (6 * Z.of_nat m1)))
    pix (m1 + m2).
Proof.
  intros H6 H1 H2 Mm s bs bd src dst i j Hne Hsrc Hdst Hi Hj.
  apply converts_then; try done.
  intros dst1 Hlen _ _. unfold ptr_add. simpl.
  rewrite (H2 (<[bd := dst1]> Mm) s bs bd src dst1);
    [ | done | by rewrite lookup_insert_ne | by rewrite lookup_insert_eq
      | lia | lia ].
  rewrite insert_insert_eq, Hlen. reflexivity.
Qed.

Lemma pix_yuyv2rgb_six : six_bytes pix_yuyv2rgb.
Proof. intros ? ? ? ?. reflexivity. Qed.
Lemma pix_uyvy2rgb_six : six_bytes pix_uyvy2rgb.
Proof. intros ? ? ? ?. reflexivity. Qed.
Lemma pix_uyvy2bgr_six : six_bytes pix_uyvy2bgr.
Proof. intros ? ? ? ?. reflexivity. Qed.

Lemma IYUYV2RGB_8_converts : converts IYUYV2RGB_8 pix_yuyv2rgb 4.
Proof.
  pose proof IYUYV2RGB_2_converts as H2.
  pose proof (converts_seq _ _ _ 1 1 pix_yuyv2rgb_six H2 H2) as H4.
  exact (converts_seq _ _ _ 2 2 pix_yuyv2rgb_six H4 H4).
Qed.

Lemma IUYVY2RGB_8_converts : converts IUYVY2RGB_8 pix_uyvy2rgb 4.
Proof.
  pose proof IUYVY2RGB_2_converts as H2.
  pose proof (converts_seq _ _ _ 1 1 pix_uyvy2rgb_six H2 H2) as H4.
  exact (converts_seq _ _ _ 2 2 pix_uyvy2rgb_six H4 H4).
Qed.

Lemma IUYVY2BGR_8_converts : converts IUYVY2BGR_8 pix_uyvy2bgr 4.
Proof.
  pose proof IUYVY2BGR_2_converts as H2.
  pose proof (converts_seq _ _ _ 1 1 pix_uyvy2bgr_six H2 H2) as H4.
  exact (converts_seq _ _ _ 2 2 pix_uyvy2bgr_six H4 H4).
Qed.

Lemma yuyv2rgb_loop_shape fuel : forall p q e,
  yuyv2rgb_loop fuel p q e = block_loop IYUYV2RGB_8 fuel p q e.
Proof. induction fuel as [|f IH]; intros; simpl; [done|]. by rewrite IH. Qed.

Lemma uyvy2rgb_loop_shape fuel : forall p q e,
  uyvy2rgb_loop fuel p q e = block_loop IUYVY2RGB_8 fuel p q e.
Proof. induction fuel as [|f IH]; intros; simpl; [done|]. by rewrite IH. Qed.

Lemma uyvy2bgr_loop_shape fuel : forall p q e,
  uyvy2bgr_loop fuel p q e = block_loop IUYVY2BGR_8 fuel p q e.
Proof. induction fuel as [|f IH]; intros; simpl; [done|]. by rewrite IH. Qed.

Lemma yuyv2y_loop_shape fuel : forall p q e,
  yuyv2y_loop fuel p q e = byte_loop IYUYV2Y fuel p q e.
Proof. induction fuel as [|f IH]; intros; simpl; [done|]. by rewrite IH. Qed.

Lemma yuyv2uv_loop_shape fuel : forall p q e,
  yuyv2uv_loop fuel p q e = byte_loop IYUYV2UV fuel p q e.
Proof. induction fuel as [|f IH]; intros; simpl; [done|]. by rewrite IH. Qed.

Lemma turns_step stride x :
  0 < stride -> 0 < x ->
  Z.to_nat (turns stride x) = S (Z.to_nat (turns stride (x - stride))).
Proof.
  intros Hs Hx. unfold turns.
  replace (x + stride - 1) with ((x - stride + stride - 1) + 1 * stride)
    by lia.
  rewrite Z.div_add by lia.
  assert (0 <= (x - stride + stride - 1) / stride)
    by (apply Z.div_pos; lia).
  lia.
Qed.

Lemma turns_done stride x :
  0 < stride -> x <= 0 -> Z.to_nat (turns stride x) = 0%nat.
Proof.
  intros Hs Hx. unfold turns.
  assert ((x + stride - 1) / stride < 1); [|lia].
  apply Z.div_lt_upper_bound; lia.
Qed.

(** A loop over 8-pixel blocks from [(i, j)] to the end offset [e] makes
    [turns 24 (e - j)] turns; it completes exactly when all of these blocks
    lie inside the two buffers. *)
Lemma block_loop_converts body pix :
  six_bytes pix -> converts body pix 4 ->
  forall fuel (Mm : gmap block (list Z)) s bs bd src dst i j pe,
    let k := Z.to_nat (turns 24 (offset pe - j)) in
    (k < fuel)%nat ->
    bs <> bd -> Mm !! bs = Some src -> Mm !! bd = Some dst ->
    0 <= i <= Z.of_nat (length src) -> 0 <= j <= Z.of_nat (length dst) ->
    block_loop body fuel (mk_ptr (Some bs) i) (mk_ptr (Some bd) j) pe
      (with_mem Mm s) =
      if (i + 16 * Z.of_nat k <=? Z.of_nat (length src))
         && (j + 24 * Z.of_nat k <=? Z.of_nat (length dst))
      then Done tt
             (with_mem
                (<[bd := write_bytes (Z.to_nat j)
                           (convert_groups pix (4 * k) i src) dst]> Mm) s)
      else Fault.
Proof.
  intros H6 Hbody.
  induction fuel as [|fuel IH]; intros Mm s bs bd src dst i j pe k Hfuel
    Hne Hsrc Hdst Hi Hj; [lia|].
  simpl block_loop. unfold ptr_lt. cbn [offset].
  destruct (j <? offset pe) eqn:Hlt.
  - set (k' := Z.to_nat (turns 24 (offset pe - (j + 3 * 8)))).
    assert (k = S k') as Hk.
    { subst k k'. rewrite (turns_step 24) by lia. do 3 f_equal. lia. }
    rewrite Hk.
    replace (4 * S k')%nat with (4 + 4 * k')%nat by lia.
    replace (i + 16 * Z.of_nat (S k'))
      with (i + 4 * Z.of_nat (4 + 4 * k')) by lia.
    replace (j + 24 * Z.of_nat (S k'))
      with (j + 6 * Z.of_nat (4 + 4 * k')) by lia.
    apply (converts_then body _ pix 4 (4 * k') Mm s bs bd src dst i j);
      try done; try lia.
    intros dst1 Hlen C1 C1'. unfold ptr_add. cbn [offset base].
    rewrite (IH (<[bd := dst1]> Mm) s bs bd src dst1);
      [ | fold k'; lia | done | by rewrite lookup_insert_ne
        | by rewrite lookup_insert_eq | lia | lia ].
    fold k'. rewrite insert_insert_eq, Hlen.
    replace (i + 2 * 8 + 16 * Z.of_nat k')
      with (i + 4 * Z.of_nat 4 + 4 * Z.of_nat (4 * k')) by lia.
    replace (j + 3 * 8 + 24 * Z.of_nat k')
      with (j + 6 * Z.of_nat 4 + 6 * Z.of_nat (4 * k')) by lia.
    replace (i + 2 * 8) with (i + 4 * Z.of_nat 4) by lia.
    replace (j + 3 * 8) with (j + 6 * Z.of_nat 4) by lia.
    reflexivity.
  - assert (k = 0%nat) as -> by (subst k; apply turns_done; lia).
    simpl. rewrite Z.add_0_r, Z.add_0_r.
    assert ((i <=? Z.of_nat (length src)) = true) as -> by lia.
    assert ((j <=? Z.of_nat (length dst)) = true) as -> by lia.
    simpl. rewrite insert_id by done. reflexivity.
Qed.

Lemma copies_intro (c : ptr -> ptr -> M unit) off :
  0 <= off ->
  (forall p q, c p q = (y <- rd p off ;; wr q 0 y)) -> copies c off.
Proof.
  intros Hoff Hc Mm s bs bd src dst i j Hne Hsrc Hdst Hi Hj. rewrite Hc.
  rewrite (bind_rd _ _ _ _ _ _ _ Hsrc) by lia.
  destruct (src !! Z.to_nat (i + off)) as [v|] eqn:E.
  - pose proof (lookup_lt_Some _ _ _ E).
    rewrite (wr_exact _ _ _ _ _ _ _ Hdst) by lia. rewrite Z.add_0_r.
    assert ((i + off + 1 <=? Z.of_nat (length src)) = true) as -> by lia.
    replace (j + 1 <=? Z.of_nat (length dst))
      with (j <? Z.of_nat (length dst)) by lia.
    unfold byte_at. rewrite E. reflexivity.
  - apply lookup_ge_None in E.
    assert ((i + off + 1 <=? Z.of_nat (length src)) = false) as -> by lia.
    reflexivity.
Qed.

Lemma IYUYV2Y_copies : copies IYUYV2Y 0.
Proof. apply copies_intro; [lia | reflexivity]. Qed.

Lemma IYUYV2UV_copies : copies IYUYV2UV 1.
Proof. apply copies_intro; [lia | reflexivity]. Qed.

(** A loop that copies one byte per turn from [(i, j)] to the end offset
    [e] makes [e - j] turns; it completes exactly when the last source byte
    it reads and the last destination byte it writes exist. *)
Lemma byte_loop_copies body off :
  copies body off ->
  forall fuel (Mm : gmap block (list Z)) s bs bd src dst i j pe,
    let k := Z.to_nat (offset pe - j) in
    (k < fuel)%nat ->
    bs <> bd -> Mm !! bs = Some src -> Mm !! bd = Some dst ->
    0 <= i -> i + off - 1 <= Z.of_nat (length src) ->
    0 <= j <= Z.of_nat (length dst) ->
    byte_loop body fuel (mk_ptr (Some bs) i) (mk_ptr (Some bd) j) pe
      (with_mem Mm s) =
      if (i + off + 2 * Z.of_nat k - 1 <=? Z.of_nat (length src))
         && (j + Z.of_nat k <=? Z.of_nat (length dst))
      then Done tt
             (with_mem
                (<[bd := write_bytes (Z.to_nat j)
                           (every_second k (i + off) src) dst]> Mm) s)
      else Fault.
Proof.
  intros Hbody.
  induction fuel as [|fuel IH]; intros Mm s bs bd src dst i j pe k Hfuel
    Hne Hsrc Hdst Hi Hi' Hj; [lia|].
  simpl byte_loop. unfold ptr_lt. cbn [offset].
  destruct (j <? offset pe) eqn:Hlt.
  - set (k' := Z.to_nat (offset pe - (j + 1))).
    assert (k = S k') as Hk by (subst k k'; lia).
    rewrite Hk. unfold bind.
    rewrite (Hbody Mm s bs bd src dst i j Hne Hsrc Hdst Hi ltac:(lia)).
    destruct ((i + off + 1 <=? Z.of_nat (length src))
              && (j + 1 <=? Z.of_nat (length dst))) eqn:C1.
    + apply andb_true_iff in C1 as [C1 C1'].
      unfold ptr_add. cbn [offset base].
      rewrite (IH (<[bd := <[Z.to_nat j := byte_at src (i + off)]> dst]> Mm)
                 s bs bd src (<[Z.to_nat j := byte_at src (i + off)]> dst));
        [ | fold k'; lia | done | by rewrite lookup_insert_ne
          | by rewrite lookup_insert_eq | lia | lia
          | rewrite length_insert; lia ].
      fold k'. rewrite insert_insert_eq, length_insert.
      replace (i + 2 + off + 2 * Z.of_nat k' - 1)
        with (i + off + 2 * Z.of_nat (S k') - 1) by lia.
      replace (j + 1 + Z.of_nat k') with (j + Z.of_nat (S k')) by lia.
      destruct (_ && _); [|reflexivity].
      simpl. replace (Z.to_nat (j + 1)) with (S (Z.to_nat j)) by lia.
      replace (i + 2 + off) with (i + off + 2) by lia. reflexivity.
    + assert ((i + off + 2 * Z.of_nat (S k') - 1 <=? Z.of_nat (length src))
              && (j + Z.of_nat (S k') <=? Z.of_nat (length dst)) = false)
        as ->; [|reflexivity].
      apply andb_false_iff in C1. apply andb_false_iff.
      destruct C1 as [C1|C1]; apply Z.leb_gt in C1; [left|right];
        apply Z.leb_gt; lia.
  - assert (k = 0%nat) as -> by (subst k; lia).
    change (Z.of_nat 0) with 0. rewrite Z.mul_0_r, !Z.add_0_r.
    assert ((i + off - 1 <=? Z.of_nat (length src)) = true) as -> by lia.
    assert ((j <=? Z.of_nat (length dst)) = true) as -> by lia.
    simpl. rewrite insert_id by done. reflexivity.
Qed.

(** ** The kernels up to their loop *)

Lemma assign_run {A} out (setter : A -> uvc_frame_t -> uvc_frame_t)
    (rhs : M A) v (Fm : gmap fptr uvc_frame_t) s fo :
  rhs (with_frames Fm s) = Done v (with_frames Fm s) ->
  Fm !! out = Some fo ->
  assign out setter rhs (with_frames Fm s) =
    Done tt (with_frames (<[out := setter v fo]> Fm) s).
Proof.
  intros Hr Ho. unfold assign. rewrite (bind_Done _ _ _ _ _ Hr).
  unfold set_frame. simpl. rewrite Ho. reflexivity.
Qed.

Lemma times3_run in_ (Fm : gmap fptr uvc_frame_t) s fi :
  Fm !! in_ = Some fi ->
  (w <- field in_ width ;; ret (u32_mul w 3)) (with_frames Fm s) =
    Done (u32_mul (width fi) 3) (with_frames Fm s).
Proof.
  intros Hi. rewrite (bind_Done _ _ _ _ _ (field_run width _ _ _ _ Hi)).
  reflexivity.
Qed.

Ltac run_assign' :=
  first
    [ run_assign
    | erewrite (bind_Done (assign _ _ _));
      [| apply assign_run; [apply times3_run; frame_lookup | frame_lookup] ];
      rewrite ?insert_insert_eq ].

(** The shared beginning of the five kernels that have a loop. *)
Ltac kernel_prefix HF Hfmt He HFc HG1 :=
  rewrite (bind_Done _ _ _ _ _ (field_Done frame_format _ _ _ HF)), Hfmt;
  rewrite bool_decide_eq_true_2 by reflexivity; cbn [negb];
  rewrite (bind_Done _ _ _ _ _ (pixel_bytes_Done _ _ _ _ HF));
  rewrite (bind_Done _ _ _ _ _ He); cbn [error_code Z.ltb Z.compare];
  match goal with
  | |- ?lhs ?st = _ =>
      rewrite <- (with_frames_id st) at 1
  end;
  do 4 run_assign';
  unfold copy_timing;
  do 4 (rewrite ?bind_assoc; run_assign');
  erewrite (bind_Done (field _ _)); [| apply field_run; frame_lookup];
  erewrite (bind_Done (field _ _)); [| apply field_run; frame_lookup];
  erewrite (bind_Done (field _ _)); [| apply field_run; frame_lookup].

Lemma sized_source in_ out s F need s1 G :
  frames s !! in_ = Some F -> frames s !! out = Some G -> in_ <> out ->
  uvc_ensure_frame_size out need s = Done UVC_SUCCESS s1 ->
  frames s1 !! in_ = Some F.
Proof.
  intros HF HG Hne He.
  destruct (ensure_inv _ _ _ _ _ _ He HG) as (g1 & -> & _).
  rewrite lookup_insert_ne by done. exact HF.
Qed.

Lemma uvc_yuyv2rgb_run in_ out s F s1 G1 :
  frames s !! in_ = Some F -> frames s1 !! in_ = Some F ->
  in_ <> out -> frame_format F = UVC_FRAME_FORMAT_YUYV ->
  uvc_ensure_frame_size out (u32_mul (u32_mul (width F) (height F)) 3) s
    = Done UVC_SUCCESS s1 ->
  frames s1 !! out = Some G1 ->
  uvc_yuyv2rgb in_ out s =
    (yuyv2rgb_loop (loop_fuel (data_bytes G1)) (mk_ptr (data F) 0)
       (mk_ptr (data G1) 0) (ptr_add (mk_ptr (data G1) 0) (data_bytes G1)) ;;
     ret UVC_SUCCESS)
      (with_frames
         (<[out := converted_geometry UVC_FRAME_FORMAT_RGB
                     (u32_mul (width F) 3) F G1]> (frames s1)) s1).
Proof.
  intros HF HFc Hne Hfmt He HG1. unfold uvc_yuyv2rgb.
  kernel_prefix HF Hfmt He HFc HG1.
  reflexivity.
Qed.

Lemma uvc_uyvy2rgb_run in_ out s F s1 G1 :
  frames s !! in_ = Some F -> frames s1 !! in_ = Some F ->
  in_ <> out -> frame_format F = UVC_FRAME_FORMAT_UYVY ->
  uvc_ensure_frame_size out (u32_mul (u32_mul (width F) (height F)) 3) s
    = Done UVC_SUCCESS s1 ->
  frames s1 !! out = Some G1 ->
  uvc_uyvy2rgb in_ out s =
    (uyvy2rgb_loop (loop_fuel (data_bytes G1)) (mk_ptr (data F) 0)
       (mk_ptr (data G1) 0) (ptr_add (mk_ptr (data G1) 0) (data_bytes G1)) ;;
     ret UVC_SUCCESS)
      (with_frames
         (<[out := converted_geometry UVC_FRAME_FORMAT_RGB
                     (u32_mul (width F) 3) F G1]> (frames s1)) s1).
Proof.
  intros HF HFc Hne Hfmt He HG1. unfold uvc_uyvy2rgb.
  kernel_prefix HF Hfmt He HFc HG1.
  reflexivity.
Qed.

Lemma uvc_uyvy2bgr_run in_ out s F s1 G1 :
  frames s !! in_ = Some F -> frames s1 !! in_ = Some F ->
  in_ <> out -> frame_format F = UVC_FRAME_FORMAT_UYVY ->
  uvc_ensure_frame_size out (u32_mul (u32_mul (width F) (height F)) 3) s
    = Done UVC_SUCCESS s1 ->
  frames s1 !! out = Some G1 ->
  uvc_uyvy2bgr in_ out s =
    (uyvy2bgr_loop (loop_fuel (data_bytes G1)) (mk_ptr (data F) 0)
       (mk_ptr (data G1) 0) (ptr_add (mk_ptr (data G1) 0) (data_bytes G1)) ;;
     ret UVC_SUCCESS)
      (with_frames
         (<[out := converted_geometry UVC_FRAME_FORMAT_BGR
                     (u32_mul (width F) 3) F G1]> (frames s1)) s1).
Proof.
  intros HF HFc Hne Hfmt He HG1. unfold uvc_uyvy2bgr.
  kernel_prefix HF Hfmt He HFc HG1.
  reflexivity.
Qed.

Lemma uvc_yuyv2y_run in_ out s F s1 G1 :
  frames s !! in_ = Some F -> frames s1 !! in_ = Some F ->
  in_ <> out -> frame_format F = UVC_FRAME_FORMAT_YUYV ->
  uvc_ensure_frame_size out (u32_mul (u32_mul (width F) (height F)) 1) s
    = Done UVC_SUCCESS s1 ->
  frames s1 !! out = Some G1 ->
  uvc_yuyv2y in_ out s =
    (yuyv2y_loop (loop_fuel (data_bytes G1)) (mk_ptr (data F) 0)
       (mk_ptr (data G1) 0) (ptr_add (mk_ptr (data G1) 0) (data_bytes G1)) ;;
     ret UVC_SUCCESS)
      (with_frames
         (<[out := converted_geometry UVC_FRAME_FORMAT_GRAY8 (width F) F G1]>
            (frames s1)) s1).
Proof.
  intros HF HFc Hne Hfmt He HG1. unfold uvc_yuyv2y.
  kernel_prefix HF Hfmt He HFc HG1.
  reflexivity.
Qed.

Lemma uvc_yuyv2uv_run in_ out s F s1 G1 :
  frames s !! in_ = Some F -> frames s1 !! in_ = Some F ->
  in_ <> out -> frame_format F = UVC_FRAME_FORMAT_YUYV ->
  uvc_ensure_frame_size out (u32_mul (u32_mul (width F) (height F)) 1) s
    = Done UVC_SUCCESS s1 ->
  frames s1 !! out = Some G1 ->
  uvc_yuyv2uv in_ out s =
    (yuyv2uv_loop (loop_fuel (data_bytes G1)) (mk_ptr (data F) 0)
       (mk_ptr (data G1) 0) (ptr_add (mk_ptr (data G1) 0) (data_bytes G1)) ;;
     ret UVC_SUCCESS)
      (with_frames
         (<[out := converted_geometry UVC_FRAME_FORMAT_GRAY8 (width F) F G1]>
            (frames s1)) s1).
Proof.
  intros HF HFc Hne Hfmt He HG1. unfold uvc_yuyv2uv.
  kernel_prefix HF Hfmt He HFc HG1.
  reflexivity.
Qed.

(** ** The kernels as a whole *)

Lemma ensure_Done_frame frame need s e s1 :
  uvc_ensure_frame_size frame need s = Done e s1 ->
  exists g, frames s !! frame = Some g.
Proof.
  unfold uvc_ensure_frame_size, bind, get_frame.
  destruct (frames s !! frame); [eauto | discriminate].
Qed.

Lemma sized_frame_kept s s1 in_ out F G1 need bs bd src dst :
  sized s s1 in_ out F G1 need bs bd src dst -> frames s1 !! in_ = Some F.
Proof.
  intros (HF & Hne & He & _).
  destruct (ensure_Done_frame _ _ _ _ _ He) as [G HG].
  eapply sized_source; eauto.
Qed.

(** A loop over blocks started by a kernel. *)
Lemma block_loop_from_start body pix Fm s1 bs bd src dst n :
  six_bytes pix -> converts body pix 4 ->
  bs <> bd -> mem s1 !! bs = Some src -> mem s1 !! bd = Some dst ->
  let k := Z.to_nat (turns 24 n) in
  (block_loop body (loop_fuel n) (mk_ptr (Some bs) 0) (mk_ptr (Some bd) 0)
     (ptr_add (mk_ptr (Some bd) 0) n) ;; ret UVC_SUCCESS)
    (with_frames Fm s1) =
    if (16 * Z.of_nat k <=? Z.of_nat (length src))
       && (24 * Z.of_nat k <=? Z.of_nat (length dst))
    then Done UVC_SUCCESS
           (mk_state Fm
              (<[bd := write_bytes 0 (convert_groups pix (4 * k) 0 src)
                         dst]> (mem s1)) (allocator s1))
    else Fault.
Proof.
  intros H6 Hb Hne Hsrc Hdst k. unfold bind.
  change (with_frames Fm s1) with (with_mem (mem s1) (with_frames Fm s1)).
  rewrite (block_loop_converts body pix H6 Hb _ _ _ bs bd src dst);
    unfold ptr_add; cbn [offset base]; try done; try lia.
  - rewrite Z.sub_0_r, !Z.add_0_l. fold k.
    destruct (_ && _); reflexivity.
  - rewrite Z.sub_0_r, Z.add_0_l. unfold loop_fuel.
    destruct (Z.le_gt_cases n 0) as [Hn|Hn].
    + rewrite turns_done by lia. lia.
    + assert (turns 24 n <= n); [|lia].
      unfold turns. apply Z.div_le_upper_bound; lia.
Qed.

(** A loop over single bytes started by a kernel. *)
Lemma byte_loop_from_start body off Fm s1 bs bd src dst n :
  copies body off -> 0 <= off <= 1 ->
  bs <> bd -> mem s1 !! bs = Some src -> mem s1 !! bd = Some dst ->
  let m := Z.to_nat n in
  (byte_loop body (loop_fuel n) (mk_ptr (Some bs) 0) (mk_ptr (Some bd) 0)
     (ptr_add (mk_ptr (Some bd) 0) n) ;; ret UVC_SUCCESS)
    (with_frames Fm s1) =
    if (off + 2 * Z.of_nat m - 1 <=? Z.of_nat (length src))
       && (Z.of_nat m <=? Z.of_nat (length dst))
    then Done UVC_SUCCESS
           (mk_state Fm
              (<[bd := write_bytes 0 (every_second m off src) dst]> (mem s1))
              (allocator s1))
    else Fault.
Proof.
  intros Hb Hoff Hne Hsrc Hdst m. unfold bind.
  change (with_frames Fm s1) with (with_mem (mem s1) (with_frames Fm s1)).
  rewrite (byte_loop_copies body off Hb _ _ _ bs bd src dst);
    unfold ptr_add; cbn [offset base]; try done; try lia.
  - rewrite Z.sub_0_r, !Z.add_0_l. fold m.
    destruct (_ && _); reflexivity.
  - rewrite Z.sub_0_r, Z.add_0_l. unfold loop_fuel. lia.
Qed.

Lemma uvc_yuyv2bgr_run in_ out s F s1 G1 :
  frames s !! in_ = Some F -> frames s1 !! in_ = Some F ->
  in_ <> out -> frame_format F = UVC_FRAME_FORMAT_YUYV ->
  uvc_ensure_frame_size out (u32_mul (u32_mul (width F) (height F)) 3) s
    = Done UVC_SUCCESS s1 ->
  frames s1 !! out = Some G1 ->
  uvc_yuyv2bgr in_ out s =
    Done UVC_SUCCESS
      (with_frames
         (<[out := converted_geometry UVC_FRAME_FORMAT_BGR
                     (u32_mul (width F) 3) F G1]> (frames s1)) s1).
Proof.
  intros HF HFc Hne Hfmt He HG1. unfold uvc_yuyv2bgr.
  kernel_prefix HF Hfmt He HFc HG1.
  unfold pixel_bytes. rewrite !bind_assoc.
  erewrite (bind_Done (field _ _)); [| apply field_run; frame_lookup].
  rewrite bind_assoc.
  erewrite (bind_Done (field _ _)); [| apply field_run; frame_lookup].
  reflexivity.
Qed.

Lemma turns_nominal n px :
  0 <= px ->
  let k := Z.of_nat (Z.to_nat (turns 24 n)) in
  (n = 3 * px -> (24 * k <= 3 * px /\ 16 * k <= 2 * px <-> px mod 8 = 0)) /\
  (3 * px < n -> 3 * px < 24 * k).
Proof.
  intros Hpx k. subst k. unfold turns.
  pose proof (Z.div_mod (n + 24 - 1) 24 ltac:(lia)).
  pose proof (Z.mod_pos_bound (n + 24 - 1) 24 ltac:(lia)).
  pose proof (Z.div_mod px 8 ltac:(lia)).
  pose proof (Z.mod_pos_bound px 8 ltac:(lia)).
  split.
  - intros ->.
    assert (0 <= (3 * px + 24 - 1) / 24) by (apply Z.div_pos; lia).
    rewrite Z2Nat.id by lia. lia.
  - intros Hlt.
    assert (0 <= (n + 24 - 1) / 24) by (apply Z.div_pos; lia).
    rewrite Z2Nat.id by lia. lia.
Qed.

Lemma every_second_length m : forall i src, length (every_second m i src) = m.
Proof.
  induction m as [|m IH]; intros i src; simpl; [reflexivity|].
  rewrite IH. reflexivity.
Qed.

Lemma kernels_exact s s1 in_ out F G1 need bs bd src dst :
  sized s s1 in_ out F G1 need bs bd src dst ->
  let n := data_bytes G1 in
  let k := Z.to_nat (turns 24 n) in
  let m := Z.to_nat n in
  let ls := Z.of_nat (length src) in
  let ld := Z.of_nat (length dst) in
  (need = u32_mul (u32_mul (width F) (height F)) 3 ->
   let rgb := converted_geometry UVC_FRAME_FORMAT_RGB
                (u32_mul (width F) 3) F G1 in
   let bgr := converted_geometry UVC_FRAME_FORMAT_BGR
                (u32_mul (width F) 3) F G1 in
   (frame_format F = UVC_FRAME_FORMAT_YUYV ->
    uvc_yuyv2rgb in_ out s =
      (if (16 * Z.of_nat k <=? ls) && (24 * Z.of_nat k <=? ld)
       then completed s1 out rgb bd
              (write_bytes 0 (convert_groups pix_yuyv2rgb (4 * k) 0 src) dst)
       else Fault) /\
    uvc_yuyv2bgr in_ out s =
      Done UVC_SUCCESS (with_frames (<[out := bgr]> (frames s1)) s1)) /\
   (frame_format F = UVC_FRAME_FORMAT_UYVY ->
    uvc_uyvy2rgb in_ out s =
      (if (16 * Z.of_nat k <=? ls) && (24 * Z.of_nat k <=? ld)
       then completed s1 out rgb bd
              (write_bytes 0 (convert_groups pix_uyvy2rgb (4 * k) 0 src) dst)
       else Fault) /\
    uvc_uyvy2bgr in_ out s =
      (if (16 * Z.of_nat k <=? ls) && (24 * Z.of_nat k <=? ld)
       then completed s1 out bgr bd
              (write_bytes 0 (convert_groups pix_uyvy2bgr (4 * k) 0 src) dst)
       else Fault)))
  /\ (need = u32_mul (u32_mul (width F) (height F)) 1 ->
      frame_format F = UVC_FRAME_FORMAT_YUYV ->
      let gray := converted_geometry UVC_FRAME_FORMAT_GRAY8 (width F) F G1 in
      uvc_yuyv2y in_ out s =
        (if (2 * Z.of_nat m - 1 <=? ls) && (Z.of_nat m <=? ld)
         then completed s1 out gray bd
                (write_bytes 0 (every_second m 0 src) dst)
         else Fault) /\
      uvc_yuyv2uv in_ out s =
        (if (2 * Z.of_nat m <=? ls) && (Z.of_nat m <=? ld)
         then completed s1 out gray bd
                (write_bytes 0 (every_second m 1 src) dst)
         else Fault)).
Proof.
  intros Hs n k m ls ld.
  pose proof (sized_frame_kept _ _ _ _ _ _ _ _ _ _ _ Hs) as HFc.
  destruct Hs as (HF & Hne & He & HG1 & HdF & HdG & Hbb & Hsrc & Hdst).
  split.
  - intros -> rgb bgr. split; intros Hfmt; split.
    + rewrite (uvc_yuyv2rgb_run _ _ _ _ _ _ HF HFc Hne Hfmt He HG1).
      rewrite HdF, HdG, yuyv2rgb_loop_shape.
      apply block_loop_from_start;
        auto using pix_yuyv2rgb_six, IYUYV2RGB_8_converts.
    + apply (uvc_yuyv2bgr_run _ _ _ _ _ _ HF HFc Hne Hfmt He HG1).
    + rewrite (uvc_uyvy2rgb_run _ _ _ _ _ _ HF HFc Hne Hfmt He HG1).
      rewrite HdF, HdG, uyvy2rgb_loop_shape.
      apply block_loop_from_start;
        auto using pix_uyvy2rgb_six, IUYVY2RGB_8_converts.
    + rewrite (uvc_uyvy2bgr_run _ _ _ _ _ _ HF HFc Hne Hfmt He HG1).
      rewrite HdF, HdG, uyvy2bgr_loop_shape.
      apply block_loop_from_start;
        auto using pix_uyvy2bgr_six, IUYVY2BGR_8_converts.
  - intros -> Hfmt gray. split.
    + rewrite (uvc_yuyv2y_run _ _ _ _ _ _ HF HFc Hne Hfmt He HG1).
      rewrite HdF, HdG, yuyv2y_loop_shape.
      rewrite (byte_loop_from_start IYUYV2Y 0 _ _ bs bd src dst);
        auto using IYUYV2Y_copies; lia.
    + rewrite (uvc_yuyv2uv_run _ _ _ _ _ _ HF HFc Hne Hfmt He HG1).
      rewrite HdF, HdG, yuyv2uv_loop_shape.
      rewrite (byte_loop_from_start IYUYV2UV 1 _ _ bs bd src dst);
        [ | auto using IYUYV2UV_copies; lia .. ].
      replace (1 + 2 * Z.of_nat (Z.to_nat (data_bytes G1)) - 1)
        with (2 * Z.of_nat m) by (subst m n; lia).
      reflexivity.
Qed.

(** C10, amended.  A kernel whose destination [G1] was sized and whose two
    pixel buffers are distinct blocks runs its loop until the write pointer
    reaches [data_bytes G1], whatever [width * height] is.  The RGB and BGR
    kernels that have a loop ([uvc_yuyv2rgb], [uvc_uyvy2rgb],
    [uvc_uyvy2bgr]; [uvc_yuyv2bgr] has none and stores no pixel) make
    [k = ceil (data_bytes / 24)] turns of eight pixels: they complete exactly
    when the source holds [16 k] bytes and the destination [24 k] bytes, and
    then they have stored the [24 k] converted bytes of the first [16 k]
    source bytes at the start of the destination; any other run is a
    [Fault].  The GRAY8 kernels make [data_bytes] turns and store that many
    bytes: they complete exactly when the destination holds [data_bytes]
    bytes and the source reaches up to the last byte read ([2 m - 1] bytes
    for the luma, [2 m] for the chroma kernel).  [24 k] is [data_bytes]
    rounded up to a multiple of 24: the two agree exactly when 24 divides
    [data_bytes].  With [px] pixels and [data_bytes = 3 px], the [24 k]
    bytes written and [16 k] bytes read fit the nominal [3 px] and [2 px]
    bytes exactly when [px] is a multiple of 8; with [data_bytes] above
    [3 px] the writes pass [3 px]. *)
Theorem kernel_loops_run_to_data_bytes s s1 in_ out F G1 need bs bd src dst :
  sized s s1 in_ out F G1 need bs bd src dst ->
  let n := data_bytes G1 in
  let k := Z.to_nat (turns 24 n) in
  let m := Z.to_nat n in
  let ls := Z.of_nat (length src) in
  let ld := Z.of_nat (length dst) in
  (need = u32_mul (u32_mul (width F) (height F)) 3 ->
   let rgb := converted_geometry UVC_FRAME_FORMAT_RGB
                (u32_mul (width F) 3) F G1 in
   let bgr := converted_geometry UVC_FRAME_FORMAT_BGR
                (u32_mul (width F) 3) F G1 in
   (frame_format F = UVC_FRAME_FORMAT_YUYV ->
    uvc_yuyv2rgb in_ out s =
      (if (16 * Z.of_nat k <=? ls) && (24 * Z.of_nat k <=? ld)
       then completed s1 out rgb bd
              (write_bytes 0 (convert_groups pix_yuyv2rgb (4 * k) 0 src) dst)
       else Fault) /\
    uvc_yuyv2bgr in_ out s =
      Done UVC_SUCCESS (with_frames (<[out := bgr]> (frames s1)) s1)) /\
   (frame_format F = UVC_FRAME_FORMAT_UYVY ->
    uvc_uyvy2rgb in_ out s =
      (if (16 * Z.of_nat k <=? ls) && (24 * Z.of_nat k <=? ld)
       then completed s1 out rgb bd
              (write_bytes 0 (convert_groups pix_uyvy2rgb (4 * k) 0 src) dst)
       else Fault) /\
    uvc_uyvy2bgr in_ out s =
      (if (16 * Z.of_nat k <=? ls) && (24 * Z.of_nat k <=? ld)
       then completed s1 out bgr bd
              (write_bytes 0 (convert_groups pix_uyvy2bgr (4 * k) 0 src) dst)
       else Fault)))
  /\ (need = u32_mul (u32_mul (width F) (height F)) 1 ->
      frame_format F = UVC_FRAME_FORMAT_YUYV ->
      let gray := converted_geometry UVC_FRAME_FORMAT_GRAY8 (width F) F G1 in
      uvc_yuyv2y in_ out s =
        (if (2 * Z.of_nat m - 1 <=? ls) && (Z.of_nat m <=? ld)
         then completed s1 out gray bd
                (write_bytes 0 (every_second m 0 src) dst)
         else Fault) /\
      uvc_yuyv2uv in_ out s =
        (if (2 * Z.of_nat m <=? ls) && (Z.of_nat m <=? ld)
         then completed s1 out gray bd
                (write_bytes 0 (every_second m 1 src) dst)
         else Fault))
  /\ (forall pix, six_bytes pix ->
        length (convert_groups pix (4 * k) 0 src) = (24 * k)%nat)
  /\ length (every_second m 0 src) = m
  /\ length (every_second m 1 src) = m
  /\ (0 <= n ->
      Z.of_nat m = n /\
      n <= 24 * Z.of_nat k < n + 24 /\
      (24 * Z.of_nat k = n <-> n mod 24 = 0))
  /\ (forall px, 0 <= px ->
        (n = 3 * px ->
           (24 * Z.of_nat k <= 3 * px /\ 16 * Z.of_nat k <= 2 * px
            <-> px mod 8 = 0)) /\
        (3 * px < n -> 3 * px < 24 * Z.of_nat k)).
Proof.
  intros Hs n k m ls ld.
  destruct (kernels_exact _ _ _ _ _ _ _ _ _ _ _ Hs) as [Hrgb Hgray].
  split; [exact Hrgb|]. split; [exact Hgray|].
  split; [intros pix H6; rewrite (convert_groups_length _ _ H6); lia|].
  split; [apply every_second_length|]. split; [apply every_second_length|].
  split.
  - intros Hn. subst k m. unfold turns.
    assert (0 <= (n + 24 - 1) / 24) by (apply Z.div_pos; lia).
    rewrite !Z2Nat.id by lia.
    pose proof (Z.div_mod (n + 24 - 1) 24 ltac:(lia)).
    pose proof (Z.mod_pos_bound (n + 24 - 1) 24 ltac:(lia)).
    pose proof (Z.div_mod n 24 ltac:(lia)).
    pose proof (Z.mod_pos_bound n 24 ltac:(lia)).
    split; [reflexivity|]. split; [lia|].
    split; intros E.
    + rewrite <- E. rewrite Z.mul_comm. apply Z.mod_mul. lia.
    + lia.
  - intros px Hpx. apply turns_nominal. exact Hpx.
Qed.

(** ** The claims about pixel groups and loops *)

Lemma with_mem_id s : with_mem (mem s) s = s.
Proof. destruct s; reflexivity. Qed.

Lemma write_bytes_prefix new : forall j l,
  (j + length new <= length l)%nat ->
  write_bytes j new l = take j l ++ new ++ drop (j + length new) l.
Proof.
  induction new as [|v vs IH]; intros j l Hlen; simpl.
  - rewrite Nat.add_0_r, take_drop. reflexivity.
  - simpl in Hlen. rewrite IH by (rewrite length_insert; lia).
    rewrite (take_S_r _ _ v) by (apply list_lookup_insert_eq; lia).
    rewrite take_insert_ge by lia.
    rewrite drop_insert_lt by lia.
    rewrite <- app_assoc.
    replace (j + S (length vs))%nat with (S j + length vs)%nat by lia.
    reflexivity.
Qed.

Lemma byte_at_byte src i : Forall is_byte src -> is_byte (byte_at src i).
Proof.
  intros H. unfold byte_at.
  destruct (src !! Z.to_nat i) as [v|] eqn:E; simpl.
  - eapply Forall_lookup_1; eauto.
  - unfold is_byte. lia.
Qed.

Lemma convert_groups_exact src m : Forall is_byte src -> forall i,
  convert_groups pix_yuyv2rgb m i src = convert_groups yuyv_rgb_exact m i src.
Proof.
  intros H. induction m as [|m IH]; intros i; cbn [convert_groups];
    [reflexivity|].
  rewrite IH, pix_yuyv2rgb_exact by (apply byte_at_byte; exact H).
  reflexivity.
Qed.

Lemma convert_groups_bytes src m : forall i,
  Forall is_byte (convert_groups yuyv_rgb_exact m i src).
Proof.
  induction m as [|m IH]; intros i; simpl; [constructor|].
  repeat (constructor; [apply clamp_byte|]). apply IH.
Qed.

Lemma pix_exact_six : six_bytes yuyv_rgb_exact.
Proof. intros ? ? ? ?. reflexivity. Qed.

(** C1.  [uvc_yuyv2rgb] on a YUYV source of bytes, with a destination that
    was sized and two distinct pixel buffers that hold the [k] blocks of the
    loop.  The call succeeds, and for every 4-byte group [(y0, u, y1, v)] of
    the source, in order, the destination receives the six bytes
    [clamp (y0 + r)], [clamp (y0 + g)], [clamp (y0 + b)], [clamp (y1 + r)],
    [clamp (y1 + g)], [clamp (y1 + b)], where [r], [g], [b] are the exact
    shifted products; the rest of the buffer is as before.  Every byte
    stored is in [0, 255]; [sat] is the clamp on every [int]; on bytes the
    [int] arithmetic of the macro has the exact values (nothing wraps); and
    the macro [IYUYV2RGB_2] itself stores these six bytes for one group
    anywhere in two distinct buffers. *)
Theorem uvc_yuyv2rgb_saturates s s1 in_ out F G1 bs bd src dst :
  sized s s1 in_ out F G1 (u32_mul (u32_mul (width F) (height F)) 3)
    bs bd src dst ->
  frame_format F = UVC_FRAME_FORMAT_YUYV ->
  Forall is_byte src ->
  let k := Z.to_nat (turns 24 (data_bytes G1)) in
  (16 * k <= length src)%nat -> (24 * k <= length dst)%nat ->
  uvc_yuyv2rgb in_ out s =
    completed s1 out
      (converted_geometry UVC_FRAME_FORMAT_RGB (u32_mul (width F) 3) F G1)
      bd (convert_groups yuyv_rgb_exact (4 * k) 0 src ++ drop (24 * k) dst)
  /\ Forall is_byte (convert_groups yuyv_rgb_exact (4 * k) 0 src)
  /\ (forall x, sat x = clamp x /\ 0 <= sat x <= 255)
  /\ (forall y0 u y1 v,
        is_byte y0 -> is_byte u -> is_byte y1 -> is_byte v ->
        pix_yuyv2rgb y0 u y1 v = yuyv_rgb_exact y0 u y1 v)
  /\ (forall t cs cd row room i j y0 u y1 v,
        cs <> cd -> mem t !! cs = Some row -> mem t !! cd = Some room ->
        0 <= i -> 0 <= j -> j + 6 <= Z.of_nat (length room) ->
        row !! Z.to_nat i = Some y0 -> row !! Z.to_nat (i + 1) = Some u ->
        row !! Z.to_nat (i + 2) = Some y1 ->
        row !! Z.to_nat (i + 3) = Some v ->
        is_byte y0 -> is_byte u -> is_byte y1 -> is_byte v ->
        IYUYV2RGB_2 (mk_ptr (Some cs) i) (mk_ptr (Some cd) j) t =
          Done tt
            (with_mem
               (<[cd := take (Z.to_nat j) room ++ yuyv_rgb_exact y0 u y1 v
                        ++ drop (Z.to_nat j + 6) room]> (mem t)) t)).
Proof.
  intros Hs Hfmt Hbytes k Hls Hld.
  split; [|split; [|split; [|split]]].
  - destruct (kernels_exact _ _ _ _ _ _ _ _ _ _ _ Hs) as [H _].
    destruct (H eq_refl) as [H1 _]. destruct (H1 Hfmt) as [-> _]. fold k.
    assert ((16 * Z.of_nat k <=? Z.of_nat (length src)) = true) as -> by lia.
    assert ((24 * Z.of_nat k <=? Z.of_nat (length dst)) = true) as -> by lia.
    cbn [andb]. rewrite (convert_groups_exact _ _ Hbytes).
    rewrite write_bytes_prefix
      by (rewrite (convert_groups_length _ _ pix_exact_six); lia).
    rewrite (convert_groups_length _ _ pix_exact_six).
    replace (0 + 6 * (4 * k))%nat with (24 * k)%nat by lia. reflexivity.
  - apply convert_groups_bytes.
  - intros x. rewrite sat_clamp. split; [reflexivity|].
    pose proof (clamp_byte x) as Hb. unfold is_byte in Hb. lia.
  - apply pix_yuyv2rgb_exact.
  - intros t cs cd row room i j y0 u y1 v Hne Hrow Hroom Hi Hj Hfit
      E0 E1 E2 E3 B0 Bu B1 Bv.
    rewrite <- (with_mem_id t) at 1.
    rewrite (IYUYV2RGB_2_converts (mem t) t cs cd row room i j) by done.
    pose proof (lookup_lt_Some _ _ _ E3).
    change (Z.of_nat 1) with 1.
    assert ((i + 4 * 1 <=? Z.of_nat (length row)) = true) as -> by lia.
    assert ((j + 6 * 1 <=? Z.of_nat (length room)) = true) as -> by lia.
    cbn [andb convert_groups]. unfold byte_at.
    rewrite E0, E1, E2, E3. cbn [default]. rewrite app_nil_r.
    rewrite pix_yuyv2rgb_exact by done.
    rewrite write_bytes_prefix by (simpl; lia). reflexivity.
Qed.

Lemma uvc_yuyv2rgb_saturates_witness :
  exists s1 G1,
    sized st_extreme81 s1 1 2 gray81 G1 24 1 2 extreme16 (replicate 24 0) /\
    uvc_yuyv2rgb 1 2 st_extreme81 =
      completed s1 2
        (converted_geometry UVC_FRAME_FORMAT_RGB 24 gray81 G1) 2
        [ 75; 255; 255; 75; 255; 255; 75; 255; 255; 75; 255; 255;
          75; 255; 255; 75; 255; 255; 75; 255; 255; 75; 255; 255 ].
Proof.
  assert (exists s1 G1,
            sized st_extreme81 s1 1 2 gray81 G1 24 1 2 extreme16
              (replicate 24 0) /\
            data_bytes G1 = 24) as (s1 & G1 & Hs & Hn).
  { do 2 eexists. unfold sized. split.
    - split; [reflexivity|]. split; [discriminate|].
      split; [vm_compute; reflexivity|].
      split; [vm_compute; reflexivity|].
      repeat split; try reflexivity; discriminate.
    - reflexivity. }
  exists s1, G1. split; [exact Hs|].
  assert (Forall is_byte extreme16) as Hb
    by (repeat constructor; unfold is_byte; lia).
  destruct (uvc_yuyv2rgb_saturates _ _ _ _ _ _ _ _ _ _ Hs eq_refl Hb)
    as [H _]; rewrite ?Hn.
  - vm_compute. lia.
  - vm_compute. lia.
  - rewrite H, Hn. reflexivity.
Defined.

(** C6.  The 4x1 scenario on the code.  The destination is sized to
    [4 * 1 * 3 = 12] bytes, then the first turn of the loop expands
    [IYUYV2RGB_8]: it reads 16 source bytes of the 8 there are and would
    store 24 bytes into the 12 there are.  The run leaves the buffers: its
    outcome is [Fault], not four pixels.  The same pixels as an 8x1 frame
    (16 source bytes) convert to 24 bytes of 235. *)
Theorem yuyv2rgb_4x1_overruns :
  (exists s1, uvc_ensure_frame_size 2 12 st_gray41 = Done UVC_SUCCESS s1 /\
     mem s1 !! 1%positive = Some [235; 128; 235; 128; 235; 128; 235; 128] /\
     mem s1 !! 2%positive = Some (replicate 12 0))
  /\ uvc_yuyv2rgb 1 2 st_gray41 = Fault
  /\ (exists s', uvc_yuyv2rgb 1 2 st_gray81 = Done UVC_SUCCESS s' /\
        mem s' !! 2%positive = Some (replicate 24 235)).
Proof.
  split; [|split].
  - eexists. split; [vm_compute; reflexivity|]. split; reflexivity.
  - vm_compute. reflexivity.
  - eexists. split; [vm_compute; reflexivity|]. reflexivity.
Qed.

(** C10, as stated, fails: the bytes written need not be [data_bytes].  A
    4x1 source and a borrowed destination announcing the 12 bytes that
    [width * height * 3] asks for, at the start of a larger buffer:
    [uvc_yuyv2rgb] succeeds, [data_bytes] is 12, and 24 bytes of the buffer
    were changed. *)
Lemma yuyv2rgb_writes_beyond_data_bytes :
  exists s' G' dst',
    uvc_yuyv2rgb 1 2 st_over = Done UVC_SUCCESS s' /\
    frames s' !! 2%positive = Some G' /\ data G' = Some 2%positive /\
    data_bytes G' = 12 /\ width G' * height G' * 3 = 12 /\
    mem s' !! 2%positive = Some dst' /\
    bytes_changed (replicate 24 0) dst' = 24%nat.
Proof.
  do 3 eexists. split; [vm_compute; reflexivity|].
  split; [reflexivity|]. repeat split; vm_compute; reflexivity.
Qed.

Lemma kernel_loops_run_to_data_bytes_witness :
  exists s1 G1,
    sized st_gray81 s1 1 2 gray81 G1 24 1 2 gray16 (replicate 24 0) /\
    uvc_yuyv2rgb 1 2 st_gray81 =
      completed s1 2
        (converted_geometry UVC_FRAME_FORMAT_RGB 24 gray81 G1) 2
        (replicate 24 235).
Proof.
  assert (exists s1 G1,
            sized st_gray81 s1 1 2 gray81 G1 24 1 2 gray16 (replicate 24 0) /\
            data_bytes G1 = 24) as (s1 & G1 & Hs & Hn).
  { do 2 eexists. unfold sized. split.
    - split; [reflexivity|]. split; [discriminate|].
      split; [vm_compute; reflexivity|].
      split; [vm_compute; reflexivity|].
      repeat split; try reflexivity; discriminate.
    - reflexivity. }
  exists s1, G1. split; [exact Hs|].
  destruct (kernel_loops_run_to_data_bytes _ _ _ _ _ _ _ _ _ _ _ Hs)
    as [H _].
  destruct (H eq_refl) as [H1 _]. destruct (H1 eq_refl) as [H2 _].
  rewrite H2, Hn. reflexivity.
Defined.

(** * Further properties of the code *)

(** ** The frame lifecycle *)

Lemma next_choice_inv s c s0 :
  next_choice s = (c, s0) -> frames s0 = frames s /\ mem s0 = mem s.
Proof.
  unfold next_choice. destruct (allocator s); intros [= <- <-]; auto.
Qed.

Lemma malloc_frame_inv s r s1 :
  malloc_frame s = Done r s1 ->
  mem s1 = mem s /\
  match r with
  | None => frames s1 = frames s
  | Some p => frames s !! p = None /\ frames s1 = <[p := zero_frame]> (frames s)
  end.
Proof.
  unfold malloc_frame. destruct (next_choice s) as [c s0] eqn:Hc.
  apply next_choice_inv in Hc as [Hfr Hm].
  destruct c; intros [= <- <-]; simpl; rewrite ?Hfr, ?Hm; split; auto.
  all: split; [apply not_elem_of_dom, is_fresh | reflexivity].
Qed.

Lemma malloc_frame_total s : exists r s1, malloc_frame s = Done r s1.
Proof.
  unfold malloc_frame. destruct (next_choice s) as [c s0].
  destruct c; eauto.
Qed.

Lemma malloc_inv n s r s1 :
  malloc n s = Done r s1 ->
  frames s1 = frames s /\
  match r with
  | None => mem s1 = mem s
  | Some b =>
      mem s !! b = None /\
      mem s1 = <[b := replicate (Z.to_nat n) 0]> (mem s)
  end.
Proof.
  unfold malloc, realloc. destruct (next_choice s) as [c s0] eqn:Hc.
  apply next_choice_inv in Hc as [Hfr Hm].
  destruct c; intros [= <- <-]; simpl; rewrite ?Hfr, ?Hm; split; auto.
  all: split; [rewrite <- Hm; apply fresh_block_dead|].
  all: unfold resize; rewrite take_nil; simpl; rewrite Nat.sub_0_r;
    reflexivity.
Qed.

Lemma malloc_total n s : exists r s1, malloc n s = Done r s1.
Proof.
  unfold malloc, realloc. destruct (next_choice s) as [c s0].
  destruct c; eauto.
Qed.

Lemma set_frame_inv p upd s s' :
  set_frame p upd s = Done tt s' ->
  exists f, frames s !! p = Some f /\
            s' = with_frames (<[p := upd f]> (frames s)) s.
Proof.
  unfold set_frame. destruct (frames s !! p) as [f|]; [|discriminate].
  intros [= <-]. eauto.
Qed.

Lemma set_frame_run p upd (Fm : gmap fptr uvc_frame_t) s f :
  Fm !! p = Some f ->
  set_frame p upd (with_frames Fm s) = Done tt (with_frames (<[p := upd f]> Fm) s).
Proof. intros H. unfold set_frame. simpl. rewrite H. reflexivity. Qed.

Lemma get_frame_run p (Fm : gmap fptr uvc_frame_t) s f :
  Fm !! p = Some f ->
  get_frame p (with_frames Fm s) = Done f (with_frames Fm s).
Proof. intros H. unfold get_frame. simpl. rewrite H. reflexivity. Qed.

Lemma allocate_run n s :
  uvc_allocate_frame n s =
    match malloc_frame s with
    | Done None s1 => Done None s1
    | Done (Some p) s1 =>
        let fs := <[p := set_library_owns_data true zero_frame]> (frames s1) in
        if 0 <? n then
          match malloc n
                  (with_frames
                     (<[p := set_data_bytes n (set_library_owns_data true zero_frame)]> fs)
                     s1) with
          | Done d s2 =>
              if is_null d then Done None (with_frames (delete p (frames s2)) s2)
              else Done (Some p)
                     (with_frames (<[p := new_frame n d]> (frames s2)) s2)
          | Fault => Fault
          | OutOfFuel => OutOfFuel
          end
        else Done (Some p) (with_frames fs s1)
    | Fault => Fault
    | OutOfFuel => OutOfFuel
    end.
Proof.
  unfold uvc_allocate_frame. unfold bind at 1.
  destruct (malloc_frame s) as [[p|] s1| |] eqn:Hm; try reflexivity.
  apply malloc_frame_inv in Hm as [_ [_ Hfr]].
  assert (frames s1 !! p = Some zero_frame) as Hp
    by (rewrite Hfr; apply lookup_insert_eq).
  rewrite (bind_Done _ _ _ _ _ (set_frame_Done _ _ _ _ Hp)).
  rewrite (bind_Done _ _ _ _ _ (set_frame_run _ _ _ _ _ (lookup_insert_eq _ _ _))).
  rewrite insert_insert_eq.
  destruct (0 <? n) eqn:Hn; [|reflexivity].
  rewrite (bind_Done _ _ _ _ _ (set_frame_run _ _ _ _ _ (lookup_insert_eq _ _ _))).
  rewrite !insert_insert_eq.
  unfold bind at 1.
  match goal with |- context [malloc n ?st] => set (s1' := st) end.
  destruct (malloc n s1') as [d s2| |] eqn:Hd; try reflexivity.
  apply malloc_inv in Hd as [Hfr2 _].
  assert (frames s2 !! p =
          Some (set_data_bytes n (set_library_owns_data true zero_frame)))
    as Hp2 by (rewrite Hfr2; apply lookup_insert_eq).
  rewrite (bind_Done _ _ _ _ _ (set_frame_Done _ (set_data d) _ _ Hp2)).
  rewrite (bind_Done _ _ _ _ _ (get_frame_run _ _ _ _ (lookup_insert_eq _ _ _))).
  unfold new_frame. rewrite Hn.
  destruct d as [b|]; simpl.
  - reflexivity.
  - unfold bind, free_frame. simpl frames. rewrite lookup_insert_eq.
    unfold ret, with_frames. simpl. rewrite delete_insert_eq. reflexivity.
Qed.

Lemma new_frame_fields n d :
  library_owns_data (new_frame n d) = true /\
  width (new_frame n d) = 0 /\ height (new_frame n d) = 0 /\
  frame_format (new_frame n d) = UVC_FRAME_FORMAT_UNKNOWN /\
  metadata (new_frame n d) = None /\ metadata_bytes (new_frame n d) = 0 /\
  (0 < n -> data (new_frame n d) = d /\ data_bytes (new_frame n d) = n) /\
  (n <= 0 -> data (new_frame n d) = None /\ data_bytes (new_frame n d) = 0).
Proof.
  unfold new_frame. destruct (0 <? n) eqn:Hn; simpl; repeat split; auto.
  all: try (intros; apply Z.ltb_lt in Hn; lia).
  all: intros; apply Z.ltb_ge in Hn; lia.
Qed.

Lemma allocate_inv n s p s' :
  uvc_allocate_frame n s = Done (Some p) s' ->
  frames s !! p = None /\
  exists d, frames s' = <[p := new_frame n d]> (frames s) /\
    (n <= 0 -> mem s' = mem s) /\
    (0 < n -> exists b, d = Some b /\ mem s !! b = None /\
                mem s' = <[b := replicate (Z.to_nat n) 0]> (mem s)).
Proof.
  rewrite allocate_run.
  destruct (malloc_frame s) as [[q|] s1| |] eqn:Hm; try discriminate.
  apply malloc_frame_inv in Hm as [Hmem [Hq Hfr]]. cbv zeta.
  destruct (0 <? n) eqn:Hn.
  - apply Z.ltb_lt in Hn.
    match goal with |- context [malloc n ?st] => set (s1' := st) end.
    destruct (malloc n s1') as [d s2| |] eqn:Hd; try discriminate.
    apply malloc_inv in Hd as [Hfr2 Hd].
    destruct d as [b|]; simpl; [|discriminate].
    intros [= <- <-]. split; [exact Hq|]. exists (Some b). simpl.
    destruct Hd as [Hb Hm2]. subst s1'. simpl in *.
    rewrite Hfr2, Hfr, !insert_insert_eq. split; [reflexivity|].
    split; [lia|]. intros _. exists b. rewrite <- Hmem. auto.
  - apply Z.ltb_ge in Hn. intros [= <- <-]. split; [exact Hq|].
    exists None. simpl. rewrite Hfr, insert_insert_eq.
    unfold new_frame. replace (0 <? n) with false by (symmetry; apply Z.ltb_ge; lia).
    split; [reflexivity|]. split; [auto|lia].
Qed.

(** X1.  A frame that [uvc_allocate_frame] returns lives at an address
    that designated no frame, and every other frame is as before.  It owns
    its data, and its geometry, format and metadata fields are zero.  For a
    request of 0 bytes it has no buffer, [data_bytes] is 0 and the memory is
    as before; for a positive request [data_bytes] is the request and [data]
    is a block that did not exist, of exactly that many bytes, while every
    other block is as before. *)
Theorem uvc_allocate_frame_fresh n s p s' :
  uvc_allocate_frame n s = Done (Some p) s' ->
  frames s !! p = None /\
  (forall q, q <> p -> frames s' !! q = frames s !! q) /\
  exists f, frames s' !! p = Some f /\
    library_owns_data f = true /\ width f = 0 /\ height f = 0 /\
    frame_format f = UVC_FRAME_FORMAT_UNKNOWN /\
    metadata f = None /\ metadata_bytes f = 0 /\
    (n <= 0 -> data f = None /\ data_bytes f = 0 /\ mem s' = mem s) /\
    (0 < n -> data_bytes f = n /\
       exists b l, data f = Some b /\ mem s !! b = None /\
         mem s' !! b = Some l /\ Z.of_nat (length l) = n /\
         forall c, c <> b -> mem s' !! c = mem s !! c).
Proof.
  intros H. apply allocate_inv in H as (Hp & d & Hfr & H0 & H1).
  split; [exact Hp|]. split.
  { intros q Hq. rewrite Hfr. apply lookup_insert_ne. congruence. }
  exists (new_frame n d). rewrite Hfr, lookup_insert_eq.
  destruct (new_frame_fields n d) as (? & ? & ? & ? & ? & ? & Hpos & Hzero).
  repeat (split; [assumption || reflexivity|]). split.
  - intros Hn. destruct (Hzero Hn). auto.
  - intros Hn. destruct (Hpos Hn) as [Hd Hb]. split; [exact Hb|].
    destruct (H1 Hn) as (b & -> & Hdead & Hm).
    exists b, (replicate (Z.to_nat n) 0). rewrite Hd, Hm, lookup_insert_eq.
    repeat split; auto.
    + rewrite length_replicate. lia.
    + intros c Hc. apply lookup_insert_ne. congruence.
Qed.

Lemma uvc_allocate_frame_fresh_witness :
  exists p s',
    uvc_allocate_frame 12 st_alloc_ok = Done (Some p) s' /\
    frames st_alloc_ok !! p = None.
Proof.
  eexists _, _.
  assert (uvc_allocate_frame 12 st_alloc_ok = Done (Some _) _) as H
    by (vm_compute; reflexivity).
  split; [exact H|].
  destruct (uvc_allocate_frame_fresh _ _ _ _ H) as [Hp _]. exact Hp.
Defined.

(** X2.  [uvc_allocate_frame] always returns.  When it returns [NULL],
    because either the structure or the buffer could not be obtained, it
    leaves no frame and no block behind: the structure obtained first is
    released again when the buffer fails. *)
Theorem uvc_allocate_frame_returns n s :
  exists r s', uvc_allocate_frame n s = Done r s' /\
    (r = None -> frames s' = frames s /\ mem s' = mem s).
Proof.
  rewrite allocate_run.
  destruct (malloc_frame_total s) as (r & s1 & Hm). rewrite Hm.
  apply malloc_frame_inv in Hm as [Hmem Hr].
  destruct r as [p|]; [|eauto].
  destruct Hr as [Hp Hfr]. cbv zeta.
  destruct (0 <? n); [|eexists _, _; split; [reflexivity|discriminate]].
  match goal with |- context [malloc n ?st] => set (s1' := st) end.
  destruct (malloc_total n s1') as (d & s2 & Hd). rewrite Hd.
  apply malloc_inv in Hd as [Hfr2 Hd].
  destruct d as [b|]; simpl.
  - eexists _, _; split; [reflexivity|discriminate].
  - eexists _, _; split; [reflexivity|]. intros _. simpl.
    rewrite Hfr2, Hd. subst s1'. simpl.
    rewrite Hfr, !insert_insert_eq, Hmem.
    split; [apply delete_insert_id; exact Hp | reflexivity].
Qed.

Lemma uvc_allocate_frame_returns_witness :
  exists r s',
    uvc_allocate_frame 12 st_alloc_fails = Done r s' /\
    (r = None ->
     frames s' = frames st_alloc_fails /\ mem s' = mem st_alloc_fails).
Proof.
  exact (uvc_allocate_frame_returns 12 st_alloc_fails).
Defined.

Lemma free_inv p s s' :
  free p s = Done tt s' ->
  match p with
  | None => s' = s
  | Some b => is_Some (mem s !! b) /\ s' = with_mem (delete b (mem s)) s
  end.
Proof.
  unfold free. destruct p as [b|]; [|intros [= <-]; reflexivity].
  destruct (mem s !! b) eqn:Hb; [|discriminate].
  intros [= <-]. eauto.
Qed.

Lemma uvc_free_frame_run ts p s f :
  frames s !! p = Some f ->
  uvc_free_frame ts p s =
    if library_owns_data f then
      match (if 0 <? data_bytes f then free (data f) s else Done tt s) with
      | Done _ s1 =>
          match (if 0 <? metadata_bytes f then free (metadata f) s1
                 else Done tt s1) with
          | Done _ s2 =>
              match free (ts p) s2 with
              | Done _ s3 => Done tt (with_frames (delete p (frames s)) s3)
              | Fault => Fault
              | OutOfFuel => OutOfFuel
              end
          | Fault => Fault
          | OutOfFuel => OutOfFuel
          end
      | Fault => Fault
      | OutOfFuel => OutOfFuel
      end
    else Done tt (with_frames (delete p (frames s)) s).
Proof.
  intros Hf. unfold uvc_free_frame.
  rewrite (bind_Done _ _ _ _ _ (get_frame_Done _ _ _ Hf)).
  destruct (library_owns_data f).
  - rewrite !bind_assoc.
    rewrite (bind_Done _ _ _ _ _ (get_frame_Done _ _ _ Hf)).
    assert (forall q t t', free q t = Done tt t' -> frames t' = frames t) as Hkeep.
    { intros q t t' H. apply free_inv in H. destruct q as [b|].
      - destruct H as [_ ->]. reflexivity.
      - subst. reflexivity. }
    unfold bind at 1.
    set (c1 := if 0 <? data_bytes f then free (data f) else ret tt).
    replace (if 0 <? data_bytes f then free (data f) s else Done tt s)
      with (c1 s) by (subst c1; destruct (0 <? data_bytes f); reflexivity).
    destruct (c1 s) as [[] s1| |] eqn:H1; try reflexivity.
    assert (frames s1 = frames s) as Hfr1.
    { subst c1. destruct (0 <? data_bytes f); [eapply Hkeep; eauto|].
      inversion H1; reflexivity. }
    assert (frames s1 !! p = Some f) as Hf1 by (rewrite Hfr1; exact Hf).
    rewrite !bind_assoc.
    rewrite (bind_Done _ _ _ _ _ (get_frame_Done _ _ _ Hf1)).
    unfold bind at 1.
    set (c2 := if 0 <? metadata_bytes f then free (metadata f) else ret tt).
    replace (if 0 <? metadata_bytes f then free (metadata f) s1 else Done tt s1)
      with (c2 s1) by (subst c2; destruct (0 <? metadata_bytes f); reflexivity).
    destruct (c2 s1) as [[] s2| |] eqn:H2; try reflexivity.
    assert (frames s2 = frames s) as Hfr2.
    { rewrite <- Hfr1. subst c2.
      destruct (0 <? metadata_bytes f); [eapply Hkeep; eauto|].
      inversion H2; reflexivity. }
    unfold bind at 1.
    replace ((if negb (is_null (ts p)) then free (ts p) else ret tt) s2)
      with (free (ts p) s2) by (destruct (ts p); reflexivity).
    destruct (free (ts p) s2) as [[] s3| |] eqn:H3; try reflexivity.
    assert (frames s3 = frames s) as Hfr3
      by (rewrite <- Hfr2; eapply Hkeep; eauto).
    unfold free_frame. rewrite Hfr3, Hf. reflexivity.
  - rewrite bind_ret. unfold free_frame. rewrite Hf. reflexivity.
Qed.

Lemma guarded_free_inv (c : bool) q t t' :
  (if c then free q t else Done tt t) = Done tt t' ->
  frames t' = frames t /\ allocator t' = allocator t /\
  forall b, mem t' !! b =
            if c && bool_decide (q = Some b) then None else mem t !! b.
Proof.
  destruct c; simpl.
  - intros H. apply free_inv in H. destruct q as [b0|].
    + destruct H as [_ ->]. simpl. repeat split. intros b.
      destruct (bool_decide_reflect (Some b0 = Some b)) as [[= ->]|Hne].
      * apply lookup_delete_eq.
      * apply lookup_delete_ne. congruence.
    + subst. repeat split.
  - intros [= <-]. repeat split.
Qed.

(** X3.  What [uvc_free_frame] releases.  The frame structure always
    goes; the allocator is not consulted.  A block is handed to [free]
    exactly when the frame owns its data and the block is its [data] with a
    positive [data_bytes], its [metadata] with a positive [metadata_bytes],
    or its timestamp allocation; every other block is as before.  For a
    borrowed frame the memory is untouched as a whole, so the caller's
    buffer survives.  A second release of the same pointer is undefined: its
    outcome is [Fault]. *)
Theorem uvc_free_frame_effect ts s p f s' :
  frames s !! p = Some f ->
  uvc_free_frame ts p s = Done tt s' ->
  frames s' = delete p (frames s) /\ allocator s' = allocator s /\
  (forall b, mem s' !! b = if released ts p f b then None else mem s !! b) /\
  (library_owns_data f = false -> mem s' = mem s) /\
  uvc_free_frame ts p s' = Fault.
Proof.
  intros Hf H.
  assert (frames s' = delete p (frames s)) as Hgone.
  { rewrite (uvc_free_frame_run _ _ _ _ Hf) in H.
    destruct (library_owns_data f); [|injection H as <-; reflexivity].
    destruct (if 0 <? data_bytes f then free (data f) s else Done tt s)
      as [[] s1| |]; try discriminate.
    destruct (if 0 <? metadata_bytes f then free (metadata f) s1
              else Done tt s1) as [[] s2| |]; try discriminate.
    destruct (free (ts p) s2) as [[] s3| |]; try discriminate.
    injection H as <-. reflexivity. }
  assert (uvc_free_frame ts p s' = Fault) as Hagain.
  { unfold uvc_free_frame. apply bind_Fault. unfold get_frame.
    rewrite Hgone, lookup_delete_eq. reflexivity. }
  rewrite (uvc_free_frame_run _ _ _ _ Hf) in H.
  unfold released. destruct (library_owns_data f).
  - destruct (if 0 <? data_bytes f then free (data f) s else Done tt s)
      as [[] s1| |] eqn:H1; try discriminate.
    destruct (if 0 <? metadata_bytes f then free (metadata f) s1
              else Done tt s1) as [[] s2| |] eqn:H2; try discriminate.
    destruct (free (ts p) s2) as [[] s3| |] eqn:H3; try discriminate.
    injection H as <-.
    apply guarded_free_inv in H1 as (F1 & A1 & M1).
    apply guarded_free_inv in H2 as (F2 & A2 & M2).
    apply (guarded_free_inv true) in H3 as (F3 & A3 & M3).
    simpl. split; [reflexivity|]. split; [congruence|].
    split; [|split; [discriminate | exact Hagain]]. intros b.
    rewrite M3, M2, M1. simpl.
    destruct (0 <? data_bytes f), (0 <? metadata_bytes f),
      (bool_decide (data f = Some b)), (bool_decide (metadata f = Some b)),
      (bool_decide (ts p = Some b)); reflexivity.
  - injection H as <-. simpl. repeat split. exact Hagain.
Qed.

Lemma uvc_free_frame_effect_witness :
  exists s',
    frames st_owner50 !! 1%positive = Some owner50 /\
    uvc_free_frame no_time_stamp 1 st_owner50 = Done tt s' /\
    frames s' = delete 1%positive (frames st_owner50) /\
    mem s' !! 4%positive = None.
Proof.
  eexists.
  assert (frames st_owner50 !! 1%positive = Some owner50) as Hf
    by reflexivity.
  assert (uvc_free_frame no_time_stamp 1 st_owner50 = Done tt _) as H
    by (vm_compute; reflexivity).
  split; [exact Hf|]. split; [exact H|].
  destruct (uvc_free_frame_effect _ _ _ _ _ Hf H) as (Hfr & _ & Hm & _).
  split; [exact Hfr|]. rewrite Hm. reflexivity.
Defined.

(** X4.  Allocation followed by release is a round trip: a frame from
    [uvc_allocate_frame], with no timestamp allocation attached, is released
    without fault, and the frames and the memory are as before the
    allocation. *)
Theorem allocate_then_free ts n s p s1 :
  uvc_allocate_frame n s = Done (Some p) s1 ->
  ts p = None ->
  exists s2, uvc_free_frame ts p s1 = Done tt s2 /\
             frames s2 = frames s /\ mem s2 = mem s.
Proof.
  intros H Hts. apply allocate_inv in H as (Hp & d & Hfr & H0 & H1).
  assert (frames s1 !! p = Some (new_frame n d)) as Hf
    by (rewrite Hfr; apply lookup_insert_eq).
  rewrite (uvc_free_frame_run _ _ _ _ Hf), Hts.
  destruct (new_frame_fields n d) as (-> & _ & _ & _ & _ & -> & Hpos & Hzero).
  simpl.
  destruct (Z_lt_le_dec 0 n) as [Hn|Hn].
  - destruct (Hpos Hn) as [-> ->].
    destruct (H1 Hn) as (b & -> & Hdead & Hm).
    replace (0 <? n) with true by (symmetry; apply Z.ltb_lt; lia).
    unfold free. rewrite Hm, lookup_insert_eq. simpl.
    eexists; split; [reflexivity|]. simpl.
    rewrite Hfr, delete_insert_id by exact Hp.
    rewrite delete_insert_id by exact Hdead. auto.
  - destruct (Hzero Hn) as [_ ->]. simpl.
    eexists; split; [reflexivity|]. simpl.
    rewrite Hfr, delete_insert_id by exact Hp. auto.
Qed.

Lemma allocate_then_free_witness :
  exists p s1 s2,
    uvc_allocate_frame 12 st_alloc_ok = Done (Some p) s1 /\
    no_time_stamp p = None /\
    uvc_free_frame no_time_stamp p s1 = Done tt s2 /\
    frames s2 = frames st_alloc_ok /\ mem s2 = mem st_alloc_ok.
Proof.
  assert (exists p s1, uvc_allocate_frame 12 st_alloc_ok = Done (Some p) s1)
    as (p & s1 & H) by (eexists _, _; vm_compute; reflexivity).
  destruct (allocate_then_free no_time_stamp _ _ _ _ H eq_refl)
    as (s2 & H2 & Hfr & Hm).
  exists p, s1, s2. auto.
Defined.

(** X5.  A buffer of zero bytes escapes the release.  When
    [uvc_ensure_frame_size] succeeds for 0 bytes on an owning frame without
    buffer, because [realloc (NULL, 0)] returned a block, the frame holds
    that block with [data_bytes = 0]; [uvc_free_frame] then skips
    [free (frame->data)] and the block stays allocated after the frame is
    gone. *)
Theorem zero_byte_buffer_not_released ts s p g s1 :
  frames s !! p = Some g ->
  library_owns_data g = true -> data g = None ->
  metadata_bytes g <= 0 -> ts p = None ->
  uvc_ensure_frame_size p 0 s = Done UVC_SUCCESS s1 ->
  exists b g1 s2,
    mem s !! b = None /\
    frames s1 !! p = Some g1 /\ data g1 = Some b /\ data_bytes g1 = 0 /\
    uvc_free_frame ts p s1 = Done tt s2 /\
    frames s2 !! p = None /\ mem s2 !! b = Some [].
Proof.
  intros Hg Ho Hd Hmb Hts He.
  rewrite (ensure_owning_resizes _ _ _ _ Hg Ho (or_introl Hd)) in He.
  rewrite Hd in He. fold (malloc 0) in He.
  match type of He with context [malloc 0 ?st] => set (s0 := st) in * end.
  destruct (malloc 0 s0) as [q t| |] eqn:Hm; try discriminate.
  apply malloc_inv in Hm as [Hfr Hq].
  destruct q as [b|]; simpl in He; [|discriminate].
  injection He as <-. destruct Hq as [Hdead Hmem]. subst s0. simpl in *.
  set (g1 := set_data (Some b) (set_data_bytes 0 g)).
  assert (frames (with_frames (<[p:=g1]> (frames t)) t) !! p = Some g1) as Hf
    by apply lookup_insert_eq.
  exists b, g1. eexists. split; [exact Hdead|]. split; [exact Hf|].
  split; [reflexivity|]. split; [reflexivity|].
  rewrite (uvc_free_frame_run _ _ _ _ Hf), Hts. simpl. rewrite Ho.
  replace (0 <? metadata_bytes g) with false
    by (symmetry; apply Z.ltb_ge; lia).
  simpl. split; [reflexivity|]. simpl.
  split; [apply lookup_delete_eq|]. rewrite Hmem. apply lookup_insert_eq.
Qed.

Lemma zero_byte_buffer_not_released_witness :
  exists s1 b s2,
    frames st_alloc_ok !! 1%positive = Some empty_owner /\
    uvc_ensure_frame_size 1 0 st_alloc_ok = Done UVC_SUCCESS s1 /\
    uvc_free_frame no_time_stamp 1 s1 = Done tt s2 /\
    frames s2 !! 1%positive = None /\ mem s2 !! b = Some [].
Proof.
  assert (frames st_alloc_ok !! 1%positive = Some empty_owner) as Hf
    by reflexivity.
  assert (exists s1, uvc_ensure_frame_size 1 0 st_alloc_ok
                     = Done UVC_SUCCESS s1) as (s1 & He)
    by (eexists; vm_compute; reflexivity).
  assert (metadata_bytes empty_owner <= 0) as Hmb by (simpl; lia).
  destruct (zero_byte_buffer_not_released no_time_stamp _ _ _ _ Hf
              eq_refl eq_refl Hmb eq_refl He)
    as (b & g1 & s2 & _ & _ & _ & _ & H2 & Hp & Hb).
  exists s1, b, s2. auto.
Defined.

(** X6.  A frame allocated with [n > 0] bytes is already sized for [n]
    bytes: [uvc_ensure_frame_size] succeeds on it without changing anything,
    so the allocator is not consulted again. *)
Theorem allocate_then_ensure n s p s1 :
  uvc_allocate_frame n s = Done (Some p) s1 ->
  0 < n ->
  uvc_ensure_frame_size p n s1 = Done UVC_SUCCESS s1.
Proof.
  intros H Hn. apply allocate_inv in H as (Hp & d & Hfr & _ & H1).
  destruct (H1 Hn) as (b & -> & _ & _).
  destruct (new_frame_fields n (Some b)) as (Ho & _ & _ & _ & _ & _ & Hpos & _).
  destruct (Hpos Hn) as [Hd Hb].
  eapply ensure_owning_fits; eauto.
  rewrite Hfr. apply lookup_insert_eq.
Qed.

Lemma allocate_then_ensure_witness :
  exists p s1,
    uvc_allocate_frame 12 st_alloc_ok = Done (Some p) s1 /\
    uvc_ensure_frame_size p 12 s1 = Done UVC_SUCCESS s1.
Proof.
  assert (exists p s1, uvc_allocate_frame 12 st_alloc_ok = Done (Some p) s1)
    as (p & s1 & H) by (eexists _, _; vm_compute; reflexivity).
  exists p, s1. split; [exact H|].
  apply (allocate_then_ensure 12 st_alloc_ok p s1 H). lia.
Defined.

(** ** The capacity of a frame *)

Lemma resize_length n l : length (resize n l) = Z.to_nat n.
Proof. unfold resize. rewrite length_app, length_take, length_replicate. lia. Qed.

Lemma resize_lookup n l (i : nat) :
  (i < Z.to_nat n)%nat -> (i < length l)%nat -> resize n l !! i = l !! i.
Proof.
  intros Hn Hl. unfold resize.
  rewrite lookup_app_l by (rewrite length_take; lia).
  apply lookup_take_lt. lia.
Qed.

Lemma realloc_Some_inv b n s q s' :
  realloc (Some b) n s = Done q s' ->
  exists old, mem s !! b = Some old /\
    match q with
    | Some b' => mem s' !! b' = Some (resize n old)
    | None => n <> 0 -> mem s' = mem s
    end.
Proof.
  unfold realloc. destruct (next_choice s) as [c s0] eqn:Hc.
  apply next_choice_inv in Hc as [_ Hm]. rewrite Hm.
  destruct (mem s !! b) as [old|] eqn:Hb; [|discriminate].
  intros H. exists old. split; [reflexivity|].
  destruct c; simpl in H.
  - injection H as <- <-. auto.
  - injection H as <- <-. simpl. apply lookup_insert_eq.
  - injection H as <- <-. simpl. apply lookup_insert_eq.
  - destruct (n =? 0) eqn:Hn; injection H as <- <-; simpl; auto.
    apply Z.eqb_eq in Hn. intros; contradiction.
Qed.

Lemma realloc_total p n s :
  (forall b, p = Some b -> is_Some (mem s !! b)) ->
  exists q s', realloc p n s = Done q s'.
Proof.
  intros Hp. unfold realloc. destruct (next_choice s) as [c s0] eqn:Hc.
  apply next_choice_inv in Hc as [_ Hm].
  destruct p as [b|].
  - destruct (Hp b eq_refl) as [old Hold]. rewrite Hm, Hold.
    destruct c; eauto. destruct (n =? 0); eauto.
  - destruct c; eauto.
Qed.

Lemma realloc_result p n s b' s' :
  realloc p n s = Done (Some b') s' ->
  mem s' !! b' =
    Some (resize n (match p with
                    | Some b => default [] (mem s !! b)
                    | None => []
                    end)).
Proof.
  destruct p as [b|].
  - intros H. apply realloc_Some_inv in H as (old & Hold & H).
    rewrite Hold. exact H.
  - unfold realloc. destruct (next_choice s) as [c s0].
    destruct c; intros [= <- <-]; simpl; apply lookup_insert_eq.
Qed.

(** X7.  The capacity invariant.  On a frame that is honest about its
    buffer ([capacity_ok]) [uvc_ensure_frame_size] never faults, and the
    frame is honest afterwards whatever the result.  On success the buffer
    is a live block of at least the requested bytes, and the bytes of the
    old buffer below the request are kept by the resize. *)
Theorem ensure_frame_size_keeps_capacity s p g need :
  frames s !! p = Some g -> capacity_ok s g -> 0 <= need ->
  exists e s1 g1,
    uvc_ensure_frame_size p need s = Done e s1 /\
    frames s1 !! p = Some g1 /\ capacity_ok s1 g1 /\
    (e = UVC_SUCCESS ->
       need <= data_bytes g1 /\
       exists b l, data g1 = Some b /\ mem s1 !! b = Some l /\
         Z.of_nat (length l) = data_bytes g1 /\
         forall b0 old, data g = Some b0 -> mem s !! b0 = Some old ->
           forall i : nat, (i < length old)%nat -> Z.of_nat i < need ->
             l !! i = old !! i).
Proof.
  intros Hg Hcap Hneed.
  destruct (library_owns_data g) eqn:Ho.
  - destruct (data g) as [b|] eqn:Hd.
    + destruct (Z.eq_dec (data_bytes g) need) as [Heq|Hne].
      * exists UVC_SUCCESS, s, g.
        split; [eapply ensure_owning_fits; eauto|].
        split; [exact Hg|]. split; [exact Hcap|]. intros _.
        split; [lia|]. destruct (Hcap b Hd) as (l & Hl & Hlen).
        exists b, l. repeat split; auto.
        intros b0 old [= <-] Hold. rewrite Hl in Hold.
        injection Hold as <-. reflexivity.
      * rewrite (ensure_owning_resizes _ _ _ _ Hg Ho (or_intror Hne)), Hd.
        match goal with |- context [realloc _ _ ?st] => set (s0 := st) end.
        destruct (Hcap b Hd) as (old & Hold & Hlen).
        destruct (realloc_total (Some b) need s0) as (q & t & Hr).
        { intros ? [= <-]. exists old. exact Hold. }
        rewrite Hr. eexists _, _, _. split; [reflexivity|].
        split; [apply lookup_insert_eq|].
        destruct q as [b'|].
        -- pose proof (realloc_result _ _ _ _ _ Hr) as Hres.
           simpl in Hres. rewrite Hold in Hres. simpl in Hres.
           split.
           { intros c [= <-]. eexists; split; [exact Hres|].
             rewrite resize_length. simpl. lia. }
           intros _. simpl. split; [lia|].
           eexists _, _. split; [reflexivity|]. split; [exact Hres|].
           split; [rewrite resize_length; lia|].
           intros b0 old' [= <-] Hold'. rewrite Hold in Hold'.
           injection Hold' as <-. intros i Hi Hin.
           apply resize_lookup; lia.
        -- split; [intros c; discriminate|]. discriminate.
    + rewrite (ensure_owning_resizes _ _ _ _ Hg Ho (or_introl Hd)), Hd.
      match goal with |- context [realloc _ _ ?st] => set (s0 := st) end.
      destruct (realloc_total None need s0) as (q & t & Hr);
        [discriminate|].
      rewrite Hr. eexists _, _, _. split; [reflexivity|].
      split; [apply lookup_insert_eq|].
      destruct q as [b'|].
      * pose proof (realloc_result _ _ _ _ _ Hr) as Hres.
        split.
        { intros c [= <-]. eexists; split; [exact Hres|].
          rewrite resize_length. simpl. lia. }
        intros _. simpl. split; [lia|].
        eexists _, _. split; [reflexivity|]. split; [exact Hres|].
        split; [rewrite resize_length; lia|]. discriminate.
      * split; [intros c; discriminate|]. discriminate.
  - exists (if is_null (data g) || (data_bytes g <? need)
            then UVC_ERROR_NO_MEM else UVC_SUCCESS), s, g.
    split.
    { unfold uvc_ensure_frame_size.
      rewrite (bind_Done _ _ _ _ _ (get_frame_Done _ _ _ Hg)), Ho.
      destruct (is_null (data g) || (data_bytes g <? need)); reflexivity. }
    split; [exact Hg|]. split; [exact Hcap|].
    destruct (data g) as [b|] eqn:Hd; simpl; [|discriminate].
    destruct (data_bytes g <? need) eqn:Hlt; [discriminate|].
    apply Z.ltb_ge in Hlt. intros _. split; [exact Hlt|].
    destruct (Hcap b Hd) as (l & Hl & Hlen).
    exists b, l. repeat split; auto.
    intros b0 old [= <-] Hold.
    rewrite Hl in Hold. injection Hold as <-. reflexivity.
Qed.

Lemma ensure_frame_size_keeps_capacity_witness :
  exists e s1 g1,
    capacity_ok st_owner50 owner50 /\
    uvc_ensure_frame_size 1 80 st_owner50 = Done e s1 /\
    frames s1 !! 1%positive = Some g1 /\ capacity_ok s1 g1.
Proof.
  assert (frames st_owner50 !! 1%positive = Some owner50) as Hf
    by reflexivity.
  assert (capacity_ok st_owner50 owner50) as Hc.
  { intros b Hb. injection Hb as <-. eexists. split; reflexivity. }
  assert (0 <= 80) as Hn by lia.
  destruct (ensure_frame_size_keeps_capacity _ _ _ _ Hf Hc Hn)
    as (e & s1 & g1 & He & Hg1 & Hc1 & _).
  exists e, s1, g1. auto.
Defined.

(** X8.  A failed resize loses the old buffer.  When an owning frame
    with a live buffer is asked for another, nonzero size and [realloc]
    fails, [uvc_ensure_frame_size] has already overwritten [frame->data]
    with [NULL]: the old block is still allocated with its contents, but the
    frame no longer points to it, and [data_bytes] is the size that was
    refused. *)
Theorem failed_resize_orphans_buffer s p g need b0 old s1 :
  frames s !! p = Some g -> library_owns_data g = true ->
  data g = Some b0 -> mem s !! b0 = Some old ->
  data_bytes g <> need -> need <> 0 ->
  uvc_ensure_frame_size p need s = Done UVC_ERROR_NO_MEM s1 ->
  frames s1 !! p = Some (set_data None (set_data_bytes need g)) /\
  mem s1 = mem s /\ mem s1 !! b0 = Some old.
Proof.
  intros Hg Ho Hd Hold Hne Hnz He.
  rewrite (ensure_owning_resizes _ _ _ _ Hg Ho (or_intror Hne)), Hd in He.
  match type of He with context [realloc _ _ ?st] => set (s0 := st) in * end.
  destruct (realloc (Some b0) need s0) as [q t| |] eqn:Hr; try discriminate.
  destruct q as [b'|]; simpl in He; [discriminate|].
  injection He as <-.
  apply realloc_Some_inv in Hr as (old' & _ & Hmem).
  specialize (Hmem Hnz). simpl in *.
  split; [apply lookup_insert_eq|]. rewrite Hmem. auto.
Qed.

Lemma failed_resize_orphans_buffer_witness :
  exists s1,
    uvc_ensure_frame_size 1 100 st_grow_fails = Done UVC_ERROR_NO_MEM s1 /\
    frames s1 !! 1%positive = Some (set_data None (set_data_bytes 100 owner50)) /\
    mem s1 !! 4%positive = Some (replicate 50 1).
Proof.
  assert (exists s1, uvc_ensure_frame_size 1 100 st_grow_fails
                     = Done UVC_ERROR_NO_MEM s1) as (s1 & He)
    by (eexists; vm_compute; reflexivity).
  assert (frames st_grow_fails !! 1%positive = Some owner50) as Hf
    by reflexivity.
  assert (mem st_grow_fails !! 4%positive = Some (replicate 50 1)) as Hm
    by reflexivity.
  assert (data_bytes owner50 <> 100) as Hne by (simpl; lia).
  assert (100 <> 0) as Hnz by lia.
  destruct (failed_resize_orphans_buffer _ _ _ _ _ _ _ Hf eq_refl eq_refl Hm
              Hne Hnz He) as (H1 & _ & H3).
  exists s1. auto.
Defined.

(** ** The kernels as a family *)

Lemma quiet_ret {A} (a : A) : quiet (ret a).
Proof. intros s a' s' [= <- <-]. auto. Qed.

Lemma quiet_bind {A B} (c : M A) (k : A -> M B) :
  quiet c -> (forall a, quiet (k a)) -> quiet (bind c k).
Proof.
  intros Hc Hk s b s' H. apply bind_inv in H as (a & s1 & H1 & H2).
  destruct (Hk a _ _ _ H2) as [-> ->]. exact (Hc _ _ _ H1).
Qed.

Lemma quiet_rd p i : quiet (rd p i).
Proof.
  intros s a s'. unfold rd, load.
  destruct (base p); [|discriminate].
  destruct (mem s !! _); [|discriminate].
  destruct (_ !! _); [|discriminate].
  destruct (0 <=? _); [|discriminate].
  intros [= <- <-]. auto.
Qed.

Lemma quiet_wr p i v : quiet (wr p i v).
Proof.
  intros s a s'. unfold wr, store.
  destruct (base p); [|discriminate].
  destruct (mem s !! _); [|discriminate].
  destruct (in_range _ _); [|discriminate].
  intros H. inversion H; subst. auto.
Qed.

Ltac quiet_macro :=
  repeat first
    [ apply quiet_rd | apply quiet_wr | apply quiet_ret
    | apply quiet_bind; [|intros ?] ].

Lemma quiet_IYUYV2RGB_8 p q : quiet (IYUYV2RGB_8 p q).
Proof.
  unfold IYUYV2RGB_8, IYUYV2RGB_4, IYUYV2RGB_2. quiet_macro.
Qed.

Lemma quiet_IUYVY2RGB_8 p q : quiet (IUYVY2RGB_8 p q).
Proof.
  unfold IUYVY2RGB_8, IUYVY2RGB_4, IUYVY2RGB_2. quiet_macro.
Qed.

Lemma quiet_IUYVY2BGR_8 p q : quiet (IUYVY2BGR_8 p q).
Proof.
  unfold IUYVY2BGR_8, IUYVY2BGR_4, IUYVY2BGR_2. quiet_macro.
Qed.

Lemma quiet_IYUYV2Y p q : quiet (IYUYV2Y p q).
Proof. unfold IYUYV2Y. quiet_macro. Qed.

Lemma quiet_IYUYV2UV p q : quiet (IYUYV2UV p q).
Proof. unfold IYUYV2UV. quiet_macro. Qed.

Lemma quiet_block_loop body :
  (forall p q, quiet (body p q)) ->
  forall fuel p q e, quiet (block_loop body fuel p q e).
Proof.
  intros Hb. induction fuel as [|fuel IH]; intros p q e; simpl.
  - intros s a s'. discriminate.
  - destruct (ptr_lt q e); [|apply quiet_ret].
    apply quiet_bind; [apply Hb|intros _; apply IH].
Qed.

Lemma quiet_byte_loop body :
  (forall p q, quiet (body p q)) ->
  forall fuel p q e, quiet (byte_loop body fuel p q e).
Proof.
  intros Hb. induction fuel as [|fuel IH]; intros p q e; simpl.
  - intros s a s'. discriminate.
  - destruct (ptr_lt q e); [|apply quiet_ret].
    apply quiet_bind; [apply Hb|intros _; apply IH].
Qed.

Lemma loop_then_success (loop : M unit) Fm s1 e s' :
  quiet loop ->
  (loop ;; ret UVC_SUCCESS) (with_frames Fm s1) = Done e s' ->
  e = UVC_SUCCESS /\ frames s' = Fm /\ allocator s' = allocator s1.
Proof.
  intros Hq H. apply bind_inv in H as ([] & s2 & H1 & H2).
  injection H2 as <- <-. destruct (Hq _ _ _ H1) as [Hf Ha].
  split; [reflexivity|]. split; [exact Hf | exact Ha].
Qed.

Lemma ensure_borrowed_run s frame g need :
  frames s !! frame = Some g -> library_owns_data g = false ->
  uvc_ensure_frame_size frame need s =
    Done (if is_null (data g) || (data_bytes g <? need)
          then UVC_ERROR_NO_MEM else UVC_SUCCESS) s.
Proof.
  intros Hg Ho. unfold uvc_ensure_frame_size.
  rewrite (bind_Done _ _ _ _ _ (get_frame_Done _ _ _ Hg)), Ho.
  destruct (is_null (data g) || (data_bytes g <? need)); reflexivity.
Qed.

Lemma no_loop_success Fm s1 e s' :
  Done UVC_SUCCESS (with_frames Fm s1) = Done e s' ->
  e = UVC_SUCCESS /\ frames s' = Fm /\ allocator s' = allocator s1.
Proof. intros [= <- <-]. auto. Qed.

Lemma kernel_format_check (K : M uvc_error_t) in_ s F fmt e s' :
  frames s !! in_ = Some F ->
  (fmt0 <- field in_ frame_format ;;
   if negb (bool_decide (fmt0 = fmt)) then ret UVC_ERROR_INVALID_PARAM
   else K) s = Done e s' ->
  (frame_format F <> fmt /\ e = UVC_ERROR_INVALID_PARAM /\ s' = s) \/
  (frame_format F = fmt /\ K s = Done e s').
Proof.
  intros HF. rewrite (bind_Done _ _ _ _ _ (field_Done frame_format _ _ _ HF)).
  destruct (bool_decide_reflect (frame_format F = fmt)) as [Heq|Hne]; simpl.
  - right. auto.
  - intros [= <- <-]. left. auto.
Qed.

Lemma kernel_sizing (K : M uvc_error_t) in_ out k s F G e s' :
  frames s !! in_ = Some F -> frames s !! out = Some G ->
  (need <- pixel_bytes in_ k ;;
   e1 <- uvc_ensure_frame_size out need ;;
   if error_code e1 <? 0 then ret UVC_ERROR_NO_MEM else K) s = Done e s' ->
  exists e1 s1 G1,
    uvc_ensure_frame_size out (u32_mul (u32_mul (width F) (height F)) k) s
      = Done e1 s1 /\
    frames s1 = <[out := G1]> (frames s) /\
    G1 = set_data (data G1) (set_data_bytes (data_bytes G1) G) /\
    ((e1 = UVC_ERROR_NO_MEM /\ e = UVC_ERROR_NO_MEM /\ s' = s1) \/
     (e1 = UVC_SUCCESS /\ data G1 <> None /\ K s1 = Done e s')).
Proof.
  intros HF HG. rewrite (bind_Done _ _ _ _ _ (pixel_bytes_Done _ _ _ _ HF)).
  intros H. apply bind_inv in H as (e1 & s1 & He & H).
  destruct (ensure_inv _ _ _ _ _ _ He HG) as (G1 & Hfr & HG1 & _ & _ & Hcode & Hok).
  exists e1, s1, G1. split; [exact He|]. split; [exact Hfr|].
  split; [exact HG1|].
  destruct Hcode as [-> | ->]; simpl in H.
  - right. destruct (Hok eq_refl) as [Hd _]. auto.
  - injection H as <- <-. left. auto.
Qed.

Ltac kernel_cases run shape quiet_body :=
  match goal with
  | HF : frames ?s !! ?in_ = Some ?F, HG : frames ?s !! ?out = Some ?G,
    Hne : ?in_ <> ?out, H : ?K ?in_ ?out ?s = Done ?e ?s' |- _ =>
      pose proof H as H0; unfold K in H;
      apply (kernel_format_check _ _ _ _ _ _ _ HF) in H
        as [(Hfmt & -> & ->) | (Hfmt & H)];
      [ left; auto
      | right; split; [exact Hfmt|];
        apply (kernel_sizing _ _ _ _ _ _ _ _ _ HF HG) in H
          as (e1 & s1 & G1 & He & Hfr & HG1 &
              [(E1 & E & Es) | (E1 & Hd & _)]);
        exists e1, s1, G1;
        (split; [exact He|]); (split; [exact Hfr|]); (split; [exact HG1|]);
        [ left; auto
        | right; subst e1;
          assert (frames s1 !! in_ = Some F) as HFs
            by (rewrite Hfr, lookup_insert_ne by congruence; exact HF);
          assert (frames s1 !! out = Some G1) as HGs
            by (rewrite Hfr; apply lookup_insert_eq);
          rewrite (run in_ out s F s1 G1 HF HFs Hne Hfmt He HGs) in H0;
          rewrite ?shape in H0;
          first
            [ apply loop_then_success in H0;
              [| first [apply quiet_block_loop | apply quiet_byte_loop];
                 apply quiet_body ]
            | apply no_loop_success in H0 ];
          destruct H0 as (-> & Hfr' & Ha);
          (split; [reflexivity|]); (split; [reflexivity|]);
          (split; [rewrite Hfr', Hfr, insert_insert_eq; reflexivity|]);
          split; [exact Ha | exact Hd] ] ]
  end.

(** X9.  The outcomes of a kernel with distinct source and destination.
    A kernel of the table [kernels] has three ways to return.
    [UVC_ERROR_INVALID_PARAM]: the source has another format and the state
    is untouched.  [UVC_ERROR_NO_MEM]: [uvc_ensure_frame_size] failed for
    [width * height * k] bytes (computed on 32 bits), and the state is the
    one it left, in which at most [data] and [data_bytes] of the destination
    differ.  [UVC_SUCCESS]: the destination has the source's width, height,
    sequence, timestamps and origin, the kernel's format and step and a
    non-null buffer; no other frame structure changed, the source included;
    the allocator is as [uvc_ensure_frame_size] left it. *)
Theorem kernel_outcomes K src_fmt dst_fmt k s in_ out F G e s' :
  In (K, src_fmt, dst_fmt, k) kernels ->
  frames s !! in_ = Some F -> frames s !! out = Some G -> in_ <> out ->
  K in_ out s = Done e s' ->
  (frame_format F <> src_fmt /\ e = UVC_ERROR_INVALID_PARAM /\ s' = s) \/
  (frame_format F = src_fmt /\
   exists e1 s1 G1,
     uvc_ensure_frame_size out (u32_mul (u32_mul (width F) (height F)) k) s
       = Done e1 s1 /\
     frames s1 = <[out := G1]> (frames s) /\
     G1 = set_data (data G1) (set_data_bytes (data_bytes G1) G) /\
     ((e1 = UVC_ERROR_NO_MEM /\ e = UVC_ERROR_NO_MEM /\ s' = s1) \/
      (e1 = UVC_SUCCESS /\ e = UVC_SUCCESS /\
       frames s' =
         <[out := converted_geometry dst_fmt (row_bytes k (width F)) F G1]>
           (frames s) /\
       allocator s' = allocator s1 /\ data G1 <> None))).
Proof.
  intros HIn HF HG Hne H. simpl in HIn.
  destruct HIn as [HK | [HK | [HK | [HK | [HK | [HK | []]]]]]];
    injection HK as <- <- <- <-.
  - kernel_cases uvc_yuyv2rgb_run yuyv2rgb_loop_shape quiet_IYUYV2RGB_8.
  - kernel_cases uvc_yuyv2bgr_run yuyv2rgb_loop_shape quiet_IYUYV2RGB_8.
  - kernel_cases uvc_yuyv2y_run yuyv2y_loop_shape quiet_IYUYV2Y.
  - kernel_cases uvc_yuyv2uv_run yuyv2uv_loop_shape quiet_IYUYV2UV.
  - kernel_cases uvc_uyvy2rgb_run uyvy2rgb_loop_shape quiet_IUYVY2RGB_8.
  - kernel_cases uvc_uyvy2bgr_run uyvy2bgr_loop_shape quiet_IUYVY2BGR_8.
Qed.

Lemma kernel_outcomes_witness :
  exists s',
    uvc_yuyv2rgb 1 2 st_gray81 = Done UVC_SUCCESS s' /\
    frames s' !! 1%positive = Some gray81.
Proof.
  assert (exists s', uvc_yuyv2rgb 1 2 st_gray81 = Done UVC_SUCCESS s')
    as (s' & H) by (eexists; vm_compute; reflexivity).
  exists s'. split; [exact H|].
  assert (In (uvc_yuyv2rgb, UVC_FRAME_FORMAT_YUYV, UVC_FRAME_FORMAT_RGB, 3)
            kernels) as HIn by (left; reflexivity).
  assert (frames st_gray81 !! 1%positive = Some gray81) as HF by reflexivity.
  assert (frames st_gray81 !! 2%positive = Some empty_owner) as HG
    by reflexivity.
  assert (1%positive <> 2%positive) as Hne by discriminate.
  destruct (kernel_outcomes _ _ _ _ _ _ _ _ _ _ _ HIn HF HG Hne H)
    as [(_ & [=] & _) | (_ & e1 & s1 & G1 & _ & _ & _ & Hc)].
  destruct Hc as [(_ & [=] & _) | (_ & _ & Hfr & _)].
  rewrite Hfr. reflexivity.
Defined.

(** X10.  [uvc_yuyv2bgr], and [uvc_any2bgr] which calls it for a YUYV
    source, store no pixel: when they return, the memory is exactly what
    [uvc_ensure_frame_size] left, and with a borrowed destination exactly
    what it was before the call.  Their result is the result of
    [uvc_ensure_frame_size]. *)
Theorem yuyv2bgr_converts_nothing s in_ out F G :
  frames s !! in_ = Some F -> frames s !! out = Some G -> in_ <> out ->
  frame_format F = UVC_FRAME_FORMAT_YUYV ->
  uvc_any2bgr in_ out s = uvc_yuyv2bgr in_ out s /\
  forall e s', uvc_yuyv2bgr in_ out s = Done e s' ->
    exists s1,
      uvc_ensure_frame_size out (u32_mul (u32_mul (width F) (height F)) 3) s
        = Done e s1 /\
      mem s' = mem s1 /\
      (library_owns_data G = false -> mem s' = mem s).
Proof.
  intros HF HG Hne Hfmt. split.
  { unfold uvc_any2bgr.
    rewrite (bind_Done _ _ _ _ _ (field_Done frame_format _ _ _ HF)), Hfmt.
    reflexivity. }
  intros e s' H. pose proof H as H0. unfold uvc_yuyv2bgr in H.
  apply (kernel_format_check _ _ _ _ _ _ _ HF) in H
    as [(Hbad & _) | (_ & H)]; [contradiction|].
  apply (kernel_sizing _ _ _ _ _ _ _ _ _ HF HG) in H
    as (e1 & s1 & G1 & He & Hfr & HG1 & [(E1 & E & Es) | (E1 & Hd & _)]).
  - subst. exists s1. split; [exact He|]. split; [reflexivity|].
    intros Hb. rewrite (ensure_borrowed_run _ _ _ _ HG Hb) in He.
    injection He as _ <-. reflexivity.
  - subst e1.
    assert (frames s1 !! in_ = Some F) as HFs
      by (rewrite Hfr, lookup_insert_ne by congruence; exact HF).
    assert (frames s1 !! out = Some G1) as HGs
      by (rewrite Hfr; apply lookup_insert_eq).
    rewrite (uvc_yuyv2bgr_run in_ out s F s1 G1 HF HFs Hne Hfmt He HGs) in H0.
    injection H0 as <- <-. exists s1. split; [exact He|].
    split; [reflexivity|].
    intros Hb. rewrite (ensure_borrowed_run _ _ _ _ HG Hb) in He.
    injection He as _ <-. reflexivity.
Qed.

Lemma yuyv2bgr_converts_nothing_witness :
  exists s',
    uvc_any2bgr 1 2 st_gray81 = Done UVC_SUCCESS s' /\
    mem s' !! 2%positive = Some (replicate 24 0).
Proof.
  assert (frames st_gray81 !! 1%positive = Some gray81) as HF by reflexivity.
  assert (frames st_gray81 !! 2%positive = Some empty_owner) as HG
    by reflexivity.
  assert (1%positive <> 2%positive) as Hne by discriminate.
  destruct (yuyv2bgr_converts_nothing _ _ _ _ _ HF HG Hne eq_refl)
    as [Hr Hk].
  assert (exists s', uvc_yuyv2bgr 1 2 st_gray81 = Done UVC_SUCCESS s')
    as (s' & H) by (eexists; vm_compute; reflexivity).
  exists s'. split; [rewrite Hr; exact H|].
  destruct (Hk _ _ H) as (s1 & He & Hm & _). rewrite Hm.
  assert (uvc_ensure_frame_size 2 24 st_gray81 = Done UVC_SUCCESS s1) as He'
    by exact He.
  vm_compute in He'. injection He' as <-. reflexivity.
Defined.

Lemma every_second_lookup m : forall c src (i : nat),
  (i < m)%nat ->
  every_second m c src !! i = Some (byte_at src (c + 2 * Z.of_nat i)).
Proof.
  induction m as [|m IH]; intros c src i Hi; [lia|].
  destruct i as [|i]; simpl.
  - f_equal. f_equal. lia.
  - rewrite IH by lia. f_equal. f_equal. lia.
Qed.

Lemma byte_at_lookup src (j : nat) :
  (j < length src)%nat -> Some (byte_at src (Z.of_nat j)) = src !! j.
Proof.
  intros Hj. unfold byte_at. rewrite Nat2Z.id.
  destruct (lookup_lt_is_Some_2 src j Hj) as [v ->]. reflexivity.
Qed.

Lemma write_front_lookup (new dst : list Z) :
  (length new <= length dst)%nat ->
  length (write_bytes 0 new dst) = length dst /\
  (forall i, (i < length new)%nat -> write_bytes 0 new dst !! i = new !! i) /\
  (forall i, (length new <= i)%nat -> write_bytes 0 new dst !! i = dst !! i).
Proof.
  intros Hlen. split; [apply write_bytes_length|].
  rewrite write_bytes_prefix by (simpl; lia). simpl. split.
  - intros i Hi. apply lookup_app_l. exact Hi.
  - intros i Hi. rewrite lookup_app_r by exact Hi.
    rewrite lookup_drop. f_equal. lia.
Qed.

(** X11.  The GRAY8 kernels byte by byte.  With a sized destination of
    [m] bytes and distinct buffers that hold [2 m] source and [m]
    destination bytes, both kernels succeed; byte [i] of the result of
    [uvc_yuyv2y] is source byte [2 i] (the luma), byte [i] of the result of
    [uvc_yuyv2uv] is source byte [2 i + 1] (the chroma, U and V
    alternating); the bytes from [m] on and every other block are as
    before. *)
Theorem gray_kernels_pick_bytes s s1 in_ out F G1 bs bd src dst :
  sized s s1 in_ out F G1 (u32_mul (u32_mul (width F) (height F)) 1)
    bs bd src dst ->
  frame_format F = UVC_FRAME_FORMAT_YUYV ->
  let m := Z.to_nat (data_bytes G1) in
  (2 * m <= length src)%nat -> (m <= length dst)%nat ->
  exists sy suv dy duv,
    uvc_yuyv2y in_ out s = Done UVC_SUCCESS sy /\
    uvc_yuyv2uv in_ out s = Done UVC_SUCCESS suv /\
    mem sy !! bd = Some dy /\ mem suv !! bd = Some duv /\
    length dy = length dst /\ length duv = length dst /\
    (forall i, (i < m)%nat ->
       dy !! i = src !! (2 * i)%nat /\ duv !! i = src !! (2 * i + 1)%nat) /\
    (forall i, (m <= i)%nat -> dy !! i = dst !! i /\ duv !! i = dst !! i) /\
    (forall b, b <> bd ->
       mem sy !! b = mem s1 !! b /\ mem suv !! b = mem s1 !! b).
Proof.
  intros Hs Hfmt m Hls Hld.
  destruct (kernels_exact _ _ _ _ _ _ _ _ _ _ _ Hs) as [_ H].
  destruct (H eq_refl Hfmt) as [Hy Huv]. fold m in Hy, Huv.
  assert ((2 * Z.of_nat m - 1 <=? Z.of_nat (length src)) = true) as E1 by lia.
  assert ((2 * Z.of_nat m <=? Z.of_nat (length src)) = true) as E2 by lia.
  assert ((Z.of_nat m <=? Z.of_nat (length dst)) = true) as E3 by lia.
  rewrite E1, E3 in Hy. rewrite E2, E3 in Huv. cbn [andb] in Hy, Huv.
  unfold completed in Hy, Huv.
  destruct (write_front_lookup (every_second m 0 src) dst) as (Ly & Py & Qy);
    [rewrite every_second_length; exact Hld|].
  destruct (write_front_lookup (every_second m 1 src) dst) as (Lu & Pu & Qu);
    [rewrite every_second_length; exact Hld|].
  rewrite every_second_length in Py, Qy, Pu, Qu.
  eexists _, _, _, _. split; [exact Hy|]. split; [exact Huv|].
  cbn [mem]. rewrite !lookup_insert_eq.
  split; [reflexivity|]. split; [reflexivity|].
  split; [exact Ly|]. split; [exact Lu|]. split; [|split].
  - intros i Hi. rewrite Py, Pu by exact Hi.
    rewrite !every_second_lookup by exact Hi. split.
    + rewrite <- byte_at_lookup by lia. f_equal. f_equal. lia.
    + rewrite <- byte_at_lookup by lia. f_equal. f_equal. lia.
  - intros i Hi. rewrite Qy, Qu by exact Hi. auto.
  - intros b Hb. rewrite !lookup_insert_ne by congruence. auto.
Qed.

Lemma gray_kernels_pick_bytes_witness :
  exists sy dy,
    uvc_yuyv2y 1 2 st_gray81 = Done UVC_SUCCESS sy /\
    mem sy !! 2%positive = Some dy /\
    dy !! 3%nat = gray16 !! 6%nat.
Proof.
  assert (exists s1 G1,
            sized st_gray81 s1 1 2 gray81 G1 8 1 2 gray16 (replicate 8 0) /\
            data_bytes G1 = 8) as (s1 & G1 & Hs & Hn).
  { do 2 eexists. unfold sized. split.
    - split; [reflexivity|]. split; [discriminate|].
      split; [vm_compute; reflexivity|].
      split; [vm_compute; reflexivity|].
      repeat split; try reflexivity; discriminate.
    - reflexivity. }
  destruct (gray_kernels_pick_bytes _ _ _ _ _ _ _ _ _ _ Hs eq_refl)
    as (sy & suv & dy & duv & Hy & _ & Hdy & _ & _ & _ & Hpick & _).
  - rewrite Hn. vm_compute. lia.
  - rewrite Hn. vm_compute. lia.
  - exists sy, dy. split; [exact Hy|]. split; [exact Hdy|].
    destruct (Hpick 3%nat) as [H3 _]; [rewrite Hn; vm_compute; lia|].
    exact H3.
Defined.

(** ** Running a kernel again *)

Lemma write_bytes_again new dst :
  (length new <= length dst)%nat ->
  write_bytes 0 new (write_bytes 0 new dst) = write_bytes 0 new dst.
Proof.
  intros Hlen.
  rewrite (write_bytes_prefix new 0 dst) by (simpl; lia).
  rewrite write_bytes_prefix
    by (simpl; rewrite length_app, length_drop; lia).
  simpl. rewrite drop_app_length. reflexivity.
Qed.

Lemma rerun_sized s s1 in_ out F G1 need bs bd src dst fmt stp dst' :
  sized s s1 in_ out F G1 need bs bd src dst ->
  let G' := converted_geometry fmt stp F G1 in
  let s' := mk_state (<[out := G']> (frames s1)) (<[bd := dst']> (mem s1))
              (allocator s1) in
  sized s' s' in_ out F G' need bs bd src dst' /\
  converted_geometry fmt stp F G' = G' /\
  data_bytes G' = data_bytes G1.
Proof.
  intros Hs G' s'.
  pose proof (sized_frame_kept _ _ _ _ _ _ _ _ _ _ _ Hs) as HFc.
  destruct Hs as (HF & Hne & He & HG1 & HdF & HdG & Hbb & Hsrc & Hdst).
  split; [|split; reflexivity].
  assert (frames s' !! out = Some G') as HG' by apply lookup_insert_eq.
  unfold sized. split.
  { subst s'. cbn [frames]. rewrite lookup_insert_ne by congruence.
    exact HFc. }
  split; [exact Hne|]. split.
  { destruct (ensure_success_inv _ _ _ _ He)
      as (g & g' & Hg & Hg' & Hown & Hd & Hsize & Hcap).
    rewrite HG1 in Hg'. injection Hg' as <-.
    destruct (library_owns_data g) eqn:Ho.
    - eapply ensure_owning_fits; [exact HG' | | exact HdG |].
      + subst G'. cbn. congruence.
      + subst G'. cbn. apply Hsize. reflexivity.
    - rewrite (ensure_borrowed_run _ _ G' _ HG')
        by (subst G'; cbn; congruence).
      subst G'. cbn [data data_bytes converted_geometry]. rewrite HdG.
      destruct (Hcap eq_refl) as [Hle _].
      replace (data_bytes G1 <? need) with false
        by (symmetry; apply Z.ltb_ge; exact Hle).
      reflexivity. }
  split; [exact HG'|]. split; [exact HdF|]. split; [exact HdG|].
  split; [exact Hbb|]. subst s'. cbn [mem]. split.
  - rewrite lookup_insert_ne by congruence. exact Hsrc.
  - apply lookup_insert_eq.
Qed.

Lemma completed_again s1 out G' bd dst' :
  completed
    (mk_state (<[out := G']> (frames s1)) (<[bd := dst']> (mem s1))
       (allocator s1)) out G' bd dst' =
  completed s1 out G' bd dst'.
Proof.
  unfold completed. cbn [frames mem allocator].
  rewrite !insert_insert_eq. reflexivity.
Qed.

Lemma completed_inv s1 out G' bd dst' s' :
  completed s1 out G' bd dst' = Done UVC_SUCCESS s' ->
  s' = mk_state (<[out := G']> (frames s1)) (<[bd := dst']> (mem s1))
         (allocator s1).
Proof. unfold completed. intros H. congruence. Qed.

(** X12.  The kernels are idempotent.  When a kernel of the table
    succeeded on a sized destination with distinct buffers, calling it again
    with the same frames succeeds and changes nothing: no reallocation, the
    same fields, the same bytes. *)
Theorem kernels_idempotent s s1 in_ out F G1 need bs bd src dst K a b k s' :
  sized s s1 in_ out F G1 need bs bd src dst ->
  In (K, a, b, k) kernels ->
  need = u32_mul (u32_mul (width F) (height F)) k ->
  frame_format F = a ->
  K in_ out s = Done UVC_SUCCESS s' ->
  K in_ out s' = Done UVC_SUCCESS s'.
Proof.
  intros Hs HIn Hneed Hfmt H. simpl in HIn.
  destruct HIn as [HK | [HK | [HK | [HK | [HK | [HK | []]]]]]];
    injection HK as <- <- <- <-.
  - destruct (kernels_exact _ _ _ _ _ _ _ _ _ _ _ Hs) as [E _].
    destruct (E Hneed) as [E1 _]. destruct (E1 Hfmt) as [Hex _].
    clear E E1.
    rewrite Hex in H.
    match type of H with
    | (if ?c then _ else _) = _ => destruct c eqn:Hc; [|discriminate]
    end.
    apply completed_inv in H. subst s'.
    match goal with
    | |- _ _ _ (mk_state (<[_ := converted_geometry ?fmt ?stp _ _]> _)
                  (<[_ := ?dst']> _) _) = _ =>
        destruct (rerun_sized _ _ _ _ _ _ _ _ _ _ _ fmt stp dst' Hs)
          as (Hs' & HG' & Hn')
    end.
    cbv zeta in Hs', HG', Hn'.
    destruct (kernels_exact _ _ _ _ _ _ _ _ _ _ _ Hs') as [E _].
    destruct (E Hneed) as [E1 _]. destruct (E1 Hfmt) as [Hex' _].
    clear E E1.
    rewrite Hex'. rewrite HG', Hn', write_bytes_length, Hc.
    rewrite write_bytes_again; [apply completed_again|].
    rewrite (convert_groups_length _ _ pix_yuyv2rgb_six).
    apply andb_true_iff in Hc as [_ Hc]. apply Z.leb_le in Hc. lia.
  - destruct (kernels_exact _ _ _ _ _ _ _ _ _ _ _ Hs) as [E _].
    destruct (E Hneed) as [E1 _]. destruct (E1 Hfmt) as [_ Hex].
    clear E E1.
    rewrite Hex in H. injection H as <-.
    destruct (rerun_sized _ _ _ _ _ _ _ _ _ _ _ UVC_FRAME_FORMAT_BGR
                (u32_mul (width F) 3) dst Hs) as (Hs' & HG' & Hn').
    cbv zeta in Hs', HG', Hn'.
    destruct Hs as (_ & _ & _ & _ & _ & _ & _ & _ & Hdst).
    rewrite (insert_id _ _ _ Hdst) in Hs'.
    destruct (kernels_exact _ _ _ _ _ _ _ _ _ _ _ Hs') as [E _].
    destruct (E Hneed) as [E1 _]. destruct (E1 Hfmt) as [_ Hex'].
    clear E E1.
    etransitivity; [exact Hex'|]. rewrite HG'.
    unfold with_frames. cbn [frames mem allocator].
    rewrite insert_insert_eq. reflexivity.
  - destruct (kernels_exact _ _ _ _ _ _ _ _ _ _ _ Hs) as [_ E].
    destruct (E Hneed Hfmt) as [Hex _]. clear E.
    rewrite Hex in H.
    match type of H with
    | (if ?c then _ else _) = _ => destruct c eqn:Hc; [|discriminate]
    end.
    apply completed_inv in H. subst s'.
    match goal with
    | |- _ _ _ (mk_state (<[_ := converted_geometry ?fmt ?stp _ _]> _)
                  (<[_ := ?dst']> _) _) = _ =>
        destruct (rerun_sized _ _ _ _ _ _ _ _ _ _ _ fmt stp dst' Hs)
          as (Hs' & HG' & Hn')
    end.
    cbv zeta in Hs', HG', Hn'.
    destruct (kernels_exact _ _ _ _ _ _ _ _ _ _ _ Hs') as [_ E].
    destruct (E Hneed Hfmt) as [Hex' _]. clear E.
    rewrite Hex'. rewrite HG', Hn', write_bytes_length, Hc.
    rewrite write_bytes_again; [apply completed_again|].
    rewrite every_second_length.
    apply andb_true_iff in Hc as [_ Hc]. apply Z.leb_le in Hc. lia.
  - destruct (kernels_exact _ _ _ _ _ _ _ _ _ _ _ Hs) as [_ E].
    destruct (E Hneed Hfmt) as [_ Hex]. clear E.
    rewrite Hex in H.
    match type of H with
    | (if ?c then _ else _) = _ => destruct c eqn:Hc; [|discriminate]
    end.
    apply completed_inv in H. subst s'.
    match goal with
    | |- _ _ _ (mk_state (<[_ := converted_geometry ?fmt ?stp _ _]> _)
                  (<[_ := ?dst']> _) _) = _ =>
        destruct (rerun_sized _ _ _ _ _ _ _ _ _ _ _ fmt stp dst' Hs)
          as (Hs' & HG' & Hn')
    end.
    cbv zeta in Hs', HG', Hn'.
    destruct (kernels_exact _ _ _ _ _ _ _ _ _ _ _ Hs') as [_ E].
    destruct (E Hneed Hfmt) as [_ Hex']. clear E.
    rewrite Hex'. rewrite HG', Hn', write_bytes_length, Hc.
    rewrite write_bytes_again; [apply completed_again|].
    rewrite every_second_length.
    apply andb_true_iff in Hc as [_ Hc]. apply Z.leb_le in Hc. lia.
  - destruct (kernels_exact _ _ _ _ _ _ _ _ _ _ _ Hs) as [E _].
    destruct (E Hneed) as [_ E1]. destruct (E1 Hfmt) as [Hex _].
    clear E E1.
    rewrite Hex in H.
    match type of H with
    | (if ?c then _ else _) = _ => destruct c eqn:Hc; [|discriminate]
    end.
    apply completed_inv in H. subst s'.
    match goal with
    | |- _ _ _ (mk_state (<[_ := converted_geometry ?fmt ?stp _ _]> _)
                  (<[_ := ?dst']> _) _) = _ =>
        destruct (rerun_sized _ _ _ _ _ _ _ _ _ _ _ fmt stp dst' Hs)
          as (Hs' & HG' & Hn')
    end.
    cbv zeta in Hs', HG', Hn'.
    destruct (kernels_exact _ _ _ _ _ _ _ _ _ _ _ Hs') as [E _].
    destruct (E Hneed) as [_ E1]. destruct (E1 Hfmt) as [Hex' _].
    clear E E1.
    rewrite Hex'. rewrite HG', Hn', write_bytes_length, Hc.
    rewrite write_bytes_again; [apply completed_again|].
    rewrite (convert_groups_length _ _ pix_uyvy2rgb_six).
    apply andb_true_iff in Hc as [_ Hc]. apply Z.leb_le in Hc. lia.
  - destruct (kernels_exact _ _ _ _ _ _ _ _ _ _ _ Hs) as [E _].
    destruct (E Hneed) as [_ E1]. destruct (E1 Hfmt) as [_ Hex].
    clear E E1.
    rewrite Hex in H.
    match type of H with
    | (if ?c then _ else _) = _ => destruct c eqn:Hc; [|discriminate]
    end.
    apply completed_inv in H. subst s'.
    match goal with
    | |- _ _ _ (mk_state (<[_ := converted_geometry ?fmt ?stp _ _]> _)
                  (<[_ := ?dst']> _) _) = _ =>
        destruct (rerun_sized _ _ _ _ _ _ _ _ _ _ _ fmt stp dst' Hs)
          as (Hs' & HG' & Hn')
    end.
    cbv zeta in Hs', HG', Hn'.
    destruct (kernels_exact _ _ _ _ _ _ _ _ _ _ _ Hs') as [E _].
    destruct (E Hneed) as [_ E1]. destruct (E1 Hfmt) as [_ Hex'].
    clear E E1.
    rewrite Hex'. rewrite HG', Hn', write_bytes_length, Hc.
    rewrite write_bytes_again; [apply completed_again|].
    rewrite (convert_groups_length _ _ pix_uyvy2bgr_six).
    apply andb_true_iff in Hc as [_ Hc]. apply Z.leb_le in Hc. lia.
Qed.

Lemma kernels_idempotent_witness :
  exists s',
    uvc_yuyv2rgb 1 2 st_gray81 = Done UVC_SUCCESS s' /\
    uvc_yuyv2rgb 1 2 s' = Done UVC_SUCCESS s'.
Proof.
  assert (exists s1 G1,
            sized st_gray81 s1 1 2 gray81 G1 24 1 2 gray16
              (replicate 24 0)) as (s1 & G1 & Hs).
  { do 2 eexists. unfold sized.
    split; [reflexivity|]. split; [discriminate|].
    split; [vm_compute; reflexivity|].
    split; [vm_compute; reflexivity|].
    repeat split; try reflexivity; discriminate. }
  assert (exists s', uvc_yuyv2rgb 1 2 st_gray81 = Done UVC_SUCCESS s')
    as (s' & H) by (eexists; vm_compute; reflexivity).
  assert (In (uvc_yuyv2rgb, UVC_FRAME_FORMAT_YUYV, UVC_FRAME_FORMAT_RGB, 3)
            kernels) as HIn by (left; reflexivity).
  exists s'. split; [exact H|].
  apply (kernels_idempotent _ _ _ _ _ _ _ _ _ _ _ _ _ _ _ _ Hs HIn
           eq_refl eq_refl H).
Defined.

(** ** Conversion into a fresh frame; duplication into a borrowed one *)

Lemma allocate_sized n s out s0 in_ F bs src :
  uvc_allocate_frame n s = Done (Some out) s0 -> 0 < n ->
  frames s !! in_ = Some F -> data F = Some bs -> mem s !! bs = Some src ->
  exists bd,
    let dst := replicate (Z.to_nat n) 0 in
    sized s0 s0 in_ out F (new_frame n (Some bd)) n bs bd src dst /\
    frames s !! out = None /\ mem s !! bd = None /\
    frames s0 = <[out := new_frame n (Some bd)]> (frames s) /\
    mem s0 = <[bd := dst]> (mem s).
Proof.
  intros H Hn HF HdF Hsrc.
  apply allocate_inv in H as (Hp & d & Hfr & _ & H1).
  destruct (H1 Hn) as (bd & -> & Hdead & Hmem).
  destruct (new_frame_fields n (Some bd)) as (Ho & _ & _ & _ & _ & _ & Hpos & _).
  destruct (Hpos Hn) as [Hd Hb].
  assert (in_ <> out) as Hne by congruence.
  assert (bs <> bd) as Hbb by congruence.
  assert (frames s0 !! out = Some (new_frame n (Some bd))) as HG
    by (rewrite Hfr; apply lookup_insert_eq).
  exists bd. cbv zeta. split; [|auto].
  unfold sized. split.
  { rewrite Hfr, lookup_insert_ne by congruence. exact HF. }
  split; [exact Hne|]. split.
  { eapply ensure_owning_fits; eauto. }
  split; [exact HG|]. split; [exact HdF|]. split; [exact Hd|].
  split; [exact Hbb|]. rewrite Hmem. split.
  - rewrite lookup_insert_ne by congruence. exact Hsrc.
  - apply lookup_insert_eq.
Qed.

(** X13.  The life of the callback's frame.  A frame allocated with
    [width * height * 3] bytes for a YUYV or UYVY source, converted into
    with [uvc_any2bgr] and released: if the conversion returns, it returns
    [UVC_SUCCESS] (the buffer is not resized), and the release restores the
    frames and the memory of before the allocation: nothing leaks. *)
Theorem fresh_frame_lifecycle ts s in_ F bs src out s0 e s1 :
  frames s !! in_ = Some F -> data F = Some bs -> mem s !! bs = Some src ->
  frame_format F = UVC_FRAME_FORMAT_YUYV \/
  frame_format F = UVC_FRAME_FORMAT_UYVY ->
  let n := u32_mul (u32_mul (width F) (height F)) 3 in
  0 < n ->
  uvc_allocate_frame n s = Done (Some out) s0 ->
  uvc_any2bgr in_ out s0 = Done e s1 ->
  ts out = None ->
  e = UVC_SUCCESS /\
  exists s2, uvc_free_frame ts out s1 = Done tt s2 /\
             frames s2 = frames s /\ mem s2 = mem s.
Proof.
  intros HF HdF Hsrc Hfmt n Hn Ha Hc Hts.
  destruct (allocate_sized _ _ _ _ _ _ _ _ Ha Hn HF HdF Hsrc)
    as (bd & Hs & Hout & Hbd & Hfr0 & Hmem0).
  cbv zeta in *. set (dst := replicate (Z.to_nat n) 0) in *.
  set (G1 := new_frame n (Some bd)) in *.
  destruct (new_frame_fields n (Some bd)) as (Ho & _ & _ & _ & _ & Hmb & Hpos & _).
  destruct (Hpos Hn) as [Hd Hb]. fold G1 in Ho, Hmb, Hd, Hb.
  pose proof Hs as (HF0 & Hne & He & HG1 & _ & _ & Hbb & Hsrc0 & Hdst0).
  unfold uvc_any2bgr in Hc.
  rewrite (bind_Done _ _ _ _ _ (field_Done frame_format _ _ _ HF0)) in Hc.
  assert (exists G' dst',
            e = UVC_SUCCESS /\
            s1 = mk_state (<[out := G']> (frames s0)) (<[bd := dst']> (mem s0))
                   (allocator s0) /\
            library_owns_data G' = true /\ data G' = Some bd /\
            data_bytes G' = n /\ metadata_bytes G' = 0)
    as (G' & dst' & -> & -> & Ho' & Hd' & Hb' & Hmb').
  { destruct Hfmt as [Hfmt|Hfmt]; rewrite Hfmt in Hc.
    - rewrite (uvc_yuyv2bgr_run in_ out s0 F s0 G1 HF0 HF0 Hne Hfmt He HG1)
        in Hc.
      injection Hc as <- <-. eexists _, dst. split; [reflexivity|].
      split.
      { unfold with_frames. rewrite (insert_id _ _ _ Hdst0). reflexivity. }
      repeat split; assumption.
    - destruct (kernels_exact _ _ _ _ _ _ _ _ _ _ _ Hs) as [H _].
      destruct (H eq_refl) as [_ H1]. destruct (H1 Hfmt) as [_ Hbgr].
      rewrite Hbgr in Hc. unfold completed in Hc.
      destruct (_ && _); [|discriminate].
      injection Hc as <- <-. eexists _, _. split; [reflexivity|].
      split; [reflexivity|]. repeat split; assumption. }
  split; [reflexivity|].
  erewrite uvc_free_frame_run by (cbn [frames]; apply lookup_insert_eq).
  rewrite Ho', Hb', Hd', Hmb', Hts.
  replace (0 <? n) with true by (symmetry; apply Z.ltb_lt; lia).
  unfold free. cbn [mem]. rewrite lookup_insert_eq. cbn.
  eexists. split; [reflexivity|]. cbn.
  rewrite Hfr0, Hmem0, !delete_insert_eq.
  split; apply delete_id; assumption.
Qed.

Lemma fresh_frame_lifecycle_witness :
  exists out s0 s1 s2,
    uvc_allocate_frame 24 st_source81 = Done (Some out) s0 /\
    uvc_any2bgr 1 out s0 = Done UVC_SUCCESS s1 /\
    uvc_free_frame no_time_stamp out s1 = Done tt s2 /\
    frames s2 = frames st_source81 /\ mem s2 = mem st_source81.
Proof.
  assert (exists out s0,
            uvc_allocate_frame 24 st_source81 = Done (Some out) s0)
    as (out & s0 & Ha) by (eexists _, _; vm_compute; reflexivity).
  assert (exists e s1, uvc_any2bgr 1 out s0 = Done e s1) as (e & s1 & Hc).
  { vm_compute in Ha. injection Ha as <- <-.
    eexists _, _. vm_compute. reflexivity. }
  assert (frames st_source81 !! 1%positive = Some gray81) as HF
    by reflexivity.
  assert (mem st_source81 !! 1%positive = Some gray16) as Hsrc
    by reflexivity.
  assert (0 < u32_mul (u32_mul (width gray81) (height gray81)) 3) as Hn
    by (vm_compute; reflexivity).
  destruct (fresh_frame_lifecycle no_time_stamp _ _ _ _ _ _ _ _ _ HF eq_refl
              Hsrc (or_introl eq_refl) Hn Ha Hc eq_refl)
    as (-> & s2 & Hfree & Hfr & Hm).
  exists out, s0, s1, s2. auto.
Defined.



(** ** example.c: the channel swap *)

Lemma bind_load {B} (K : Z -> M B) (Mm : gmap block (list Z)) s b l i :
  Mm !! b = Some l -> 0 <= i ->
  bind (load (Some b) i) K (with_mem Mm s) =
    match l !! Z.to_nat i with
    | Some v => K v (with_mem Mm s)
    | None => Fault
    end.
Proof.
  intros Hb Hi. unfold bind, load. simpl. rewrite Hb.
  destruct (l !! Z.to_nat i); [|reflexivity].
  assert ((0 <=? i) = true) as -> by lia. reflexivity.
Qed.

Lemma bind_store {B} (K : unit -> M B) (Mm : gmap block (list Z)) s b l i v :
  Mm !! b = Some l -> 0 <= i < Z.of_nat (length l) ->
  bind (store (Some b) i v) K (with_mem Mm s) =
    K tt (with_mem (<[b := <[Z.to_nat i := v]> l]> Mm) s).
Proof.
  intros Hb Hi. unfold bind, store, in_range. simpl. rewrite Hb.
  assert ((0 <=? i) = true) as -> by lia.
  assert ((i <? Z.of_nat (length l)) = true) as -> by lia. reflexivity.
Qed.

Lemma swap_rb_length m : forall l, length (swap_rb m l) = length l.
Proof.
  induction m as [|m IH]; intros l; [destruct l; reflexivity|].
  destruct l as [|x0 [|x1 [|x2 rest]]]; simpl; try reflexivity.
  rewrite IH. reflexivity.
Qed.

Lemma swap_rb_involutive m : forall l, swap_rb m (swap_rb m l) = l.
Proof.
  induction m as [|m IH]; intros l; [destruct l; reflexivity|].
  destruct l as [|x0 [|x1 [|x2 rest]]]; simpl; try reflexivity.
  rewrite IH. reflexivity.
Qed.

Lemma swap_rb_app m : forall A B m',
  length A = (3 * m)%nat ->
  swap_rb (m + m') (A ++ B) = swap_rb m A ++ swap_rb m' B.
Proof.
  induction m as [|m IH]; intros A B m' HA.
  - destruct A; [|discriminate]. simpl. destruct m'; reflexivity.
  - destruct A as [|x0 [|x1 [|x2 A]]]; try (simpl in HA; lia).
    simpl. rewrite IH by (simpl in HA; lia). reflexivity.
Qed.

Lemma bgr_to_rgb_loop_run w h b n :
  int_mul (int_mul w h) 3 = n ->
  n + 3 < 2 ^ 31 ->
  forall r fuel pre rest (Mm : gmap block (list Z)) s,
    n = Z.of_nat (length pre) + 3 * Z.of_nat r ->
    (r < fuel)%nat ->
    Mm !! b = Some (pre ++ rest) ->
    bgr_to_rgb_loop fuel (Some b) w h (Z.of_nat (length pre)) (with_mem Mm s) =
      if (3 * Z.of_nat r <=? Z.of_nat (length rest))
      then Done tt (with_mem (<[b := pre ++ swap_rb r rest]> Mm) s)
      else Fault.
Proof.
  intros Hmul Hn. induction r as [|r IH]; intros fuel pre rest Mm s Hr Hfuel Hb.
  - destruct fuel as [|fuel]; [lia|]. cbn [bgr_to_rgb_loop]. rewrite Hmul.
    assert ((Z.of_nat (length pre) <? n) = false) as ->
      by (apply Z.ltb_ge; lia).
    assert ((3 * Z.of_nat 0 <=? Z.of_nat (length rest)) = true) as ->
      by (apply Z.leb_le; lia).
    simpl. unfold ret. rewrite (insert_id _ _ _ Hb).
    destruct rest; reflexivity.
  - destruct fuel as [|fuel]; [lia|]. cbn [bgr_to_rgb_loop]. rewrite Hmul.
    assert ((Z.of_nat (length pre) <? n) = true) as ->
      by (apply Z.ltb_lt; lia).
    assert (int_add (Z.of_nat (length pre)) 2 = Z.of_nat (length pre) + 2)
      as -> by (unfold int_add; apply wrap_int_small; lia).
    assert (int_add (Z.of_nat (length pre)) 3 = Z.of_nat (length pre) + 3)
      as -> by (unfold int_add; apply wrap_int_small; lia).
    rewrite (bind_load _ _ _ _ _ _ Hb) by lia.
    rewrite Nat2Z.id.
    destruct rest as [|x0 rest].
    { rewrite lookup_ge_None_2 by (rewrite length_app; simpl; lia).
      simpl length.
      assert ((3 * Z.of_nat (S r) <=? Z.of_nat 0) = false) as ->
        by (apply Z.leb_gt; lia).
      reflexivity. }
    rewrite list_lookup_middle by reflexivity.
    rewrite (bind_load _ _ _ _ _ _ Hb) by lia.
    replace (Z.to_nat (Z.of_nat (length pre) + 2)) with (length pre + 2)%nat
      by lia.
    destruct rest as [|x1 [|x2 rest]].
    { rewrite lookup_ge_None_2 by (rewrite length_app; simpl; lia).
      simpl length.
      assert ((3 * Z.of_nat (S r) <=? Z.of_nat 1) = false) as ->
        by (apply Z.leb_gt; lia).
      reflexivity. }
    { rewrite lookup_ge_None_2 by (rewrite length_app; simpl; lia).
      simpl length.
      assert ((3 * Z.of_nat (S r) <=? Z.of_nat 2) = false) as ->
        by (apply Z.leb_gt; lia).
      reflexivity. }
    rewrite lookup_app_r by lia.
    replace (length pre + 2 - length pre)%nat with 2%nat by lia.
    cbn [lookup list_lookup].
    rewrite (bind_store _ _ _ _ _ _ _ Hb)
      by (rewrite length_app; simpl; lia).
    rewrite Nat2Z.id.
    replace (length pre) with (length pre + 0)%nat at 2 by lia.
    rewrite insert_app_r. cbn [insert list_insert].
    rewrite (bind_store _ _ _ _ _ _ _ (lookup_insert_eq _ _ _))
      by (rewrite length_app; simpl; lia).
    replace (Z.to_nat (Z.of_nat (length pre) + 2)) with (length pre + 2)%nat
      by lia.
    rewrite insert_app_r. cbn [insert list_insert].
    rewrite insert_insert_eq.
    replace (Z.of_nat (length pre) + 3)
      with (Z.of_nat (length (pre ++ [x2; x1; x0])))
      by (rewrite length_app; simpl; lia).
    rewrite (IH fuel (pre ++ [x2; x1; x0]) rest).
    + simpl length.
      replace (3 * Z.of_nat (S r) <=? Z.of_nat (S (S (S (length rest)))))
        with (3 * Z.of_nat r <=? Z.of_nat (length rest))
        by (destruct (Z.leb_spec (3 * Z.of_nat r) (Z.of_nat (length rest)));
            symmetry; [apply Z.leb_le | apply Z.leb_gt]; lia).
      destruct (3 * Z.of_nat r <=? Z.of_nat (length rest)); [|reflexivity].
      rewrite insert_insert_eq, <- app_assoc. reflexivity.
    + rewrite length_app. simpl. lia.
    + lia.
    + rewrite <- app_assoc. apply lookup_insert_eq.
Qed.

Lemma bgr_to_rgb_run w h b l s :
  mem s !! b = Some l ->
  - 2 ^ 31 <= w * h < 2 ^ 31 ->
  - 2 ^ 31 <= w * h * 3 -> w * h * 3 + 3 < 2 ^ 31 ->
  bgr_to_rgb (Some b) w h s =
    if w * h * 3 <=? Z.of_nat (length l)
    then Done tt
           (with_mem (<[b := swap_rb (Z.to_nat (w * h)) l]> (mem s)) s)
    else Fault.
Proof.
  intros Hb Hwh Hlo Hhi.
  assert (int_mul (int_mul w h) 3 = w * h * 3) as Hmul.
  { unfold int_mul. rewrite (wrap_int_small (w * h)) by lia.
    apply wrap_int_small. lia. }
  unfold bgr_to_rgb. rewrite Hmul.
  destruct (Z_le_gt_dec (w * h) 0) as [Hneg|Hpos].
  - unfold loop_fuel. cbn [bgr_to_rgb_loop]. rewrite Hmul.
    assert ((0 <? w * h * 3) = false) as -> by (apply Z.ltb_ge; lia).
    assert ((w * h * 3 <=? Z.of_nat (length l)) = true) as ->
      by (apply Z.leb_le; lia).
    replace (Z.to_nat (w * h)) with 0%nat by lia.
    replace (swap_rb 0 l) with l by (destruct l; reflexivity).
    rewrite (insert_id _ _ _ Hb), with_mem_id. reflexivity.
  - rewrite <- (with_mem_id s) at 1.
    change 0 with (Z.of_nat (length (@nil Z))).
    rewrite (bgr_to_rgb_loop_run w h b (w * h * 3) Hmul Hhi
               (Z.to_nat (w * h)) _ [] l (mem s) s);
      [| simpl; lia | unfold loop_fuel; lia | exact Hb].
    replace (3 * Z.of_nat (Z.to_nat (w * h))) with (w * h * 3) by lia.
    reflexivity.
Qed.

Lemma swap_rb_lookup m : forall l,
  (3 * m <= length l)%nat ->
  (forall j, (j < m)%nat ->
     swap_rb m l !! (3 * j)%nat = l !! (3 * j + 2)%nat /\
     swap_rb m l !! (3 * j + 1)%nat = l !! (3 * j + 1)%nat /\
     swap_rb m l !! (3 * j + 2)%nat = l !! (3 * j)%nat) /\
  (forall i, (3 * m <= i)%nat -> swap_rb m l !! i = l !! i).
Proof.
  induction m as [|m IH]; intros l Hl.
  - split; [intros; lia|]. intros. destruct l; reflexivity.
  - destruct l as [|x0 [|x1 [|x2 rest]]]; try (simpl in Hl; lia).
    destruct (IH rest) as [IH1 IH2]; [simpl in Hl; lia|].
    cbn [swap_rb]. split.
    + intros [|j] Hj; [repeat split|].
      replace (3 * S j)%nat with (S (S (S (3 * j)))) by lia.
      cbn [lookup list_lookup Nat.add].
      destruct (IH1 j ltac:(lia)) as (H1 & H2 & H3).
      replace (S (S (S (3 * j))) + 2)%nat with (S (S (S (3 * j + 2)))) by lia.
      replace (S (S (S (3 * j))) + 1)%nat with (S (S (S (3 * j + 1)))) by lia.
      cbn [lookup list_lookup]. auto.
    + intros i Hi. destruct i as [|[|[|i]]]; try lia.
      cbn [lookup list_lookup]. apply IH2. lia.
Qed.

(** X15.  [bgr_to_rgb] on a live block, with [width * height * 3] in the
    range of [int].  It completes exactly when the block holds
    [width * height * 3] bytes; otherwise it accesses a byte outside the
    block ([Fault]).  When it completes, the first and third byte of each of
    the [width * height] pixels are exchanged, the middle byte and every
    byte behind the pixels are as before, and the length is unchanged; with
    no pixel ([width * height <= 0]) nothing changes. *)
Theorem bgr_to_rgb_swaps w h b l s :
  mem s !! b = Some l ->
  - 2 ^ 31 <= w * h < 2 ^ 31 ->
  - 2 ^ 31 <= w * h * 3 -> w * h * 3 + 3 < 2 ^ 31 ->
  let l' := swap_rb (Z.to_nat (w * h)) l in
  bgr_to_rgb (Some b) w h s =
    (if w * h * 3 <=? Z.of_nat (length l)
     then Done tt (with_mem (<[b := l']> (mem s)) s)
     else Fault) /\
  length l' = length l /\
  (w * h * 3 <= Z.of_nat (length l) ->
   (forall j, (j < Z.to_nat (w * h))%nat ->
      l' !! (3 * j)%nat = l !! (3 * j + 2)%nat /\
      l' !! (3 * j + 1)%nat = l !! (3 * j + 1)%nat /\
      l' !! (3 * j + 2)%nat = l !! (3 * j)%nat) /\
   (forall i, (3 * Z.to_nat (w * h) <= i)%nat -> l' !! i = l !! i)) /\
  (w * h <= 0 -> l' = l).
Proof.
  intros Hb Hwh Hlo Hhi l'.
  split; [apply bgr_to_rgb_run; assumption|].
  split; [apply swap_rb_length|]. split.
  - intros Hfit. apply swap_rb_lookup. lia.
  - intros Hneg. subst l'. replace (Z.to_nat (w * h)) with 0%nat by lia.
    destruct l; reflexivity.
Qed.

Lemma bgr_to_rgb_swaps_witness :
  bgr_to_rgb (Some 1%positive) 2 1 st_bgr =
    Done tt (with_mem (<[1%positive := [3; 2; 1; 6; 5; 4]]> (mem st_bgr))
               st_bgr).
Proof.
  assert (mem st_bgr !! 1%positive = Some [1; 2; 3; 4; 5; 6]) as Hb
    by reflexivity.
  destruct (bgr_to_rgb_swaps 2 1 1 [1; 2; 3; 4; 5; 6] st_bgr Hb)
    as (H & _); [lia | lia | lia |].
  exact H.
Defined.

(** X16.  [bgr_to_rgb] is an involution: applied twice to a buffer that
    holds the pixels, it restores the state. *)
Theorem bgr_to_rgb_twice w h b l s :
  mem s !! b = Some l ->
  - 2 ^ 31 <= w * h < 2 ^ 31 ->
  - 2 ^ 31 <= w * h * 3 -> w * h * 3 + 3 < 2 ^ 31 ->
  w * h * 3 <= Z.of_nat (length l) ->
  (bgr_to_rgb (Some b) w h ;; bgr_to_rgb (Some b) w h) s = Done tt s.
Proof.
  intros Hb Hwh Hlo Hhi Hfit.
  assert ((w * h * 3 <=? Z.of_nat (length l)) = true) as Hle
    by (apply Z.leb_le; lia).
  erewrite bind_Done;
    [| rewrite (bgr_to_rgb_run w h b l s Hb Hwh Hlo Hhi), Hle; reflexivity].
  rewrite (bgr_to_rgb_run w h b (swap_rb (Z.to_nat (w * h)) l))
    by (assumption || apply lookup_insert_eq).
  rewrite swap_rb_length, Hle, swap_rb_involutive.
  cbn [mem with_mem]. rewrite insert_insert_eq, (insert_id _ _ _ Hb).
  destruct s; reflexivity.
Qed.

Lemma bgr_to_rgb_twice_witness :
  (bgr_to_rgb (Some 1%positive) 2 1 ;; bgr_to_rgb (Some 1%positive) 2 1)
    st_bgr = Done tt st_bgr.
Proof.
  assert (mem st_bgr !! 1%positive = Some [1; 2; 3; 4; 5; 6]) as Hb
    by reflexivity.
  apply (bgr_to_rgb_twice 2 1 1 [1; 2; 3; 4; 5; 6] st_bgr Hb);
    simpl; lia.
Defined.

(** ** The UYVY kernels on bytes; BGR and RGB *)

Lemma pix_uyvy2rgb_exact u y0 v y1 :
  is_byte u -> is_byte y0 -> is_byte v -> is_byte y1 ->
  pix_uyvy2rgb u y0 v y1 = uyvy_rgb_exact u y0 v y1.
Proof.
  intros Hu H0 Hv H1. unfold pix_uyvy2rgb, uyvy_rgb_exact.
  destruct (int_r_exact v Hv) as [-> Br].
  destruct (int_g_exact u v Hu Hv) as [-> Bg].
  destruct (int_b_exact u Hu) as [-> Bb].
  rewrite !sat_int_add by (done || lia). reflexivity.
Qed.

Lemma pix_uyvy2bgr_exact u y0 v y1 :
  is_byte u -> is_byte y0 -> is_byte v -> is_byte y1 ->
  pix_uyvy2bgr u y0 v y1 = uyvy_bgr_exact u y0 v y1.
Proof.
  intros Hu H0 Hv H1. unfold pix_uyvy2bgr, uyvy_bgr_exact.
  destruct (int_r_exact v Hv) as [-> Br].
  destruct (int_g_exact u v Hu Hv) as [-> Bg].
  destruct (int_b_exact u Hu) as [-> Bb].
  rewrite !sat_int_add by (done || lia). reflexivity.
Qed.

Lemma convert_groups_ext pix pix' src m :
  (forall a0 a1 a2 a3,
     is_byte a0 -> is_byte a1 -> is_byte a2 -> is_byte a3 ->
     pix a0 a1 a2 a3 = pix' a0 a1 a2 a3) ->
  Forall is_byte src -> forall i,
  convert_groups pix m i src = convert_groups pix' m i src.
Proof.
  intros Hpix H. induction m as [|m IH]; intros i; cbn [convert_groups];
    [reflexivity|].
  rewrite IH, Hpix by (apply byte_at_byte; exact H). reflexivity.
Qed.

Lemma front_write pix k src dst :
  six_bytes pix -> (24 * k <= length dst)%nat ->
  write_bytes 0 (convert_groups pix (4 * k) 0 src) dst =
    convert_groups pix (4 * k) 0 src ++ drop (24 * k) dst.
Proof.
  intros Hsix Hld.
  rewrite write_bytes_prefix
    by (rewrite (convert_groups_length _ _ Hsix); lia).
  rewrite (convert_groups_length _ _ Hsix).
  replace (0 + 6 * (4 * k))%nat with (24 * k)%nat by lia. reflexivity.
Qed.

Lemma chroma_neutral :
  chroma_r 128 = 0 /\ chroma_g 128 128 = 0 /\ chroma_b 128 = 0.
Proof. repeat split. Qed.

Lemma clamp_id y : is_byte y -> clamp y = y.
Proof.
  unfold is_byte, clamp. intros H.
  destruct (y <? 0) eqn:E1; [lia|].
  destruct (255 <=? y) eqn:E2; lia.
Qed.

(** X17.  [uvc_uyvy2rgb] and [uvc_uyvy2bgr] on a UYVY source of bytes.
    For every 4-byte group [(u, y0, v, y1)] of the source, in order, the
    destination receives the six clamped bytes of the exact formula, in
    R, G, B order for the first kernel and in B, G, R order for the second;
    the rest of the buffer is as before.  A group with neutral chroma
    ([u = v = 128]) yields grey: all six bytes are the luma value. *)
Theorem uvc_uyvy_kernels_saturate s s1 in_ out F G1 bs bd src dst :
  sized s s1 in_ out F G1 (u32_mul (u32_mul (width F) (height F)) 3)
    bs bd src dst ->
  frame_format F = UVC_FRAME_FORMAT_UYVY ->
  Forall is_byte src ->
  let k := Z.to_nat (turns 24 (data_bytes G1)) in
  (16 * k <= length src)%nat -> (24 * k <= length dst)%nat ->
  uvc_uyvy2rgb in_ out s =
    completed s1 out
      (converted_geometry UVC_FRAME_FORMAT_RGB (u32_mul (width F) 3) F G1)
      bd (convert_groups uyvy_rgb_exact (4 * k) 0 src ++ drop (24 * k) dst)
  /\ uvc_uyvy2bgr in_ out s =
    completed s1 out
      (converted_geometry UVC_FRAME_FORMAT_BGR (u32_mul (width F) 3) F G1)
      bd (convert_groups uyvy_bgr_exact (4 * k) 0 src ++ drop (24 * k) dst)
  /\ (forall y, is_byte y ->
        uyvy_rgb_exact 128 y 128 y = [y; y; y; y; y; y] /\
        uyvy_bgr_exact 128 y 128 y = [y; y; y; y; y; y]).
Proof.
  intros Hs Hfmt Hbytes k Hls Hld.
  destruct (kernels_exact _ _ _ _ _ _ _ _ _ _ _ Hs) as [H _].
  destruct (H eq_refl) as [_ H1]. destruct (H1 Hfmt) as [-> ->]. fold k.
  assert ((16 * Z.of_nat k <=? Z.of_nat (length src)) = true) as ->
    by (apply Z.leb_le; lia).
  assert ((24 * Z.of_nat k <=? Z.of_nat (length dst)) = true) as ->
    by (apply Z.leb_le; lia).
  cbn [andb].
  rewrite (convert_groups_ext _ _ _ _ pix_uyvy2rgb_exact Hbytes).
  rewrite (convert_groups_ext _ _ _ _ pix_uyvy2bgr_exact Hbytes).
  rewrite !front_write by (exact Hld || (intros ? ? ? ?; reflexivity)).
  split; [reflexivity|]. split; [reflexivity|].
  intros y Hy. unfold uyvy_rgb_exact, uyvy_bgr_exact.
  destruct chroma_neutral as (-> & -> & ->).
  rewrite Z.add_0_r, (clamp_id y Hy). auto.
Qed.

Lemma uvc_uyvy_kernels_saturate_witness :
  exists s1 G1,
    sized st_uyvy81 s1 1 2 uyvy81 G1 24 1 2 uyvy16 (replicate 24 0) /\
    uvc_uyvy2bgr 1 2 st_uyvy81 =
      completed s1 2
        (converted_geometry UVC_FRAME_FORMAT_BGR 24 uyvy81 G1) 2
        [ 255; 255; 75; 255; 255; 75; 255; 255; 75; 255; 255; 75;
          255; 255; 75; 255; 255; 75; 255; 255; 75; 255; 255; 75 ].
Proof.
  assert (exists s1 G1,
            sized st_uyvy81 s1 1 2 uyvy81 G1 24 1 2 uyvy16
              (replicate 24 0) /\
            data_bytes G1 = 24) as (s1 & G1 & Hs & Hn).
  { do 2 eexists. unfold sized. split.
    - split; [reflexivity|]. split; [discriminate|].
      split; [vm_compute; reflexivity|].
      split; [vm_compute; reflexivity|].
      repeat split; try reflexivity; discriminate.
    - reflexivity. }
  exists s1, G1. split; [exact Hs|].
  assert (Forall is_byte uyvy16) as Hb
    by (repeat constructor; unfold is_byte; lia).
  destruct (uvc_uyvy_kernels_saturate _ _ _ _ _ _ _ _ _ _ Hs eq_refl Hb)
    as (_ & H & _); rewrite ?Hn.
  - vm_compute. lia.
  - vm_compute. lia.
  - rewrite H, Hn. reflexivity.
Defined.

Lemma bgr_groups_swapped src m : forall i,
  swap_rb (2 * m) (convert_groups pix_uyvy2bgr m i src) =
    convert_groups pix_uyvy2rgb m i src.
Proof.
  induction m as [|m IH]; intros i; [reflexivity|].
  replace (2 * S m)%nat with (S (S (2 * m))) by lia.
  cbn [convert_groups]. unfold pix_uyvy2bgr, pix_uyvy2rgb.
  cbn [app swap_rb]. rewrite IH. reflexivity.
Qed.

Lemma turns_exact q : 0 <= q -> turns 24 (24 * q) = q.
Proof.
  intros Hq. unfold turns.
  replace (24 * q + 24 - 1) with (q * 24 + 23) by lia.
  rewrite Z.div_add_l by lia. change (23 / 24) with 0. lia.
Qed.

(** X18.  BGR conversion followed by [bgr_to_rgb] is RGB conversion.
    For a UYVY source whose pixel count is a multiple of 8, [uvc_uyvy2bgr]
    followed by [bgr_to_rgb] on the destination's data, width and height
    (what the callback of example.c does) leaves the memory that
    [uvc_uyvy2rgb] leaves; the frame structures are those after
    [uvc_uyvy2bgr], so the format field still says BGR. *)
Theorem bgr_then_swap_is_rgb s s1 in_ out F G1 bs bd src dst :
  sized s s1 in_ out F G1 (u32_mul (u32_mul (width F) (height F)) 3)
    bs bd src dst ->
  frame_format F = UVC_FRAME_FORMAT_UYVY ->
  let px := width F * height F in
  0 <= px -> px * 3 + 3 < 2 ^ 31 -> px mod 8 = 0 ->
  data_bytes G1 = px * 3 ->
  2 * px <= Z.of_nat (length src) -> px * 3 <= Z.of_nat (length dst) ->
  exists s2 G2 s3 s_rgb,
    uvc_uyvy2bgr in_ out s = Done UVC_SUCCESS s2 /\
    frames s2 !! out = Some G2 /\
    bgr_to_rgb (data G2) (width G2) (height G2) s2 = Done tt s3 /\
    uvc_uyvy2rgb in_ out s = Done UVC_SUCCESS s_rgb /\
    mem s3 = mem s_rgb /\ frames s3 = frames s2.
Proof.
  intros Hs Hfmt px Hpx Hhi Hmod Hn Hls Hld.
  destruct (kernels_exact _ _ _ _ _ _ _ _ _ _ _ Hs) as [H _].
  destruct (H eq_refl) as [_ H1]. destruct (H1 Hfmt) as [Hrgb Hbgr].
  clear H H1.
  assert (px = 8 * (px / 8)) as Hq
    by (pose proof (Z.div_mod px 8 ltac:(lia)); lia).
  set (q := px / 8) in *.
  assert (0 <= q) as Hq0 by lia.
  assert (Z.to_nat (turns 24 (data_bytes G1)) = Z.to_nat q) as Hk.
  { rewrite Hn. replace (px * 3) with (24 * q) by lia.
    rewrite turns_exact by lia. reflexivity. }
  rewrite Hk in Hrgb, Hbgr.
  assert ((16 * Z.of_nat (Z.to_nat q) <=? Z.of_nat (length src)) = true)
    as E1 by (apply Z.leb_le; lia).
  assert ((24 * Z.of_nat (Z.to_nat q) <=? Z.of_nat (length dst)) = true)
    as E2 by (apply Z.leb_le; lia).
  rewrite E1, E2 in Hrgb, Hbgr. cbn [andb] in Hrgb, Hbgr.
  rewrite front_write in Hrgb, Hbgr
    by (lia || apply pix_uyvy2rgb_six || apply pix_uyvy2bgr_six).
  unfold completed in Hrgb, Hbgr.
  destruct Hs as (HF & Hne & He & HG1 & HdF & HdG & Hbb & Hsrc & Hdst).
  eexists _, _, _, _. split; [exact Hbgr|].
  split; [cbn [frames]; apply lookup_insert_eq|].
  cbn [data width height converted_geometry]. rewrite HdG.
  split; [|split; [exact Hrgb|]].
  - erewrite bgr_to_rgb_run;
      [| cbn [mem]; apply lookup_insert_eq | fold px; lia ..].
    fold px. rewrite length_app, length_drop.
    rewrite (convert_groups_length _ _ pix_uyvy2bgr_six).
    assert ((px * 3 <=?
             Z.of_nat (6 * (4 * Z.to_nat q)
                       + (length dst - 24 * Z.to_nat q))) = true) as ->
      by (apply Z.leb_le; lia).
    reflexivity.
  - cbn [mem with_mem frames]. split; [|reflexivity].
    rewrite insert_insert_eq. f_equal.
    replace (Z.to_nat px) with (2 * (4 * Z.to_nat q) + 0)%nat by lia.
    rewrite swap_rb_app
      by (rewrite (convert_groups_length _ _ pix_uyvy2bgr_six); lia).
    rewrite bgr_groups_swapped.
    destruct (drop (24 * Z.to_nat q) dst); reflexivity.
Qed.

Lemma bgr_then_swap_is_rgb_witness :
  exists s2 G2 s3 s_rgb,
    uvc_uyvy2bgr 1 2 st_uyvy81 = Done UVC_SUCCESS s2 /\
    frames s2 !! 2%positive = Some G2 /\
    bgr_to_rgb (data G2) (width G2) (height G2) s2 = Done tt s3 /\
    uvc_uyvy2rgb 1 2 st_uyvy81 = Done UVC_SUCCESS s_rgb /\
    mem s3 = mem s_rgb.
Proof.
  assert (exists s1 G1,
            sized st_uyvy81 s1 1 2 uyvy81 G1 24 1 2 uyvy16
              (replicate 24 0) /\
            data_bytes G1 = 24) as (s1 & G1 & Hs & Hn).
  { do 2 eexists. unfold sized. split.
    - split; [reflexivity|]. split; [discriminate|].
      split; [vm_compute; reflexivity|].
      split; [vm_compute; reflexivity|].
      repeat split; try reflexivity; discriminate.
    - reflexivity. }
  assert (0 <= width uyvy81 * height uyvy81) as P1 by (simpl; lia).
  assert (width uyvy81 * height uyvy81 * 3 + 3 < 2 ^ 31) as P2
    by (simpl; lia).
  assert ((width uyvy81 * height uyvy81) mod 8 = 0) as P3 by reflexivity.
  assert (data_bytes G1 = width uyvy81 * height uyvy81 * 3) as P4
    by exact Hn.
  assert (2 * (width uyvy81 * height uyvy81) <= Z.of_nat (length uyvy16))
    as P5 by (simpl; lia).
  assert (width uyvy81 * height uyvy81 * 3
          <= Z.of_nat (length (replicate 24 0))) as P6 by (simpl; lia).
  destruct (bgr_then_swap_is_rgb _ _ _ _ _ _ _ _ _ _ Hs eq_refl
              P1 P2 P3 P4 P5 P6)
    as (s2 & G2 & s3 & s_rgb & H1 & H2 & H3 & H4 & H5 & _).
  exists s2, G2, s3, s_rgb. auto.
Defined.

(** ** Termination *)

Lemma terminates_ret {A} (a : A) : terminates (ret a).
Proof. intros s. discriminate. Qed.

Lemma terminates_fault {A} : terminates (@fault A).
Proof. intros s. discriminate. Qed.

Lemma terminates_bind {A B} (c : M A) (k : A -> M B) :
  terminates c -> (forall a, terminates (k a)) -> terminates (bind c k).
Proof.
  intros Hc Hk s. unfold bind. specialize (Hc s).
  destruct (c s) as [a s1| |]; [apply Hk | discriminate | congruence].
Qed.

Lemma terminates_get_frame p : terminates (get_frame p).
Proof. intros s. unfold get_frame. destruct (frames s !! p); discriminate. Qed.

Lemma terminates_set_frame p upd : terminates (set_frame p upd).
Proof. intros s. unfold set_frame. destruct (frames s !! p); discriminate. Qed.

Lemma terminates_load p i : terminates (load p i).
Proof.
  intros s. unfold load. destruct p; [|discriminate].
  destruct (mem s !! _); [|discriminate].
  destruct (_ !! _); [|discriminate].
  destruct (0 <=? i); discriminate.
Qed.

Lemma terminates_store p i v : terminates (store p i v).
Proof.
  intros s. unfold store. destruct p; [|discriminate].
  destruct (mem s !! _); [|discriminate].
  destruct (in_range _ _); discriminate.
Qed.

Lemma terminates_realloc p n : terminates (realloc p n).
Proof.
  intros s. unfold realloc. destruct (next_choice s) as [c s0].
  destruct p as [b|].
  - destruct (mem s0 !! b); [|discriminate].
    destruct c; try discriminate. destruct (n =? 0); discriminate.
  - destruct c; discriminate.
Qed.

Lemma terminates_memcpy d p n : terminates (memcpy d p n).
Proof.
  intros s. unfold memcpy. destruct (n <=? 0); [discriminate|].
  destruct p; [|discriminate]. destruct d; [|discriminate].
  destruct (mem s !! _); [|discriminate].
  destruct (mem s !! _); [|discriminate].
  destruct (_ && _); discriminate.
Qed.

Lemma terminates_free p : terminates (free p).
Proof.
  intros s. unfold free. destruct p; [|discriminate].
  destruct (mem s !! _); discriminate.
Qed.

Lemma terminates_free_frame p : terminates (free_frame p).
Proof. intros s. unfold free_frame. destruct (frames s !! p); discriminate. Qed.

Lemma terminates_malloc_frame : terminates malloc_frame.
Proof.
  intros s. unfold malloc_frame. destruct (next_choice s) as [c s0].
  destruct c; discriminate.
Qed.

Ltac terminates_step :=
  first
    [ apply terminates_ret | apply terminates_fault
    | apply terminates_get_frame | apply terminates_set_frame
    | apply terminates_load | apply terminates_store
    | apply terminates_realloc | apply terminates_memcpy
    | apply terminates_free | apply terminates_free_frame
    | apply terminates_malloc_frame
    | assumption
    | apply terminates_bind; [|intros ?]
    | match goal with
      | |- terminates (if ?b then _ else _) => destruct b
      | |- terminates (match ?x with _ => _ end) => destruct x
      end ].

Ltac terminates_all := repeat terminates_step.

Lemma terminates_field {A} p (proj : uvc_frame_t -> A) :
  terminates (field p proj).
Proof. unfold field. terminates_all. Qed.

Lemma terminates_assign {A} p (setter : A -> uvc_frame_t -> uvc_frame_t) rhs :
  terminates rhs -> terminates (assign p setter rhs).
Proof. intros H. unfold assign. terminates_all. Qed.

Lemma terminates_ensure p n : terminates (uvc_ensure_frame_size p n).
Proof. unfold uvc_ensure_frame_size. terminates_all. Qed.

Lemma terminates_pixel_bytes p k : terminates (pixel_bytes p k).
Proof. unfold pixel_bytes. repeat first [apply terminates_field | terminates_step]. Qed.

Lemma terminates_copy_timing p q : terminates (copy_timing p q).
Proof.
  unfold copy_timing.
  repeat first [apply terminates_assign | apply terminates_field
               | terminates_step].
Qed.

Lemma terminates_rd p i : terminates (rd p i).
Proof. unfold rd. apply terminates_load. Qed.

Lemma terminates_wr p i v : terminates (wr p i v).
Proof. unfold wr. apply terminates_store. Qed.

Ltac terminates_macro :=
  repeat first
    [ apply terminates_rd | apply terminates_wr
    | apply terminates_bind; [|intros ?] ].

Lemma terminates_IYUYV2RGB_8 p q : terminates (IYUYV2RGB_8 p q).
Proof.
  unfold IYUYV2RGB_8, IYUYV2RGB_4, IYUYV2RGB_2. terminates_macro.
Qed.

Lemma terminates_IUYVY2RGB_8 p q : terminates (IUYVY2RGB_8 p q).
Proof.
  unfold IUYVY2RGB_8, IUYVY2RGB_4, IUYVY2RGB_2. terminates_macro.
Qed.

Lemma terminates_IUYVY2BGR_8 p q : terminates (IUYVY2BGR_8 p q).
Proof.
  unfold IUYVY2BGR_8, IUYVY2BGR_4, IUYVY2BGR_2. terminates_macro.
Qed.

Lemma terminates_IYUYV2Y p q : terminates (IYUYV2Y p q).
Proof. unfold IYUYV2Y. terminates_macro. Qed.

Lemma terminates_IYUYV2UV p q : terminates (IYUYV2UV p q).
Proof. unfold IYUYV2UV. terminates_macro. Qed.

Lemma terminates_block_loop body :
  (forall p q, terminates (body p q)) ->
  forall fuel p q e,
    (Z.to_nat (offset e - offset q) < fuel)%nat ->
    terminates (block_loop body fuel p q e).
Proof.
  intros Hb. induction fuel as [|fuel IH]; intros p q e Hf; [lia|].
  cbn [block_loop]. unfold ptr_lt.
  destruct (Z.ltb_spec (offset q) (offset e)); [|apply terminates_ret].
  apply terminates_bind; [apply Hb|]. intros _. apply IH.
  cbn [ptr_add offset]. lia.
Qed.

Lemma terminates_byte_loop body :
  (forall p q, terminates (body p q)) ->
  forall fuel p q e,
    (Z.to_nat (offset e - offset q) < fuel)%nat ->
    terminates (byte_loop body fuel p q e).
Proof.
  intros Hb. induction fuel as [|fuel IH]; intros p q e Hf; [lia|].
  cbn [byte_loop]. unfold ptr_lt.
  destruct (Z.ltb_spec (offset q) (offset e)); [|apply terminates_ret].
  apply terminates_bind; [apply Hb|]. intros _. apply IH.
  cbn [ptr_add offset]. lia.
Qed.

Lemma loop_fuel_enough d n :
  (Z.to_nat (offset (ptr_add (mk_ptr d 0) n) - offset (mk_ptr d 0))
   < loop_fuel n)%nat.
Proof. cbn [ptr_add offset]. unfold loop_fuel. lia. Qed.

Ltac terminates_kernel body_lemma :=
  repeat first
    [ apply terminates_field | apply terminates_pixel_bytes
    | apply terminates_ensure | apply terminates_copy_timing
    | apply terminates_assign
    | (first [apply terminates_block_loop | apply terminates_byte_loop];
       [intros; apply body_lemma | apply loop_fuel_enough])
    | terminates_step ].

Lemma terminates_bgr_to_rgb_loop data_ w h :
  int_mul (int_mul w h) 3 + 3 < 2 ^ 31 ->
  forall fuel i,
    0 <= i ->
    (Z.to_nat (int_mul (int_mul w h) 3 - i) < fuel)%nat ->
    terminates (bgr_to_rgb_loop fuel data_ w h i).
Proof.
  intros Hn. induction fuel as [|fuel IH]; intros i Hi Hf; [lia|].
  cbn [bgr_to_rgb_loop].
  destruct (Z.ltb_spec i (int_mul (int_mul w h) 3)); [|apply terminates_ret].
  repeat (apply terminates_bind;
          [first [apply terminates_load | apply terminates_store]|intros ?]).
  assert (int_add i 3 = i + 3) as ->
    by (unfold int_add; apply wrap_int_small; lia).
  apply IH; lia.
Qed.

(** X19.  Every loop comes to an end.  With the fuel [loop_fuel] (one
    turn more than [data_bytes]) no kernel runs out of fuel in any state:
    each loop advances its write pointer by at least one byte per turn until
    it reaches [data_bytes].  The same holds for the duplication and the
    routers (given a JPEG decoder that terminates), and for [bgr_to_rgb]
    when [width * height * 3 + 3] does not overflow [int]. *)
Theorem loops_terminate :
  (forall K a b k, In (K, a, b, k) kernels ->
     forall in_ out, terminates (K in_ out)) /\
  (forall in_ out, terminates (uvc_duplicate_frame in_ out)) /\
  (forall in_ out, terminates (uvc_any2bgr in_ out)) /\
  (forall has_jpeg mjpeg2rgb in_ out,
     terminates (mjpeg2rgb in_ out) ->
     terminates (uvc_any2rgb has_jpeg mjpeg2rgb in_ out)) /\
  (forall data_ w h,
     int_mul (int_mul w h) 3 + 3 < 2 ^ 31 ->
     terminates (bgr_to_rgb data_ w h)).
Proof.
  assert (forall in_ out, terminates (uvc_yuyv2rgb in_ out)) as H1.
  { intros. unfold uvc_yuyv2rgb.
    terminates_kernel terminates_IYUYV2RGB_8.
    rewrite yuyv2rgb_loop_shape.
    terminates_kernel terminates_IYUYV2RGB_8. }
  assert (forall in_ out, terminates (uvc_yuyv2bgr in_ out)) as H2.
  { intros. unfold uvc_yuyv2bgr.
    terminates_kernel terminates_IYUYV2RGB_8. }
  assert (forall in_ out, terminates (uvc_yuyv2y in_ out)) as H3.
  { intros. unfold uvc_yuyv2y.
    terminates_kernel terminates_IYUYV2Y.
    rewrite yuyv2y_loop_shape.
    terminates_kernel terminates_IYUYV2Y. }
  assert (forall in_ out, terminates (uvc_yuyv2uv in_ out)) as H4.
  { intros. unfold uvc_yuyv2uv.
    terminates_kernel terminates_IYUYV2UV.
    rewrite yuyv2uv_loop_shape.
    terminates_kernel terminates_IYUYV2UV. }
  assert (forall in_ out, terminates (uvc_uyvy2rgb in_ out)) as H5.
  { intros. unfold uvc_uyvy2rgb.
    terminates_kernel terminates_IUYVY2RGB_8.
    rewrite uyvy2rgb_loop_shape.
    terminates_kernel terminates_IUYVY2RGB_8. }
  assert (forall in_ out, terminates (uvc_uyvy2bgr in_ out)) as H6.
  { intros. unfold uvc_uyvy2bgr.
    terminates_kernel terminates_IUYVY2BGR_8.
    rewrite uyvy2bgr_loop_shape.
    terminates_kernel terminates_IUYVY2BGR_8. }
  assert (forall in_ out, terminates (uvc_duplicate_frame in_ out)) as H7.
  { intros. unfold uvc_duplicate_frame.
    terminates_kernel terminates_IYUYV2Y. }
  split; [|split; [exact H7|split; [|split]]].
  - intros K a b k HIn in_ out. simpl in HIn.
    destruct HIn as [HK | [HK | [HK | [HK | [HK | [HK | []]]]]]];
      injection HK as <- <- <- <-;
      [apply H1 | apply H2 | apply H3 | apply H4 | apply H5 | apply H6].
  - intros. unfold uvc_any2bgr.
    apply terminates_bind; [apply terminates_field|].
    intros fmt. destruct fmt;
      lazymatch goal with
      | |- terminates (ret _) => apply terminates_ret
      | |- terminates (uvc_yuyv2bgr _ _) => apply H2
      | |- terminates (uvc_uyvy2bgr _ _) => apply H6
      | |- terminates (uvc_duplicate_frame _ _) => apply H7
      end.
  - intros has_jpeg mjpeg2rgb in_ out Hm. unfold uvc_any2rgb.
    apply terminates_bind; [apply terminates_field|].
    intros fmt. destruct fmt;
      lazymatch goal with
      | |- terminates (ret _) => apply terminates_ret
      | |- terminates (uvc_yuyv2rgb _ _) => apply H1
      | |- terminates (uvc_uyvy2rgb _ _) => apply H5
      | |- terminates (uvc_duplicate_frame _ _) => apply H7
      | |- terminates (if _ then _ else _) =>
          destruct has_jpeg; [exact Hm | apply terminates_ret]
      end.
  - intros data_ w h Hn. unfold bgr_to_rgb.
    apply terminates_bgr_to_rgb_loop; [exact Hn|lia|].
    unfold loop_fuel. lia.
Qed.

Lemma loops_terminate_witness :
  uvc_yuyv2rgb 1 2 st_gray41 <> OutOfFuel.
Proof.
  destruct loops_terminate as [H _].
  exact (H _ _ _ _ (or_introl eq_refl) 1%positive 2%positive st_gray41).
Defined.
